(** * RealMeta Museum: fingerprint matching engine of [backend/app.py]

    A shallow embedding of the matching core of the Flask backend:
    [hamming_distance_int], [kmeans_palette], [texture_edge_density],
    [preprocess_image_for_matching], [compute_phash_from_image],
    [load_embeddings], [save_embeddings], [precompute] and [analyze];
    and of the routes around it: [decode_upload_to_image], the analytics
    log ([analytics_single], [analytics_batch]), [require_admin] and
    [admin_login], and the admin routes on the catalog.

    Python integers are [Z]; a finite Python float is the rational [Q] it
    stands for, and an operation on floats is the exact operation followed
    by the rounding [fl] to binary64 (the operations on distances, a
    division by 64 and a subtraction from 1, are exact and carry no
    rounding); dictionaries keep their insertion order, as Python's do, and
    are association lists with unique keys; exceptions are an error monad.
    Pillow, imagehash, scikit-learn and OpenCV are an interface
    ([Imaging]) the code is parametric in, and so are the bytes of an
    upload ([Uploads]). *)

From Stdlib Require Import ZArith QArith Qminmax Qround Qabs Qpower List String Ascii Bool.
From Stdlib Require Import Lia Lqa.
From Stdlib Require Import DecimalString DecimalPos DecimalZ.
From Stdlib Require Import Permutation.
Import ListNotations.

Local Open Scope string_scope.
Local Open Scope Z_scope.

(* ================================================================== *)
(** * Part I: the program *)
(* ================================================================== *)

(** ** Exceptions *)

Inductive exc (A : Type) : Type :=
| Return (a : A)
| Raise (e : string).
Arguments Return {A} a.
Arguments Raise {A} e.

Definition bind {A B : Type} (c : exc A) (f : A -> exc B) : exc B :=
  match c with
  | Return a => f a
  | Raise e => Raise e
  end.

Notation "x <- c1 ;; c2" := (bind c1 (fun x => c2))
  (at level 61, c1 at next level, right associativity).

(** ** Dictionaries in insertion order *)

Definition dict (V : Type) : Type := list (string * V).

(** [d[k] = v]: an existing key keeps its place, a new one goes last. *)
Fixpoint dict_set {V : Type} (d : dict V) (k : string) (v : V) : dict V :=
  match d with
  | [] => [(k, v)]
  | (k', v') :: rest =>
      if String.eqb k' k then (k', v) :: rest else (k', v') :: dict_set rest k v
  end.

(** [d.get(k)] *)
Fixpoint dict_get {V : Type} (d : dict V) (k : string) : option V :=
  match d with
  | [] => None
  | (k', v) :: rest => if String.eqb k' k then Some v else dict_get rest k
  end.

Definition keys {V : Type} (d : dict V) : list string := map fst d.

(** A Python [dict] never holds a key twice. *)
Definition is_dict {V : Type} (d : dict V) : Prop := NoDup (keys d).

(** ** JSON values, as [json.load] hands them over *)

Inductive py_float : Type :=
| Finite (q : Q)
| NonFinite.          (* nan, inf, -inf *)

#[local] Set Warnings "-register-all".
Inductive json : Type :=
| JNull
| JBool (b : bool)
| JInt (z : Z)
| JFloat (f : py_float)
| JStr (s : string)
| JArr (l : list json)
| JObj (o : list (string * json)).

(** Python truthiness of a JSON value ([if not filename]). *)
Definition truthy (v : json) : bool :=
  match v with
  | JNull => false
  | JBool b => b
  | JInt z => negb (z =? 0)
  | JFloat (Finite q) => negb (Qeq_bool q 0)
  | JFloat NonFinite => true
  | JStr s => negb (String.eqb s "")
  | JArr l => match l with [] => false | _ => true end
  | JObj o => match o with [] => false | _ => true end
  end.

(** ** Numbers *)

(** [int(x)] on a float: truncation towards zero. *)
Definition int_of_Q (q : Q) : Z := Z.quot (Qnum q) (Zpos (Qden q)).

(** [round(x)]: to the nearest integer, ties to the even one. *)
Definition round_half_even (q : Q) : Z :=
  let f := Qfloor q in
  match Qcompare (q - inject_Z f) (1 # 2) with
  | Lt => f
  | Gt => f + 1
  | Eq => if Z.even f then f else f + 1
  end.

(** [round(x, ndigits)] on the float [q]: the decimal with [ndigits]
    digits after the point that is nearest to the value of the float,
    ties to the even one.  The float that [round] returns is the one
    nearest to this decimal; it is written to the response as this
    decimal, which is what is kept here. *)
Definition py_round (q : Q) (ndigits : positive) : Q :=
  let scale := 10 ^ Zpos ndigits in
  Qmake (round_half_even (q * inject_Z scale)) (Z.to_pos scale).

(** *** Binary64

    The result of an operation on floats is the exact result rounded to
    the nearest binary64 number, ties to the one with an even last bit:
    53 significant bits, the last place no finer than 2^-1074. *)

(** The largest [k] with [2^k <= q], for [0 < q]. *)
Definition floor_log2 (q : Q) : Z :=
  let k := Z.log2 (Qnum q) - Z.log2 (Zpos (Qden q)) in
  if Qle_bool (2 ^ k) q then k else k - 1.

(** The exponent of the last place of [q] as a binary64. *)
Definition exponent (q : Q) : Z := Z.max (floor_log2 (Qabs q) - 52) (-1074).

(** [q] rounded to binary64, before any overflow. *)
Definition fl (q : Q) : Q :=
  let e := exponent q in
  Qred (inject_Z (round_half_even (q / 2 ^ e)) * 2 ^ e).

(** A rounded result from 2^1024 on is beyond the finite floats. *)
Definition overflows (x : Q) : bool := Qle_bool (2 ^ 1024) (Qabs x).

(** An integer operand of a float operation, and [float(n)]. *)
Definition float_of_int (n : Z) : exc Q :=
  let x := fl (inject_Z n) in
  if overflows x then Raise "OverflowError" else Return x.

(** [int(x)] on the result [x] of a float operation: truncation towards
    zero; the infinity of an overflow is an [OverflowError]. *)
Definition int_of_float (x : Q) : exc Z :=
  if overflows x then Raise "OverflowError" else Return (int_of_Q x).

(** [str(n)] on an integer: decimal, with a leading [-] when negative. *)
Definition str_of_int (z : Z) : string := NilZero.string_of_int (Z.to_int z).

(** *** [int(s)] on a string

    Base 10: surrounding whitespace is stripped, one sign is allowed, the
    digits may be separated by single underscores.  The model covers ASCII
    text of a length that the interpreter's limit on the digits of an
    integer string lets through ([in_scope] below); on such text the
    whitespace that [int] strips is the characters 9 to 13 and the
    space. *)

Definition is_space (c : ascii) : bool :=
  let n := nat_of_ascii c in
  (((9 <=? n) && (n <=? 13)) || (n =? 32))%nat.

Definition digit_of (c : ascii) : option Z :=
  let n := nat_of_ascii c in
  if ((48 <=? n) && (n <=? 57))%nat then Some (Z.of_nat n - 48) else None.

Fixpoint lstrip (s : string) : string :=
  match s with
  | String c rest => if is_space c then lstrip rest else s
  | EmptyString => EmptyString
  end.

(** [rstrip s] drops trailing whitespace. *)
Fixpoint rstrip (s : string) : string :=
  match s with
  | EmptyString => EmptyString
  | String c rest =>
      match rstrip rest with
      | EmptyString => if is_space c then EmptyString else String c EmptyString
      | r => String c r
      end
  end.

(** [digits acc prev_digit s]: the digits of [s] accumulated on [acc];
    [prev_digit] says whether the previous character was a digit, which
    is where an underscore may stand. *)
Fixpoint digits (acc : Z) (prev_digit : bool) (s : string) : option Z :=
  match s with
  | EmptyString => if prev_digit then Some acc else None
  | String c rest =>
      match digit_of c with
      | Some d => digits (10 * acc + d) true rest
      | None =>
          if (Ascii.eqb c "_" && prev_digit)%bool then
            match rest with
            | String c' _ =>
                match digit_of c' with
                | Some _ => digits acc false rest
                | None => None
                end
            | EmptyString => None
            end
          else None
      end
  end.

Definition int_of_str (s : string) : option Z :=
  match rstrip (lstrip s) with
  | String c rest =>
      if Ascii.eqb c "-" then option_map Z.opp (digits 0 false rest)
      else if Ascii.eqb c "+" then digits 0 false rest
      else digits 0 false (String c rest)
  | EmptyString => None
  end.

(** [int(v)] on a JSON value; [None] is a raised [ValueError],
    [TypeError] or [OverflowError]. *)
Definition py_int (v : json) : option Z :=
  match v with
  | JNull => None
  | JBool b => Some (if b then 1 else 0)
  | JInt z => Some z
  | JFloat (Finite q) => Some (int_of_Q q)
  | JFloat NonFinite => None
  | JStr s => int_of_str s
  | JArr _ => None
  | JObj _ => None
  end.

(** ** Hamming distance *)

Fixpoint pos_bit_count (p : positive) : Z :=
  match p with
  | xH => 1
  | xO q => pos_bit_count q
  | xI q => 1 + pos_bit_count q
  end.

(** [int.bit_count]: the number of ones in the binary representation of
    the absolute value. *)
Definition bit_count (n : Z) : Z :=
  match n with
  | Z0 => 0
  | Zpos p => pos_bit_count p
  | Zneg p => pos_bit_count p
  end.

Definition hamming_distance_int (a b : Z) : Z := bit_count (Z.lxor a b).

(** ** The imaging libraries

    Pillow, imagehash, scikit-learn, NumPy and OpenCV, and the files
    under the images directory.  Every call may raise. *)

Inductive resampling : Type := DefaultFilter | LANCZOS.

Definition rgb : Type := (Z * Z * Z)%type.

Class Imaging (image : Type) : Type := {
  (** [img.size], as [(width, height)] *)
  size : image -> Z * Z;
  (** [ImageOps.exif_transpose(img)] *)
  exif_transpose : image -> exc image;
  (** [img.convert(mode)] *)
  convert : image -> string -> exc image;
  (** [img.resize((w, h), filter)] *)
  resize : image -> Z * Z -> resampling -> exc image;
  (** [os.path.exists(path)] *)
  path_exists : string -> bool;
  (** [Image.open(path)] *)
  image_open : string -> exc image;
  (** [np.asarray(img).reshape(-1, 3)] *)
  samples : image -> list rgb;
  (** [int(str(imagehash.phash(img)), 16)] *)
  phash : image -> exc Z;
  (** [np.random.choice(n, m, replace=False)] *)
  random_choice : Z -> Z -> exc (list nat);
  (** [KMeans(n_clusters=k, n_init=5, random_state=42)]: the labels of
      [fit_predict] and [cluster_centers_.astype(np.int32)] *)
  kmeans : nat -> list rgb -> exc (list nat * list rgb);
  (** [cv2.Canny(cv2.cvtColor(np.array(img), COLOR_RGB2GRAY), lo, hi)],
      flattened *)
  canny : image -> Z -> Z -> exc (list Z)
}.

(** ** Palette arithmetic (the part of [kmeans_palette] after the fit) *)

Record swatch : Type := { hex : string; percent : Z }.

(** One more occurrence of label [l]; the array grows when [l] is beyond
    its end. *)
Fixpoint count_label (counts : list Z) (l : nat) : list Z :=
  match counts, l with
  | c :: rest, O => (c + 1) :: rest
  | c :: rest, S l' => c :: count_label rest l'
  | [], O => [1]
  | [], S l' => 0 :: count_label [] l'
  end.

(** [np.bincount(labels, minlength=k)] *)
Definition bincount (labels : list nat) (minlength : nat) : list Z :=
  fold_left count_label labels (repeat 0 minlength).

Definition sum_Z (l : list Z) : Z := fold_right Z.add 0 l.

Definition hex_digit (n : Z) : string :=
  String (ascii_of_nat (Z.to_nat (if n <? 10 then 48 + n else 87 + n))) EmptyString.

Fixpoint hex_of_pos (p : positive) (fuel : nat) : string :=
  match fuel with
  | O => EmptyString
  | S fuel' =>
      let n := Zpos p in
      match n / 16 with
      | Zpos q => hex_of_pos q fuel' ++ hex_digit (n mod 16)
      | _ => hex_digit (n mod 16)
      end
  end.

(** ['%02x' % n] *)
Definition format_02x (n : Z) : string :=
  match n with
  | Z0 => "00"
  | Zpos p =>
      let h := hex_of_pos p (Pos.size_nat p) in
      if n <? 16 then "0" ++ h else h
  | Zneg p => "-" ++ hex_of_pos p (Pos.size_nat p)
  end.

Definition rgb_to_hex (c : rgb) : string :=
  let '(r, g, b) := c in
  "#" ++ format_02x r ++ format_02x g ++ format_02x b.

(** [int(round(100 * (counts[i] / total)))]: the division of the two
    integers as floats, the product by 100, and the rounding to an
    integer of the float that results. *)
Definition percent_of (count total : Z) : Z :=
  let share := fl (fl (inject_Z count) / fl (inject_Z total)) in
  round_half_even (fl (100 * share)).

Definition sum_percent (palette : list swatch) : Z := sum_Z (map percent palette).

(** Lines 120-123: the rounding error goes to the first swatch, which is
    kept within 0..100. *)
Definition normalize (palette : list swatch) : list swatch :=
  let diff := 100 - sum_percent palette in
  match palette with
  | p0 :: rest =>
      if negb (diff =? 0) then
        {| hex := hex p0; percent := Z.max 0 (Z.min 100 (percent p0 + diff)) |} :: rest
      else palette
  | [] => palette
  end.

(** The loop of lines 113-119; [centers[i]] raises beyond the array. *)
Fixpoint swatches (centers : list rgb) (counts : list Z) (total : Z) (range : list nat)
  : exc (list swatch) :=
  match range with
  | [] => Return []
  | i :: range' =>
      match nth_error centers i with
      | None => Raise "IndexError"
      | Some color =>
          rest <- swatches centers counts total range' ;;
          Return ({| hex := rgb_to_hex color;
                     percent := percent_of (nth i counts 0) total |} :: rest)
      end
  end.

Definition palette_of_clusters (k : nat) (labels : list nat) (centers : list rgb)
  : exc (list swatch) :=
  let counts := bincount labels k in
  let total := if sum_Z counts >? 0 then sum_Z counts else 1 in
  palette <- swatches centers counts total (seq 0 k) ;;
  Return (normalize palette).

(** [arr[idx]] *)
Fixpoint take_rows {A : Type} (arr : list A) (idx : list nat) : exc (list A) :=
  match idx with
  | [] => Return []
  | i :: idx' =>
      match nth_error arr i with
      | None => Raise "IndexError"
      | Some row => rest <- take_rows arr idx' ;; Return (row :: rest)
      end
  end.

(** ** Confidence and the response *)

Definition MAX_DISTANCE : Z := 40.

(** [max(0.0, min(1.0, 1.0 - (best_dist / 64.0)))] *)
Definition confidence (best_dist : Z) : Q :=
  Qmax 0 (Qmin 1 (1 - inject_Z best_dist / 64)).

Record debug_info : Type := {
  best_match : option string;
  best_distance : Z;
  threshold : Z;
  top_3 : list (string * Z)
}.

Record response : Type := {
  matched : bool;
  match_id : option string;
  match_confidence : option Q;
  hamming_distance : Z;
  palette : list swatch;
  texture_edge_density_field : Q;
  debug : debug_info;
  metadata : option json;
  message : option string
}.

Inductive reply : Type :=
| Error_reply (status : Z) (error : string)      (* [{"error": ...}, status] *)
| Status_error (status : Z) (msg : string)       (* [{"status": "error", "message": ...}, status] *)
| Count_reply (count : Z)                        (* [{"status": "ok", "count": ...}] *)
| Match_reply (resp : response).                 (* the answer of [/analyze] *)

(** The state of the search loop of [analyze]. *)
Record search : Type := {
  best_id : option string;
  best_dist : option Z;
  all_distances : list (string * Z)
}.

Definition search_init : search :=
  {| best_id := None; best_dist := None; all_distances := [] |}.

Definition search_step (ph : Z) (st : search) (item : string * Z) : search :=
  let '(art_id, emb) := item in
  let d := hamming_distance_int ph emb in
  let all := (all_distances st ++ [(art_id, d)])%list in
  let better := match best_dist st with
                | None => true
                | Some bd => d <? bd
                end in
  if better
  then {| best_id := Some art_id; best_dist := Some d; all_distances := all |}
  else {| best_id := best_id st; best_dist := best_dist st; all_distances := all |}.

(** [list.sort(key=lambda x: x["distance"])]: stable. *)
Fixpoint insert_by_distance (x : string * Z) (l : list (string * Z)) : list (string * Z) :=
  match l with
  | [] => [x]
  | y :: l' => if snd x <=? snd y then x :: l else y :: insert_by_distance x l'
  end.

Definition sort_by_distance (l : list (string * Z)) : list (string * Z) :=
  fold_right insert_by_distance [] l.

(** ** The persisted fingerprint store *)

(** [load_embeddings]; [store] is the content of [embeddings.json], a
    JSON object as [json.load] returns it, [None] when the file does not
    exist. *)
Definition load_embeddings (store : option (dict json)) : dict Z :=
  match store with
  | None => []
  | Some raw =>
      fold_left (fun res '(k, v) =>
                   match py_int v with
                   | Some n => dict_set res k n
                   | None => res
                   end) raw []
  end.

(** [save_embeddings]: the content written to [embeddings.json]. *)
Definition save_embeddings (mapping : dict Z) : dict json :=
  map (fun '(k, v) => (k, JStr (str_of_int v))) mapping.

Fixpoint ends_with_slash (s : string) : bool :=
  match s with
  | EmptyString => false
  | String c EmptyString => Ascii.eqb c "/"
  | String _ rest => ends_with_slash rest
  end.

(** [os.path.join(dir, name)] (POSIX); a [name] that is no string is a
    [TypeError]. *)
Definition path_join (dir : string) (name : json) : exc string :=
  match name with
  | JStr f =>
      match f with
      | String "/" _ => Return f
      | _ =>
          if (String.eqb dir "" || ends_with_slash dir)%bool
          then Return (dir ++ f)
          else Return (dir ++ "/" ++ f)
      end
  | _ => Raise "TypeError"
  end.

(** [meta.get(key)] *)
Definition meta_get (meta : json) (key : string) : exc json :=
  match meta with
  | JObj o => Return (match dict_get o key with Some v => v | None => JNull end)
  | _ => Raise "AttributeError"
  end.

(** ** The pipeline *)

Section Pipeline.

Context {image : Type} {lib : Imaging image}.

(** The images directory of the installation. *)
Variable IMAGES_DIR : string.

(** [scale] and the products [w * scale], [h * scale] are floats: the
    integers are converted, and the quotient and the products rounded. *)
Definition preprocess_image_for_matching (pil_img : image) (max_size : Z) : exc image :=
  let pil_img := match exif_transpose pil_img with
                 | Return transposed => transposed
                 | Raise _ => pil_img
                 end in
  pil_img <- convert pil_img "RGB" ;;
  let '(w, h) := size pil_img in
  let max_dim := Z.max w h in
  if max_dim >? max_size then
    max_dim_f <- float_of_int max_dim ;;
    max_size_f <- float_of_int max_size ;;
    if Qeq_bool max_dim_f 0 then Raise "ZeroDivisionError"
    else
      let scale := fl (max_size_f / max_dim_f) in
      w_f <- float_of_int w ;;
      new_w <- int_of_float (fl (w_f * scale)) ;;
      h_f <- float_of_int h ;;
      new_h <- int_of_float (fl (h_f * scale)) ;;
      resize pil_img (new_w, new_h) LANCZOS
  else Return pil_img.

Definition compute_phash_from_image (pil_img : image) : exc Z :=
  pil_img <- preprocess_image_for_matching pil_img 512 ;;
  phash pil_img.

Definition kmeans_palette (pil_img : image) (k : nat) : exc (list swatch) :=
  img <- convert pil_img "RGB" ;;
  img <- resize img (200, 200) DefaultFilter ;;
  let arr := samples img in
  let rows := Z.of_nat (List.length arr) in
  arr_sample <- (if rows >? 50000
                 then idx <- random_choice rows 50000 ;; take_rows arr idx
                 else Return arr) ;;
  fit <- kmeans k arr_sample ;;
  let '(labels, centers) := fit in
  palette_of_clusters k labels centers.

(** The quotient of the two integers is the float nearest to it. *)
Definition texture_edge_density (pil_img : image) : exc Q :=
  img_rgb <- convert pil_img "RGB" ;;
  edges <- canny img_rgb 100 200 ;;
  let edge_pixels := Z.of_nat (List.length (filter (fun e => negb (e =? 0)) edges)) in
  let edges_size := Z.of_nat (List.length edges) in
  let total_pixels := if edges_size >? 0 then edges_size else 1 in
  Return (fl (inject_Z edge_pixels / inject_Z total_pixels)).

(** *** [/precompute] *)

(** The body of the [with Image.open(path)] block. *)
Definition fingerprint_file (path : string) : exc Z :=
  img <- image_open path ;;
  img <- convert img "RGB" ;;
  compute_phash_from_image img.

(** One turn of the loop over [ARTWORKS.items()].  What [meta.get] and
    [os.path.join] raise is outside the [try] and leaves the handler. *)
Definition precompute_step (acc : exc (dict Z * Z)) (item : string * json)
  : exc (dict Z * Z) :=
  st <- acc ;;
  let '(embeddings, count) := st in
  let '(art_id, meta) := item in
  filename <- meta_get meta "image" ;;
  if negb (truthy filename) then Return (embeddings, count)
  else
    path <- path_join IMAGES_DIR filename ;;
    if negb (path_exists path) then Return (embeddings, count)
    else
      match fingerprint_file path with
      | Return ph => Return (dict_set embeddings art_id ph, count + 1)
      | Raise _ => Return (embeddings, count)
      end.

(** The reply, and the content of [embeddings.json] afterwards ([store]
    is its content before). *)
Definition precompute (ARTWORKS : dict json) (store : option (dict json))
  : exc (reply * option (dict json)) :=
  match ARTWORKS with
  | [] => Return (Status_error 400 "artworks.json missing or empty", store)
  | _ =>
      st <- fold_left precompute_step ARTWORKS (Return ([], 0)) ;;
      let '(embeddings, count) := st in
      Return (Count_reply count, Some (save_embeddings embeddings))
  end.

(** *** [/analyze] *)

Definition no_match_message (best_dist : Z) : string :=
  "No match found. Best distance was " ++ str_of_int best_dist
  ++ " (threshold: " ++ str_of_int MAX_DISTANCE
  ++ "). Try a clearer photo or ensure /precompute was run.".

(** [ARTWORKS.get(best_id) if matched else None] *)
Definition lookup_metadata (ARTWORKS : dict json) (matched : bool) (best_id : option string)
  : option json :=
  if matched then
    match best_id with
    | Some art_id =>
        match dict_get ARTWORKS art_id with
        | Some JNull => None
        | found => found
        end
    | None => None
    end
  else None.

(** [decoded] is what [decode_upload_to_image(request)] returned: the
    image or [None], and the error text. *)
Definition analyze (decoded : option image * string) (ARTWORKS : dict json)
  (store : option (dict json)) : reply :=
  let '(pil_img, err) := decoded in
  match pil_img with
  | None => Error_reply 400 err
  | Some pil_img =>
      match compute_phash_from_image pil_img with
      | Raise e => Error_reply 500 ("Failed to compute pHash: " ++ e)
      | Return ph =>
          let palette := match kmeans_palette pil_img 5 with
                         | Return p => p
                         | Raise _ => []
                         end in
          let tex_density := match texture_edge_density pil_img with
                             | Return t => t
                             | Raise _ => 0%Q
                             end in
          let embeddings := load_embeddings store in
          match embeddings with
          | [] => Error_reply 400 "No embeddings found. Run /precompute first."
          | _ =>
              let found := fold_left (search_step ph) embeddings search_init in
              let all_distances := sort_by_distance (all_distances found) in
              match best_dist found with
              | None => Error_reply 500 "Internal Server Error"
              | Some best_dist =>
                  let confidence := confidence best_dist in
                  let matched := best_dist <=? MAX_DISTANCE in
                  let metadata := lookup_metadata ARTWORKS matched (best_id found) in
                  Match_reply
                    {| matched := matched;
                       match_id := if matched then best_id found else None;
                       match_confidence :=
                         if matched then Some (py_round confidence 4) else None;
                       hamming_distance := best_dist;
                       palette := palette;
                       texture_edge_density_field := py_round tex_density 6;
                       debug := {| best_match := best_id found;
                                   best_distance := best_dist;
                                   threshold := MAX_DISTANCE;
                                   top_3 := firstn 3 all_distances |};
                       metadata := metadata;
                       message := match metadata with
                                  | Some _ => None
                                  | None => Some (no_match_message best_dist)
                                  end |}
              end
          end
      end
  end.

(** *** The entries of a catalog, as the rebuild sees them

    Valid: the image reference names a file that exists, opens, decodes
    and hashes.  Broken: the reference is missing (absent, null, empty),
    or the file is absent, or it fails to decode.  Anything else (a
    metadata value that is no object, a reference that is no string) is
    malformed. *)

Inductive entry_class : Type :=
| Valid (ph : Z)
| Broken
| Malformed.

Definition classify (meta : json) : entry_class :=
  match meta with
  | JObj fields =>
      match dict_get fields "image" with
      | None => Broken
      | Some (JStr filename) =>
          if String.eqb filename "" then Broken
          else
            match path_join IMAGES_DIR (JStr filename) with
            | Return path =>
                if path_exists path then
                  match fingerprint_file path with
                  | Return ph => Valid ph
                  | Raise _ => Broken
                  end
                else Broken
            | Raise _ => Malformed
            end
      | Some other => if truthy other then Malformed else Broken
      end
  | _ => Malformed
  end.

Definition is_broken (item : string * json) : bool :=
  match classify (snd item) with
  | Broken => true
  | _ => false
  end.

(** The valid entries with their fingerprints, in catalog order. *)
Definition valid_entries (ARTWORKS : dict json) : dict Z :=
  flat_map (fun item => match classify (snd item) with
                        | Valid ph => [(fst item, ph)]
                        | _ => []
                        end) ARTWORKS.

End Pipeline.

(** ** A small raster library

    An executable instance of [Imaging], to run the pipeline on: images
    without orientation tag, always RGB, stored row by row; resizing by
    nearest neighbour; a hash of one bit per cell of an 8x8 reduction; a
    clustering that quantises the red channel; edges where the red channel
    jumps between horizontal neighbours. *)

Record raster : Type := { r_width : Z; r_height : Z; r_pixels : list rgb }.

Definition zrange (n : Z) : list Z := map Z.of_nat (seq 0 (Z.to_nat n)).

Definition red (c : rgb) : Z := let '(r, _, _) := c in r.

Definition raster_resize (img : raster) (wh : Z * Z) (f : resampling) : exc raster :=
  let '(w, h) := wh in
  if ((w <=? 0) || (h <=? 0))%bool then Raise "height and width must be > 0"
  else
    let pixel x y :=
      nth (Z.to_nat ((y * r_height img / h) * r_width img + x * r_width img / w))
          (r_pixels img) (0, 0, 0) in
    Return {| r_width := w; r_height := h;
              r_pixels := flat_map (fun y => map (fun x => pixel x y) (zrange w)) (zrange h) |}.

Definition raster_phash (img : raster) : exc Z :=
  small <- raster_resize img (8, 8) DefaultFilter ;;
  Return (fold_left (fun acc c => 2 * acc + (if red c >=? 128 then 1 else 0))
                    (r_pixels small) 0).

Definition raster_kmeans (k : nat) (arr : list rgb) : exc (list nat * list rgb) :=
  match k with
  | O => Raise "InvalidParameterError"
  | S _ =>
      let kz := Z.of_nat k in
      Return (map (fun c => Z.to_nat (Z.max 0 (Z.min (kz - 1) (red c * kz / 256)))) arr,
              map (fun i => let m := (2 * i + 1) * 128 / kz in (m, m, m)) (zrange kz))
  end.

Fixpoint raster_edges (w lo : Z) (x : Z) (prev : Z) (px : list rgb) : list Z :=
  match px with
  | [] => []
  | c :: rest =>
      let x' := if x + 1 <? w then x + 1 else 0 in
      (if ((0 <? x) && (lo <? Z.abs (red c - prev)))%bool then 255 else 0)
        :: raster_edges w lo x' (red c) rest
  end.

Definition raster_files : Type := list (string * exc raster).

Fixpoint raster_find (files : raster_files) (path : string) : option (exc raster) :=
  match files with
  | [] => None
  | (p, f) :: rest => if String.eqb p path then Some f else raster_find rest path
  end.

#[local] Instance raster_lib (files : raster_files) : Imaging raster := {|
  size := fun img => (r_width img, r_height img);
  exif_transpose := fun img => Return img;
  convert := fun img mode =>
    if String.eqb mode "RGB" then Return img else Raise "conversion not supported";
  resize := raster_resize;
  path_exists := fun path => match raster_find files path with Some _ => true | None => false end;
  image_open := fun path =>
    match raster_find files path with Some f => f | None => Raise "FileNotFoundError" end;
  samples := r_pixels;
  phash := raster_phash;
  random_choice := fun n m => Return (seq 0 (Z.to_nat m));
  kmeans := raster_kmeans;
  canny := fun img lo hi => Return (raster_edges (r_width img) lo 0 0 (r_pixels img))
|}.

(** A 1024x2 image of alternating black and white columns. *)
Definition stripes : raster :=
  {| r_width := 1024; r_height := 2;
     r_pixels := map (fun i => if Z.even i then (0, 0, 0) else (255, 255, 255))
                     (zrange 2048) |}.

(** An 8x8 image, black but for a white first row. *)
Definition top_row : raster :=
  {| r_width := 8; r_height := 8;
     r_pixels := map (fun i => if i <? 8 then (255, 255, 255) else (0, 0, 0)) (zrange 64) |}.

(** Stores to run the matcher on.  The fingerprint of [top_row] is
    [255 * 2^56]; that of [stripes] is 0. *)
Definition gallery_store : option (dict json) :=
  Some [("monet", JStr "18374686479671623681");
        ("degas", JStr "72057594037927935");
        ("draft", JStr "pending")].

Definition far_store : option (dict json) :=
  Some [("degas", JStr "72057594037927935"); ("klimt", JStr "72057594037927934")].

Definition tie_store : option (dict json) :=
  Some [("b", JStr "0"); ("a", JStr "0")].

Definition tie_store_swapped : option (dict json) :=
  Some [("a", JStr "0"); ("b", JStr "0")].

(** Four entries, all far from [top_row]: at 64, 63, 63 and 62. *)
Definition distant_store : option (dict json) :=
  Some [("degas", JStr "72057594037927935"); ("klimt", JStr "72057594037927934");
        ("munch", JStr "72057594037927933"); ("ernst", JStr "72057594037927932")].

(** Four entries, three of them near [top_row]: at 64, 1, 2 and 1. *)
Definition crowded_store : option (dict json) :=
  Some [("degas", JStr "72057594037927935"); ("monet", JStr "18374686479671623681");
        ("klimt", JStr "18374686479671623683"); ("munch", JStr "18374686479671623682")].

(** What [analyze] answers to the upload [stripes] against [tie_store]
    and an empty catalog. *)
Definition stripes_response : response :=
  {| matched := true;
     match_id := Some "b";
     match_confidence := Some (10000 # 10000)%Q;
     hamming_distance := 0;
     palette := [ {| hex := "#191919"; percent := 52 |};
                  {| hex := "#4c4c4c"; percent := 0 |};
                  {| hex := "#808080"; percent := 0 |};
                  {| hex := "#b3b3b3"; percent := 0 |};
                  {| hex := "#e6e6e6"; percent := 48 |} ];
     texture_edge_density_field := (999023 # 1000000)%Q;
     debug := {| best_match := Some "b";
                 best_distance := 0;
                 threshold := 40;
                 top_3 := [("b", 0); ("a", 0)] |};
     metadata := None;
     message := Some (no_match_message 0) |}.

(** An 8x8 black image, with the fingerprint of [stripes], and what
    [analyze] answers to it against [tie_store] and an empty catalog. *)
Definition black : raster :=
  {| r_width := 8; r_height := 8; r_pixels := repeat (0, 0, 0) 64 |}.

Definition black_response : response :=
  {| matched := true;
     match_id := Some "b";
     match_confidence := Some (10000 # 10000)%Q;
     hamming_distance := 0;
     palette := [ {| hex := "#191919"; percent := 100 |};
                  {| hex := "#4c4c4c"; percent := 0 |};
                  {| hex := "#808080"; percent := 0 |};
                  {| hex := "#b3b3b3"; percent := 0 |};
                  {| hex := "#e6e6e6"; percent := 0 |} ];
     texture_edge_density_field := (0 # 1000000)%Q;
     debug := {| best_match := Some "b";
                 best_distance := 0;
                 threshold := 40;
                 top_3 := [("b", 0); ("a", 0)] |};
     metadata := None;
     message := Some (no_match_message 0) |}.

(** The raster library with a clustering and an edge detector that
    fail. *)
#[local] Instance failing_lib : Imaging raster := {|
  size := fun img => (r_width img, r_height img);
  exif_transpose := fun img => Return img;
  convert := fun img mode =>
    if String.eqb mode "RGB" then Return img else Raise "conversion not supported";
  resize := raster_resize;
  path_exists := fun path => false;
  image_open := fun path => Raise "FileNotFoundError";
  samples := r_pixels;
  phash := raster_phash;
  random_choice := fun n m => Return (seq 0 (Z.to_nat m));
  kmeans := fun k arr => Raise "MemoryError";
  canny := fun img lo hi => Raise "cv2.error"
|}.

(** The canonical buffer of [stripes]: 512x1, black. *)
Definition stripes_canonical : raster :=
  {| r_width := 512; r_height := 1; r_pixels := repeat (0, 0, 0) 512 |}.

(** A black 561x3 image and its canonical buffer, 511x2. *)
Definition banner : raster :=
  {| r_width := 561; r_height := 3; r_pixels := repeat (0, 0, 0) 1683 |}.

Definition banner_canonical : raster :=
  {| r_width := 511; r_height := 2; r_pixels := repeat (0, 0, 0) 1022 |}.

(** A clustering of 40000 samples into four clusters of 240 and one of
    39040, with its centers. *)
Definition speckle_labels : list nat :=
  (repeat 0 240 ++ repeat 1 240 ++ repeat 2 240 ++ repeat 3 240
   ++ repeat 4 (Z.to_nat 39040))%nat%list.

Definition speckle_centers : list rgb :=
  [(25, 25, 25); (76, 76, 76); (128, 128, 128); (179, 179, 179); (230, 230, 230)].

(** A 50x50 image with 15 pixels at each of four dark levels on white;
    resized to 200x200 every pixel covers 16 samples. *)
Definition speckled : raster :=
  {| r_width := 50; r_height := 50;
     r_pixels := (repeat (0, 0, 0) 15 ++ repeat (60, 60, 60) 15 ++ repeat (110, 110, 110) 15
                  ++ repeat (160, 160, 160) 15 ++ repeat (255, 255, 255) 2440)%list |}.

Definition speckled_palette : list swatch :=
  [ {| hex := "#191919"; percent := 0 |};
    {| hex := "#4c4c4c"; percent := 1 |};
    {| hex := "#808080"; percent := 1 |};
    {| hex := "#b3b3b3"; percent := 1 |};
    {| hex := "#e6e6e6"; percent := 98 |} ].

(** A catalog and the files under [images]: one valid entry, one
    without image reference, one whose file fails to decode, one whose
    file is absent. *)
Definition gallery_files : raster_files :=
  [("images/monet.png", Return top_row);
   ("images/degas.png", Raise "cannot identify image file")].

Definition gallery : dict json :=
  [("monet", JObj [("title", JStr "Impression"); ("image", JStr "monet.png")]);
   ("sketch", JObj [("title", JStr "Untitled"); ("image", JStr "")]);
   ("degas", JObj [("image", JStr "degas.png")]);
   ("klimt", JObj [("image", JStr "klimt.png")])].

(** A 1024x1 image: capping its longest side at 512 leaves it no height. *)
Definition sliver : raster :=
  {| r_width := 1024; r_height := 1; r_pixels := repeat (0, 0, 0) 1024 |}.

Definition sliver_files : raster_files := [("images/sliver.png", Return sliver)].

Definition sliver_catalog : dict json :=
  [("sliver", JObj [("image", JStr "sliver.png")])].

(** ** Reference definitions, in the words of the specification *)

(** [clamp(x, lo, hi)] *)
Definition clamp (x lo hi : Q) : Q :=
  if Qlt_le_dec x lo then lo else if Qlt_le_dec hi x then hi else x.

(** The value of a decimal numeral read from the left, [acc] being the
    value of the digits already read. *)
Fixpoint uint_value (acc : Z) (d : Decimal.uint) : Z :=
  match d with
  | Decimal.Nil => acc
  | Decimal.D0 l => uint_value (10 * acc + 0) l
  | Decimal.D1 l => uint_value (10 * acc + 1) l
  | Decimal.D2 l => uint_value (10 * acc + 2) l
  | Decimal.D3 l => uint_value (10 * acc + 3) l
  | Decimal.D4 l => uint_value (10 * acc + 4) l
  | Decimal.D5 l => uint_value (10 * acc + 5) l
  | Decimal.D6 l => uint_value (10 * acc + 6) l
  | Decimal.D7 l => uint_value (10 * acc + 7) l
  | Decimal.D8 l => uint_value (10 * acc + 8) l
  | Decimal.D9 l => uint_value (10 * acc + 9) l
  end.

(** No character of [s] is whitespace. *)
Fixpoint no_space (s : string) : bool :=
  match s with
  | EmptyString => true
  | String c rest => negb (is_space c) && no_space rest
  end.

(** The stored values on which [py_int] is [int]: what is no string,
    and ASCII text of at most 640 characters, which no setting of the
    interpreter's limit on the digits of an integer string refuses. *)
Fixpoint is_ascii (s : string) : bool :=
  match s with
  | EmptyString => true
  | String c rest => (nat_of_ascii c <? 128)%nat && is_ascii rest
  end.

Definition in_scope (v : json) : bool :=
  match v with
  | JStr s => is_ascii s && (String.length s <=? 640)%nat
  | _ => true
  end.

(** The entries of the store whose value parses, in file order. *)
Definition parsed (raw : dict json) : dict Z :=
  flat_map (fun item => match py_int (snd item) with
                        | Some n => [(fst item, n)]
                        | None => []
                        end) raw.

(** The candidate list: every entry of the index with its distance to
    the query, in the order of the index. *)
Definition distances (ph : Z) (embeddings : dict Z) : list (string * Z) :=
  map (fun item => (fst item, hamming_distance_int ph (snd item))) embeddings.

(** [art_id] is the first entry of the index, in iteration order, that
    lies at the least distance [m] from the query. *)
Definition first_nearest (ph : Z) (embeddings : dict Z) (art_id : string) (m : Z) : Prop :=
  exists before emb after,
    embeddings = (before ++ (art_id, emb) :: after)%list /\
    hamming_distance_int ph emb = m /\
    (forall x, In x before -> m < hamming_distance_int ph (snd x)) /\
    (forall x, In x after -> m <= hamming_distance_int ph (snd x)).

(** [m] is the minimum Hamming distance between the query and the
    entries of the index. *)
Definition minimum_distance (ph : Z) (embeddings : dict Z) (m : Z) : Prop :=
  (exists art_id emb, In (art_id, emb) embeddings /\ hamming_distance_int ph emb = m) /\
  (forall art_id emb, In (art_id, emb) embeddings -> m <= hamming_distance_int ph emb).

(** The candidates are in ascending order of distance. *)
Fixpoint ascending (l : list (string * Z)) : Prop :=
  match l with
  | [] => True
  | x :: rest => (forall y, In y rest -> snd x <= snd y) /\ ascending rest
  end.

(** [sorted] lists the [candidates] nearest first: all of them and no
    others, in ascending order of distance, those at one distance in the
    order they have among the candidates. *)
Definition nearest_first (sorted candidates : list (string * Z)) : Prop :=
  Permutation sorted candidates /\
  ascending sorted /\
  forall d, filter (fun x => snd x =? d) sorted = filter (fun x => snd x =? d) candidates.

(** ** The other routes

    Their replies are the JSON body given to [jsonify] and the status. *)

Definition http_reply : Type := (json * Z)%type.

(** [key in d] *)
Definition dict_has {V : Type} (d : dict V) (k : string) : bool :=
  match dict_get d k with
  | Some _ => true
  | None => false
  end.

(** [del d[k]] *)
Fixpoint dict_del {V : Type} (d : dict V) (k : string) : dict V :=
  match d with
  | [] => []
  | (k', v) :: rest => if String.eqb k' k then rest else (k', v) :: dict_del rest k
  end.

(** [d.get(k, default)] *)
Definition dict_get_default {V : Type} (d : dict V) (k : string) (default : V) : V :=
  match dict_get d k with
  | Some v => v
  | None => default
  end.

(** [d.setdefault(k, v)] *)
Definition setdefault {V : Type} (d : dict V) (k : string) (v : V) : dict V :=
  if dict_has d k then d else dict_set d k v.

(** [request.get_json(silent=True) or {}]; [body] is [None] when the
    request carries no JSON that parses. *)
Definition body_or_empty (body : option json) : json :=
  match body with
  | Some j => if truthy j then j else JObj []
  | None => JObj []
  end.

(** *** Analytics *)

(** The log file: absent, not JSON, or a JSON value. *)
Inductive log_file : Type :=
| Log_missing
| Log_unreadable
| Log_json (content : json).

Definition ensure_analytics_log (log : log_file) : log_file :=
  match log with
  | Log_missing => Log_json (JArr [])
  | _ => log
  end.

(** [try: arr = json.load(f) except Exception: arr = []] *)
Definition read_log (log : log_file) : json :=
  match log with
  | Log_json content => content
  | _ => JArr []
  end.

(** The two defaults an event gets: [fresh_id] is [str(uuid.uuid4())],
    [now] is [datetime.utcnow().isoformat() + 'Z']. *)
Definition stamp (event : json) (fresh_id now : string) : exc json :=
  match event with
  | JObj fields =>
      let fields := setdefault fields "id" (JStr fresh_id) in
      let fields := if negb (dict_has fields "timestamp")
                    then dict_set fields "timestamp" (JStr now)
                    else fields in
      Return (JObj fields)
  | _ => Raise "AttributeError"
  end.

(** [arr.extend(events)]; [append] is [extend] by one. *)
Definition log_extend (log : log_file) (events : list json) (reply : http_reply)
  : log_file * exc http_reply :=
  match read_log log with
  | JArr arr => (Log_json (JArr (arr ++ events)), Return reply)
  | _ => (log, Raise "AttributeError")
  end.

(** The log afterwards, and the reply or what was raised. *)
Definition analytics_single (body : option json) (fresh_id now : string) (log : log_file)
  : log_file * exc http_reply :=
  let log := ensure_analytics_log log in
  match stamp (body_or_empty body) fresh_id now with
  | Return event => log_extend log [event] (JObj [("status", JStr "ok")], 200)
  | Raise e => (log, Raise e)
  end.

(** The loop over the events; the [i]-th event gets [ids i] and, when it
    has no timestamp, [times i]. *)
Fixpoint stamp_all (events : list json) (ids times : nat -> string) (i : nat)
  : exc (list json) :=
  match events with
  | [] => Return []
  | e :: rest =>
      e' <- stamp e (ids i) (times i) ;;
      rest' <- stamp_all rest ids times (S i) ;;
      Return (e' :: rest')
  end.

(** [payload.get('events') or []], as the list the loop runs over. *)
Definition batch_events (payload : json) : exc (list json) :=
  events <- meta_get payload "events" ;;
  if truthy events then
    match events with
    | JArr l => Return l
    | JStr _ => Raise "AttributeError"
    | JObj _ => Raise "AttributeError"
    | _ => Raise "TypeError"
    end
  else Return [].

Definition analytics_batch (body : option json) (ids times : nat -> string) (log : log_file)
  : log_file * exc http_reply :=
  let log := ensure_analytics_log log in
  match (events <- batch_events (body_or_empty body) ;; stamp_all events ids times 0) with
  | Return events =>
      log_extend log events
        (JObj [("status", JStr "ok"); ("received", JInt (Z.of_nat (List.length events)))], 200)
  | Raise e => (log, Raise e)
  end.

(** The entries of a log that reads as a list; none otherwise. *)
Definition log_entries (log : log_file) : list json :=
  match read_log log with
  | JArr arr => arr
  | _ => []
  end.

(** The log can be appended to: it is absent, unreadable, or a list. *)
Definition log_usable (log : log_file) : bool :=
  match read_log log with
  | JArr _ => true
  | _ => false
  end.


(** The log after posting the events one request at a time, the [i]-th
    with [ids i] and [times i]. *)
Fixpoint analytics_each (events : list json) (ids times : nat -> string) (i : nat)
  (log : log_file) : log_file :=
  match events with
  | [] => log
  | e :: rest =>
      analytics_each rest ids times (S i)
        (fst (analytics_single (Some e) (ids i) (times i) log))
  end.

Definition is_object (j : json) : bool :=
  match j with
  | JObj _ => true
  | _ => false
  end.

(** *** Admin authentication *)

(** [s.replace(pat, '')] for a non-empty [pat]: the occurrences of [pat]
    are dropped from left to right; [skip] characters of a dropped
    occurrence are still to pass. *)
Fixpoint remove_all (pat : string) (skip : nat) (s : string) : string :=
  match s with
  | EmptyString => EmptyString
  | String c rest =>
      match skip with
      | S skip' => remove_all pat skip' rest
      | O =>
          if String.prefix pat s
          then remove_all pat (String.length pat - 1) rest
          else String c (remove_all pat 0 rest)
      end
  end.

(** [request.headers.get('Authorization', '').replace('Bearer ', '')] *)
Definition bearer_token (authorization : option string) : string :=
  remove_all "Bearer " 0 (match authorization with Some h => h | None => "" end).

(** The test of [require_admin], [not (not token or token not in
    ADMIN_TOKENS)]; [ADMIN_TOKENS] maps a token to the time of its login. *)
Definition authorized (ADMIN_TOKENS : dict string) (authorization : option string) : bool :=
  let token := bearer_token authorization in
  negb (String.eqb token "" || negb (dict_has ADMIN_TOKENS token)).

(** [require_admin(f)] on a handler that takes a state to a state and a
    reply. *)
Definition require_admin {S : Type} (ADMIN_TOKENS : dict string)
  (authorization : option string) (f : S -> S * exc http_reply) (st : S)
  : S * exc http_reply :=
  if authorized ADMIN_TOKENS authorization then f st
  else (st, Return (JObj [("error", JStr "Unauthorized")], 401)).

(** [admin_login]; [token] is [secrets.token_urlsafe(32)], [now] the
    time. *)
Definition admin_login (ADMIN_PASSWORD : string) (body : option json) (token now : string)
  (ADMIN_TOKENS : dict string) : dict string * exc http_reply :=
  match body_or_empty body with
  | JObj data =>
      match dict_get_default data "password" (JStr "") with
      | JStr password =>
          if String.eqb password ADMIN_PASSWORD
          then (dict_set ADMIN_TOKENS token now,
                Return (JObj [("token", JStr token); ("status", JStr "ok")], 200))
          else (ADMIN_TOKENS, Return (JObj [("error", JStr "Invalid password")], 401))
      | _ => (ADMIN_TOKENS, Return (JObj [("error", JStr "Invalid password")], 401))
      end
  | _ => (ADMIN_TOKENS, Raise "AttributeError")
  end.

(** *** The catalog and its admin routes *)

(** [ARTWORKS] in memory and the content of [artworks.json]. *)
Record catalog : Type := {
  artworks : dict json;
  artworks_json : option (dict json)
}.

(** [ARTWORKS[art_id] = artwork; safe_write_json(ARTWORKS_JSON, ARTWORKS)] *)
Definition store_artwork (st : catalog) (art_id : string) (artwork : json) : catalog :=
  let updated := dict_set (artworks st) art_id artwork in
  {| artworks := updated; artworks_json := Some updated |}.

(** [/artwork/<art_id>] *)
Definition artwork_meta (art_id : string) (ARTWORKS : dict json) : http_reply :=
  match dict_get ARTWORKS art_id with
  | Some meta =>
      if negb (truthy meta) then (JObj [("error", JStr "not found")], 404)
      else (meta, 200)
  | None => (JObj [("error", JStr "not found")], 404)
  end.

Definition admin_list_artworks (st : catalog) : catalog * exc http_reply :=
  (st, Return (JObj [("artworks", JObj (artworks st))], 200)).

Definition admin_get_artwork (art_id : string) (st : catalog) : catalog * exc http_reply :=
  match dict_get (artworks st) art_id with
  | Some artwork =>
      if negb (truthy artwork) then (st, Return (JObj [("error", JStr "Not found")], 404))
      else (st, Return (JObj [("artwork", artwork)], 200))
  | None => (st, Return (JObj [("error", JStr "Not found")], 404))
  end.

(** The artwork that [admin_create_artwork] builds from the request. *)
Definition new_artwork (art_id : json) (data : dict json) : json :=
  JObj [("id", art_id);
        ("title", dict_get_default data "title" (JStr ""));
        ("artist", dict_get_default data "artist" (JStr ""));
        ("year", dict_get_default data "year" (JStr ""));
        ("type", dict_get_default data "type" JNull);
        ("medium", dict_get_default data "medium" JNull);
        ("dimensions", dict_get_default data "dimensions" JNull);
        ("image", dict_get_default data "image" (JStr ""));
        ("audio_url", dict_get_default data "audio_url" JNull);
        ("video_url", dict_get_default data "video_url" JNull);
        ("description_short", dict_get_default data "description_short" JNull);
        ("description_long", dict_get_default data "description_long" JNull);
        ("related", dict_get_default data "related" (JArr []));
        ("tour_group", dict_get_default data "tour_group" JNull)].

(** [admin_create_artwork].  The result is [None] where this model of
    the catalog, whose keys are strings, does not reach: an id that is a
    number or [true] would become a key that is no string. *)
Definition admin_create_artwork (body : option json) (st : catalog)
  : option (catalog * exc http_reply) :=
  match body_or_empty body with
  | JObj data =>
      let art_id := dict_get_default data "id" JNull in
      if negb (truthy art_id)
      then Some (st, Return (JObj [("error", JStr "Artwork ID required")], 400))
      else
        match art_id with
        | JStr id =>
            if dict_has (artworks st) id
            then Some (st, Return (JObj [("error", JStr "Artwork ID already exists")], 400))
            else
              let artwork := new_artwork art_id data in
              Some (store_artwork st id artwork,
                    Return (JObj [("status", JStr "ok"); ("artwork", artwork)], 200))
        | JArr _ => Some (st, Raise "TypeError")
        | JObj _ => Some (st, Raise "TypeError")
        | _ => None
        end
  | _ => Some (st, Raise "AttributeError")
  end.

(** The keys that [admin_update_artwork] copies from the request. *)
Definition updatable : list string :=
  ["title"; "artist"; "year"; "type"; "medium"; "dimensions"; "image"; "audio_url";
   "video_url"; "description_short"; "description_long"; "related"; "tour_group"].

(** [sub in s] on strings *)
Fixpoint is_substring (sub s : string) : bool :=
  if String.prefix sub s then true
  else match s with
       | EmptyString => false
       | String _ rest => is_substring sub rest
       end.

(** [key in data], and [data[key]] where that holds. *)
Definition request_field (data : json) (key : string) : exc (option json) :=
  match data with
  | JObj fields => Return (dict_get fields key)
  | JArr items =>
      if existsb (fun item => match item with
                              | JStr s => String.eqb s key
                              | _ => false
                              end) items
      then Raise "TypeError" else Return None
  | JStr s => if is_substring key s then Raise "TypeError" else Return None
  | _ => Raise "TypeError"
  end.

(** [artwork[key] = value] *)
Definition set_field (artwork : json) (key : string) (value : json) : exc json :=
  match artwork with
  | JObj fields => Return (JObj (dict_set fields key value))
  | _ => Raise "TypeError"
  end.

(** The loop of [admin_update_artwork]. *)
Fixpoint update_fields (artwork data : json) (keys : list string) : exc json :=
  match keys with
  | [] => Return artwork
  | key :: rest =>
      field <- request_field data key ;;
      match field with
      | Some value => artwork' <- set_field artwork key value ;;
                      update_fields artwork' data rest
      | None => update_fields artwork data rest
      end
  end.

Definition admin_update_artwork (art_id : string) (body : option json) (st : catalog)
  : catalog * exc http_reply :=
  match dict_get (artworks st) art_id with
  | None => (st, Return (JObj [("error", JStr "Not found")], 404))
  | Some artwork =>
      match update_fields artwork (body_or_empty body) updatable with
      | Return artwork' =>
          (store_artwork st art_id artwork',
           Return (JObj [("status", JStr "ok"); ("artwork", artwork')], 200))
      | Raise e => (st, Raise e)
      end
  end.

Definition admin_delete_artwork (art_id : string) (st : catalog) : catalog * exc http_reply :=
  if negb (dict_has (artworks st) art_id)
  then (st, Return (JObj [("error", JStr "Not found")], 404))
  else
    let remaining := dict_del (artworks st) art_id in
    ({| artworks := remaining; artworks_json := Some remaining |},
     Return (JObj [("status", JStr "ok")], 200)).

(** [c in s] for a character *)
Fixpoint has_char (c : ascii) (s : string) : bool :=
  match s with
  | EmptyString => false
  | String c' rest => (Ascii.eqb c' c || has_char c rest)%bool
  end.


(** *** Uploads *)

(** What the routes do with uploaded bytes: [Image.open] on a stream,
    [base64.b64decode] on text, [file.save(path)]. *)
Class Uploads (image : Type) : Type := {
  open_bytes : string -> exc image;
  b64decode : string -> exc string;
  file_save : string -> string -> exc unit
}.

(** The parts of a request that [decode_upload_to_image] reads:
    [request.files['file']], when there is one, and
    [request.get_json(silent=True)]. *)
Record upload : Type := {
  upload_file : option string;
  upload_json : option json
}.

Definition dquote : string := String (ascii_of_nat 34) EmptyString.

Definition no_image_message : string :=
  "No image provided. Expect multipart file " ++ dquote ++ "file" ++ dquote
  ++ " or JSON {" ++ dquote ++ "image_base64" ++ dquote ++ ": dataURL}".

(** [s.split(',', 1)[1]], when there is a comma in [s]. *)
Fixpoint after_comma (s : string) : option string :=
  match s with
  | EmptyString => None
  | String c rest => if Ascii.eqb c "," then Some rest else after_comma rest
  end.

Section Decode.

Context {image : Type} {lib : Imaging image} {up : Uploads image}.

(** The [try] block of the JSON branch. *)
Definition decode_json_upload (body : option json) : exc (option image * string) :=
  b64data <- meta_get (body_or_empty body) "image_base64" ;;
  if negb (truthy b64data) then Return (None, no_image_message)
  else
    match b64data with
    | JStr text =>
        let payload := match after_comma text with
                       | Some rest => rest
                       | None => text
                       end in
        binary <- b64decode payload ;;
        img <- open_bytes binary ;;
        img <- convert img "RGB" ;;
        Return (Some img, "")
    | JArr items =>
        if existsb (fun item => match item with
                                | JStr s => String.eqb s ","
                                | _ => false
                                end) items
        then Raise "AttributeError" else Raise "TypeError"
    | JObj fields => if dict_has fields "," then Raise "AttributeError" else Raise "TypeError"
    | _ => Raise "TypeError"
    end.

Definition decode_upload_to_image (req : upload) : option image * string :=
  match upload_file req with
  | Some stream =>
      match (img <- open_bytes stream ;; convert img "RGB") with
      | Return img => (Some img, "")
      | Raise e => (None, "Invalid image upload: " ++ e)
      end
  | None =>
      match decode_json_upload (upload_json req) with
      | Return result => result
      | Raise e => (None, "Invalid base64 image: " ++ e)
      end
  end.

(** The [/analyze] route: [analyze] on what the request decodes to. *)
Definition analyze_route (req : upload) (ARTWORKS : dict json) (store : option (dict json))
  : reply :=
  analyze (decode_upload_to_image req) ARTWORKS store.

End Decode.

(** *** Image upload *)

(** ASCII [str.lower()] *)
Definition lower_ascii (c : ascii) : ascii :=
  let n := nat_of_ascii c in
  if ((65 <=? n) && (n <=? 90))%nat then ascii_of_nat (n + 32) else c.

Fixpoint lower (s : string) : string :=
  match s with
  | EmptyString => EmptyString
  | String c rest => String (lower_ascii c) (lower rest)
  end.

(** [s.endswith(suffix)] *)
Fixpoint ends_with (suffix s : string) : bool :=
  if String.eqb s suffix then true
  else match s with
       | EmptyString => false
       | String _ rest => ends_with suffix rest
       end.

Definition image_extensions : list string := [".jpg"; ".jpeg"; ".png"; ".gif"].

(** [any(filename.lower().endswith(ext) for ext in [...])] *)
Definition has_image_extension (filename : string) : bool :=
  existsb (fun ext => ends_with ext (lower filename)) image_extensions.

Section Upload.

Context {image : Type} {up : Uploads image}.

Variable IMAGES_DIR : string.

(** [admin_upload_image]; [file] is [request.files.get('file')] as its
    file name and its bytes.  The second component is the path written
    to, when the route got that far. *)
Definition admin_upload_image (art_id : string) (file : option (string * string))
  (st : catalog) : catalog * option string * exc http_reply :=
  match file with
  | None => (st, None, Return (JObj [("error", JStr "No file provided")], 400))
  | Some (name, content) =>
      if String.eqb name ""
      then (st, None, Return (JObj [("error", JStr "No file selected")], 400))
      else
        let artwork := match dict_get (artworks st) art_id with
                       | Some a => a
                       | None => JNull
                       end in
        match (if truthy artwork
               then match artwork with
                    | JObj fields =>
                        Return (dict_get_default fields "image" (JStr (art_id ++ ".jpg")))
                    | _ => Raise "AttributeError"
                    end
               else Return (JStr (art_id ++ ".jpg"))) with
        | Raise e => (st, None, Raise e)
        | Return (JStr filename) =>
            let filename := if negb (has_image_extension filename)
                            then filename ++ ".jpg" else filename in
            match path_join IMAGES_DIR (JStr filename) with
            | Raise e => (st, None, Raise e)
            | Return filepath =>
                match file_save filepath content with
                | Raise e => (st, None, Raise e)
                | Return _ =>
                    let reply := (JObj [("status", JStr "ok"); ("filename", JStr filename)],
                                  200) in
                    if truthy artwork then
                      match set_field artwork "image" (JStr filename) with
                      | Return artwork' =>
                          (store_artwork st art_id artwork', Some filepath, Return reply)
                      | Raise e => (st, Some filepath, Raise e)
                      end
                    else (st, Some filepath, Return reply)
                end
            end
        | Return _ => (st, None, Raise "AttributeError")
        end
  end.

End Upload.

(** A stand-in for the handling of uploaded bytes, to run the routes on:
    two byte strings that open as images, the base64 text of one of
    them, and a disk that takes every file. *)
#[local] Instance raster_uploads : Uploads raster := {|
  open_bytes := fun bytes =>
    if String.eqb bytes "top_row" then Return top_row
    else if String.eqb bytes "stripes" then Return stripes
    else Raise "cannot identify image file";
  b64decode := fun text =>
    if String.eqb text "dG9wX3Jvdw==" then Return "top_row"
    else Raise "Incorrect padding";
  file_save := fun path content => Return tt
|}.

Definition museum : catalog :=
  {| artworks := gallery; artworks_json := Some gallery |}.

(** Closed goals about concrete inputs are settled by evaluation, one
    conjunct at a time. *)
Ltac run := vm_compute; reflexivity.
Ltac run_all := repeat (match goal with |- _ /\ _ => split end); run.

(* ================================================================== *)
(** * Part II: properties *)
(* ================================================================== *)

(** ** The definitions at work *)

Example int_of_str_examples :
  int_of_str " 1_000 " = Some 1000 /\ int_of_str "-42" = Some (-42) /\
  int_of_str "4__2" = None /\ int_of_str "0x1f" = None /\ int_of_str "" = None.
Proof. repeat split; reflexivity. Qed.

Example round_half_even_examples :
  round_half_even (1 # 2) = 0 /\ round_half_even (3 # 2) = 2 /\
  round_half_even (6 # 10) = 1 /\ round_half_even (976 # 10) = 98.
Proof. repeat split; reflexivity. Qed.

Example str_of_int_examples :
  str_of_int 1234 = "1234" /\ str_of_int (-5) = "-5" /\ str_of_int 0 = "0".
Proof. repeat split; reflexivity. Qed.

Example format_02x_examples :
  format_02x 5 = "05" /\ format_02x 255 = "ff" /\ format_02x 300 = "12c" /\
  format_02x (-1) = "-1" /\ rgb_to_hex (25, 128, 230) = "#1980e6".
Proof. repeat split; reflexivity. Qed.

Example path_join_examples :
  path_join "images" (JStr "a.png") = Return "images/a.png" /\
  path_join "images/" (JStr "a.png") = Return "images/a.png" /\
  path_join "images" (JStr "/tmp/a.png") = Return "/tmp/a.png" /\
  path_join "images" (JInt 5) = Raise "TypeError".
Proof. repeat split; reflexivity. Qed.

Example hamming_distance_int_examples :
  hamming_distance_int 0 (2 ^ 65 - 1) = 65 /\ hamming_distance_int 5 (-1) = 2 /\
  hamming_distance_int 12 10 = 2.
Proof. repeat split; reflexivity. Qed.

Example top_row_phash :
  compute_phash_from_image (lib := raster_lib []) top_row = Return (255 * 2 ^ 56).
Proof. vm_compute. reflexivity. Qed.

Example stripes_phash :
  compute_phash_from_image (lib := raster_lib []) stripes = Return 0.
Proof. vm_compute. reflexivity. Qed.

Example stripes_texture :
  texture_edge_density (lib := raster_lib []) stripes = Return (1023 # 1024)%Q.
Proof. vm_compute. reflexivity. Qed.

(** ** Rounding *)

Lemma round_half_even_nonneg (q : Q) : (0 <= q)%Q -> 0 <= round_half_even q.
Proof.
  intros Hq.
  assert (Hf : 0 <= Qfloor q).
  { change 0 with (Qfloor 0). apply Qfloor_resp_le. exact Hq. }
  unfold round_half_even. cbv zeta.
  destruct (Qcompare (q - inject_Z (Qfloor q)) (1 # 2));
    [destruct (Z.even (Qfloor q)) | |]; lia.
Qed.

Lemma round_half_even_floor (q : Q) :
  Qfloor q <= round_half_even q <= Qfloor q + 1.
Proof.
  unfold round_half_even. cbv zeta.
  destruct (Qcompare (q - inject_Z (Qfloor q)) (1 # 2));
    [destruct (Z.even (Qfloor q)) | |]; lia.
Qed.

Lemma round_half_even_inject (n : Z) : round_half_even (inject_Z n) = n.
Proof.
  unfold round_half_even. cbv zeta. rewrite Qfloor_Z.
  assert (E : (inject_Z n - inject_Z n == 0)%Q) by ring.
  rewrite E. reflexivity.
Qed.

Lemma round_half_even_mono (p q : Q) :
  (p <= q)%Q -> round_half_even p <= round_half_even q.
Proof.
  intros Hpq.
  pose proof (Qfloor_resp_le _ _ Hpq) as Hf.
  pose proof (round_half_even_floor p) as Hp.
  pose proof (round_half_even_floor q) as Hq.
  destruct (Z.eq_dec (Qfloor p) (Qfloor q)) as [E | NE]; [| lia].
  unfold round_half_even in *. cbv zeta in *. rewrite <- E in *.
  assert (Hfrac : (p - inject_Z (Qfloor p) <= q - inject_Z (Qfloor p))%Q)
    by (unfold Qminus; apply Qplus_le_l; exact Hpq).
  destruct (Qcompare_spec (p - inject_Z (Qfloor p)) (1 # 2)) as [Ep | Lp | Gp];
    destruct (Qcompare_spec (q - inject_Z (Qfloor p)) (1 # 2)) as [Eq | Lq | Gq];
    try lia; try (destruct (Z.even (Qfloor p)); lia).
  - exfalso. rewrite Ep in Hfrac. apply (Qlt_irrefl (1 # 2)).
    eapply Qle_lt_trans; eassumption.
  - exfalso. rewrite Eq in Hfrac. apply (Qlt_irrefl (1 # 2)).
    eapply Qlt_le_trans; eassumption.
  - exfalso. apply (Qlt_irrefl (1 # 2)).
    eapply Qlt_trans; [exact Gp |]. eapply Qle_lt_trans; eassumption.
Qed.

Lemma py_round_bounds (q : Q) (lo hi : Z) (ndigits : positive) :
  (inject_Z lo <= q * inject_Z (10 ^ Zpos ndigits))%Q ->
  (q * inject_Z (10 ^ Zpos ndigits) <= inject_Z hi)%Q ->
  (lo # Z.to_pos (10 ^ Zpos ndigits) <= py_round q ndigits)%Q /\
  (py_round q ndigits <= hi # Z.to_pos (10 ^ Zpos ndigits))%Q.
Proof.
  intros Hlo Hhi. unfold py_round. cbv zeta.
  apply round_half_even_mono in Hlo, Hhi.
  rewrite round_half_even_inject in Hlo, Hhi.
  unfold Qle. cbn [Qnum Qden]. split; nia.
Qed.

Lemma round_half_even_le (q : Q) (n : Z) :
  (q <= inject_Z n)%Q -> round_half_even q <= n.
Proof.
  intros H. apply round_half_even_mono in H.
  rewrite round_half_even_inject in H. exact H.
Qed.

Lemma int_of_Q_le (q : Q) (n : Z) : 0 <= n -> (q <= inject_Z n)%Q -> int_of_Q q <= n.
Proof.
  intros Hn Hq. unfold int_of_Q.
  destruct (Z_lt_le_dec (Qnum q) 0) as [Hneg | Hpos].
  - assert (Z.quot (Qnum q) (Zpos (Qden q)) <= Z.quot 0 (Zpos (Qden q)))
      by (apply Z.quot_le_mono; lia).
    rewrite Z.quot_0_l in H by lia. lia.
  - rewrite Z.quot_div_nonneg by lia.
    apply Qfloor_resp_le in Hq. rewrite Qfloor_Z in Hq.
    destruct q as [a b]. exact Hq.
Qed.

Lemma int_of_Q_lt (q : Q) (n : Z) :
  0 <= n -> (q < inject_Z (n + 1))%Q -> int_of_Q q <= n.
Proof.
  intros Hn Hq. unfold int_of_Q.
  destruct (Z_lt_le_dec (Qnum q) 0) as [Hneg | Hpos].
  - assert (Z.quot (Qnum q) (Zpos (Qden q)) <= Z.quot 0 (Zpos (Qden q)))
      by (apply Z.quot_le_mono; lia).
    rewrite Z.quot_0_l in H by lia. lia.
  - rewrite Z.quot_div_nonneg by lia.
    destruct q as [a b]. cbn [Qnum Qden] in *.
    change (a / Zpos b) with (Qfloor (a # b)).
    pose proof (Qfloor_le (a # b)) as Hf.
    assert (inject_Z (Qfloor (a # b)) < inject_Z (n + 1))%Q by lra.
    rewrite <- Zlt_Qlt in H. lia.
Qed.

(** *** Rounding to binary64 *)

Lemma pow2_pos (e : Z) : (0 < 2 ^ e)%Q.
Proof. apply Qpower_0_lt. reflexivity. Qed.

Lemma pow2_plus (a b : Z) : (2 ^ (a + b) == 2 ^ a * 2 ^ b)%Q.
Proof. apply Qpower_plus. discriminate. Qed.

Lemma pow2_le (a b : Z) : a <= b -> (2 ^ a <= 2 ^ b)%Q.
Proof. intros H. apply Qpower_le_compat_l; [exact H | discriminate]. Qed.

Lemma pow2_inject (n : Z) : 0 <= n -> (inject_Z (2 ^ n) == 2 ^ n)%Q.
Proof. intros H. rewrite Zpower_Qpower by exact H. reflexivity. Qed.

Lemma floor_log2_spec (q : Q) :
  (0 < q)%Q -> (2 ^ floor_log2 q <= q)%Q /\ (q < 2 ^ (floor_log2 q + 1))%Q.
Proof.
  intros Hq. destruct q as [n d].
  assert (Hn : 0 < n) by (unfold Qlt in Hq; cbn in Hq; lia).
  pose proof (Z.log2_spec n Hn) as [Hn1 Hn2].
  pose proof (Z.log2_spec (Zpos d) (Pos2Z.is_pos d)) as [Hd1 Hd2].
  pose proof (Z.log2_nonneg n) as Ln. pose proof (Z.log2_nonneg (Zpos d)) as Ld.
  set (ln := Z.log2 n) in *. set (ld := Z.log2 (Zpos d)) in *.
  assert (Hdpos : (0 < inject_Z (Zpos d))%Q) by reflexivity.
  assert (E : (n # d == inject_Z n / inject_Z (Zpos d))%Q) by apply Qmake_Qdiv.
  assert (Qn1 : (2 ^ ln <= inject_Z n)%Q)
    by (rewrite <- pow2_inject by lia; rewrite <- Zle_Qle; exact Hn1).
  assert (Qn2 : (inject_Z n < 2 ^ (ln + 1))%Q)
    by (rewrite <- pow2_inject by lia; rewrite <- Zlt_Qlt; lia).
  assert (Qd1 : (2 ^ ld <= inject_Z (Zpos d))%Q)
    by (rewrite <- pow2_inject by lia; rewrite <- Zle_Qle; exact Hd1).
  assert (Qd2 : (inject_Z (Zpos d) < 2 ^ (ld + 1))%Q)
    by (rewrite <- pow2_inject by lia; rewrite <- Zlt_Qlt; lia).
  unfold floor_log2. cbn [Qnum Qden]. fold ln ld.
  destruct (Qle_bool (2 ^ (ln - ld)) (n # d)) eqn:B.
  - split; [apply Qle_bool_iff; exact B |].
    rewrite E. apply Qlt_shift_div_r; [exact Hdpos |].
    pose proof (pow2_plus (ln - ld + 1) ld) as P.
    replace (ln - ld + 1 + ld) with (ln + 1) in P by lia.
    pose proof (pow2_pos (ln - ld + 1)) as Pp.
    apply Qlt_le_trans with (2 ^ (ln + 1))%Q; [exact Qn2 |].
    rewrite P. apply Qmult_le_l; [exact Pp | exact Qd1].
  - assert (Hlt : (n # d < 2 ^ (ln - ld))%Q).
    { apply Qnot_le_lt. intros H. apply Qle_bool_iff in H. congruence. }
    split.
    + rewrite E. apply Qle_shift_div_l; [exact Hdpos |].
      pose proof (pow2_plus (ln - ld - 1) (ld + 1)) as P.
      replace (ln - ld - 1 + (ld + 1)) with ln in P by lia.
      pose proof (pow2_pos (ln - ld - 1)) as Pp.
      apply Qle_trans with (2 ^ ln)%Q; [| exact Qn1].
      rewrite P. apply Qmult_le_l; [exact Pp |]. apply Qlt_le_weak. exact Qd2.
    + replace (ln - ld - 1 + 1) with (ln - ld) by lia. exact Hlt.
Qed.

Lemma floor_log2_mono (p q : Q) :
  (0 < p)%Q -> (p <= q)%Q -> floor_log2 p <= floor_log2 q.
Proof.
  intros Hp Hpq.
  destruct (floor_log2_spec p Hp) as [P1 _].
  destruct (floor_log2_spec q (Qlt_le_trans _ _ _ Hp Hpq)) as [_ Q2].
  destruct (Z_lt_le_dec (floor_log2 q) (floor_log2 p)) as [H |]; [| assumption].
  exfalso.
  assert (L : (2 ^ (floor_log2 q + 1) <= 2 ^ floor_log2 p)%Q) by (apply pow2_le; lia).
  lra.
Qed.

Lemma round_half_even_near (y : Q) : (inject_Z (round_half_even y) <= y + (1 # 2))%Q.
Proof.
  pose proof (Qfloor_le y) as Hf.
  unfold round_half_even. cbv zeta.
  destruct (Qcompare (y - inject_Z (Qfloor y)) (1 # 2)) eqn:C.
  - apply Qeq_alt in C.
    destruct (Z.even (Qfloor y)); [lra |].
    rewrite inject_Z_plus. change (inject_Z 1) with 1%Q. lra.
  - lra.
  - apply Qgt_alt in C. rewrite inject_Z_plus. change (inject_Z 1) with 1%Q. lra.
Qed.

Lemma fl_value (q : Q) :
  (fl q == inject_Z (round_half_even (q / 2 ^ exponent q)) * 2 ^ exponent q)%Q.
Proof. unfold fl. cbv zeta. apply Qred_correct. Qed.

Lemma fl_nonneg (q : Q) : (0 <= q)%Q -> (0 <= fl q)%Q.
Proof.
  intros Hq. rewrite fl_value.
  pose proof (pow2_pos (exponent q)) as Pp.
  apply Qmult_le_0_compat; [| lra].
  change 0%Q with (inject_Z 0). rewrite <- Zle_Qle.
  apply round_half_even_nonneg.
  apply Qle_shift_div_l; [exact Pp | lra].
Qed.

Lemma fl_nonpos (q : Q) : (q <= 0)%Q -> (fl q <= 0)%Q.
Proof.
  intros Hq. rewrite fl_value.
  pose proof (pow2_pos (exponent q)) as Pp.
  assert (H : round_half_even (q / 2 ^ exponent q) <= 0).
  { apply round_half_even_le. apply Qle_shift_div_r; [exact Pp |].
    change (inject_Z 0) with 0%Q. lra. }
  rewrite Zle_Qle in H. change (inject_Z 0) with 0%Q in H.
  assert (G : (0 <= - inject_Z (round_half_even (q / 2 ^ exponent q)) * 2 ^ exponent q)%Q).
  { apply Qmult_le_0_compat; lra. }
  lra.
Qed.

Lemma exponent_spec (q : Q) :
  (0 < q)%Q ->
  (q < 2 ^ (exponent q + 53))%Q /\
  (-1074 < exponent q -> (2 ^ (exponent q + 52) <= q)%Q).
Proof.
  intros Hq.
  assert (Ha : (Qabs q == q)%Q) by (apply Qabs_pos; lra).
  assert (Hpos : (0 < Qabs q)%Q) by (rewrite Ha; exact Hq).
  destruct (floor_log2_spec (Qabs q) Hpos) as [L U].
  unfold exponent. split.
  - assert (2 ^ (floor_log2 (Qabs q) + 1)
            <= 2 ^ (Z.max (floor_log2 (Qabs q) - 52) (-1074) + 53))%Q
      by (apply pow2_le; lia).
    lra.
  - intros H. replace (Z.max (floor_log2 (Qabs q) - 52) (-1074) + 52)
      with (floor_log2 (Qabs q)) by lia. lra.
Qed.

Lemma exponent_mono (p q : Q) :
  (0 < p)%Q -> (p <= q)%Q -> exponent p <= exponent q.
Proof.
  intros Hp Hpq.
  assert (Ha : (Qabs p == p)%Q) by (apply Qabs_pos; lra).
  assert (Hb : (Qabs q == q)%Q) by (apply Qabs_pos; lra).
  assert (H : floor_log2 (Qabs p) <= floor_log2 (Qabs q)).
  { apply floor_log2_mono; lra. }
  unfold exponent. lia.
Qed.

Lemma fl_mono (p q : Q) : (0 <= p)%Q -> (p <= q)%Q -> (fl p <= fl q)%Q.
Proof.
  intros Hp Hpq.
  destruct (Qlt_le_dec 0 p) as [Hpos | Hzero];
    [| apply Qle_trans with 0%Q; [apply fl_nonpos; exact Hzero | apply fl_nonneg; lra]].
  pose proof (exponent_mono p q Hpos Hpq) as He.
  destruct (exponent_spec p Hpos) as [Up _].
  destruct (exponent_spec q (Qlt_le_trans _ _ _ Hpos Hpq)) as [_ Lq].
  rewrite (fl_value p), (fl_value q).
  pose proof (pow2_pos (exponent p)) as Pp. pose proof (pow2_pos (exponent q)) as Pq.
  destruct (Z.eq_dec (exponent p) (exponent q)) as [E | Hne].
  - rewrite E in *. apply Qmult_le_compat_r; [| lra].
    rewrite <- Zle_Qle. apply round_half_even_mono.
    apply Qmult_le_compat_r; [exact Hpq |]. apply Qinv_le_0_compat. lra.
  - assert (Hlt : exponent p < exponent q) by lia.
    specialize (Lq ltac:(unfold exponent in *; lia)).
    assert (Rp : (inject_Z (round_half_even (p / 2 ^ exponent p)) <= 2 ^ 53)%Q).
    { rewrite <- (pow2_inject 53) by lia. rewrite <- Zle_Qle.
      apply round_half_even_le. rewrite pow2_inject by lia.
      apply Qle_shift_div_r; [exact Pp |].
      rewrite <- pow2_plus. replace (53 + exponent p) with (exponent p + 53) by lia.
      lra. }
    assert (Rq : (2 ^ 52 <= inject_Z (round_half_even (q / 2 ^ exponent q)))%Q).
    { rewrite <- (pow2_inject 52) by lia. rewrite <- Zle_Qle.
      rewrite <- (round_half_even_inject (2 ^ 52)) at 1.
      apply round_half_even_mono. rewrite pow2_inject by lia.
      apply Qle_shift_div_l; [exact Pq |].
      rewrite <- pow2_plus. replace (52 + exponent q) with (exponent q + 52) by lia.
      exact Lq. }
    apply Qle_trans with (2 ^ 53 * 2 ^ exponent p)%Q;
      [apply Qmult_le_compat_r; [exact Rp | lra] |].
    apply Qle_trans with (2 ^ 52 * 2 ^ exponent q)%Q;
      [| apply Qmult_le_compat_r; [exact Rq | lra]].
    rewrite <- !pow2_plus. apply pow2_le. lia.
Qed.

(** The relative error of a rounding is at most 2^-53, but for the
    smallest numbers, where the absolute error is at most 2^-1075. *)
Lemma fl_upper (q : Q) :
  (0 <= q)%Q -> (fl q <= q * (1 + 2 ^ (-53)) + 2 ^ (-1075))%Q.
Proof.
  intros Hq.
  pose proof (pow2_pos (-53)) as P53. pose proof (pow2_pos (-1075)) as P1075.
  destruct (Qlt_le_dec 0 q) as [Hpos | Hzero].
  2:{ apply Qle_trans with 0%Q; [apply fl_nonpos; exact Hzero |].
      assert (0 <= q * (1 + 2 ^ (-53)))%Q by (apply Qmult_le_0_compat; lra). lra. }
  destruct (exponent_spec q Hpos) as [_ L].
  rewrite fl_value.
  pose proof (pow2_pos (exponent q)) as Pe.
  pose proof (round_half_even_near (q / 2 ^ exponent q)) as N.
  assert (S1 : (inject_Z (round_half_even (q / 2 ^ exponent q)) * 2 ^ exponent q
                <= q + (1 # 2) * 2 ^ exponent q)%Q).
  { apply Qle_trans with ((q / 2 ^ exponent q + (1 # 2)) * 2 ^ exponent q)%Q;
      [apply Qmult_le_compat_r; [exact N | lra] |].
    rewrite Qmult_plus_distr_l. unfold Qdiv.
    rewrite <- Qmult_assoc, (Qmult_comm (/ _)), Qmult_inv_r by lra. lra. }
  assert (Hhalf : ((1 # 2) == 2 ^ (-1))%Q) by reflexivity.
  assert (S2 : ((1 # 2) * 2 ^ exponent q <= q * 2 ^ (-53) + 2 ^ (-1075))%Q).
  { destruct (Z.eq_dec (exponent q) (-1074)) as [E | Hne].
    - rewrite E. assert (0 <= q * 2 ^ (-53))%Q by (apply Qmult_le_0_compat; lra).
      assert (((1 # 2) * 2 ^ (-1074) == 2 ^ (-1075))%Q) by reflexivity. lra.
    - specialize (L ltac:(unfold exponent in *; lia)).
      assert (((1 # 2) * 2 ^ exponent q == 2 ^ (exponent q + 52) * 2 ^ (-53))%Q).
      { rewrite Hhalf, <- !pow2_plus.
        replace (exponent q + 52 + -53) with (-1 + exponent q) by lia. reflexivity. }
      assert (2 ^ (exponent q + 52) * 2 ^ (-53) <= q * 2 ^ (-53))%Q
        by (apply Qmult_le_compat_r; lra).
      lra. }
  lra.
Qed.

Lemma fl_1 : (fl 1 == 1)%Q.
Proof. reflexivity. Qed.

Lemma fl_100 : (fl 100 == 100)%Q.
Proof. reflexivity. Qed.

(** ** The palette *)

Lemma count_label_nonneg (counts : list Z) (l : nat) :
  Forall (fun c => 0 <= c) counts -> Forall (fun c => 0 <= c) (count_label counts l).
Proof.
  revert l. induction counts as [| c counts IH]; intros l Hall.
  - induction l as [| l IHl]; cbn; repeat constructor; try lia.
    exact IHl.
  - inversion Hall; subst. destruct l as [| l]; cbn; constructor; try lia; auto.
Qed.

Lemma bincount_nonneg (labels : list nat) (k : nat) :
  Forall (fun c => 0 <= c) (bincount labels k).
Proof.
  unfold bincount.
  assert (H0 : Forall (fun c => 0 <= c) (repeat 0 k)).
  { induction k; cbn; constructor; [lia | assumption]. }
  revert H0. generalize (repeat 0 k) as counts.
  induction labels as [| l labels IH]; intros counts H0; cbn; [exact H0 |].
  apply IH, count_label_nonneg, H0.
Qed.

Lemma fl_positive_int (n : Z) : 0 < n -> (1 <= fl (inject_Z n))%Q.
Proof.
  intros Hn. rewrite <- fl_1. apply fl_mono; [discriminate |].
  change 1%Q with (inject_Z 1). rewrite <- Zle_Qle. lia.
Qed.

(** The share of a cluster, as the float the division gives. *)
Lemma share_range (count total : Z) :
  0 <= count -> 0 < total ->
  (0 <= fl (fl (inject_Z count) / fl (inject_Z total)))%Q /\
  (count <= total -> (fl (fl (inject_Z count) / fl (inject_Z total)) <= 1)%Q).
Proof.
  intros Hc Ht.
  pose proof (fl_positive_int total Ht) as Htot.
  assert (Hcount : (0 <= fl (inject_Z count))%Q).
  { apply fl_nonneg. change 0%Q with (inject_Z 0). rewrite <- Zle_Qle. exact Hc. }
  assert (Hq : (0 <= fl (inject_Z count) / fl (inject_Z total))%Q).
  { apply Qle_shift_div_l; lra. }
  split; [apply fl_nonneg; exact Hq |].
  intros Hle. rewrite <- fl_1. apply fl_mono; [exact Hq |].
  apply Qle_shift_div_r; [lra |].
  assert (fl (inject_Z count) <= fl (inject_Z total))%Q.
  { apply fl_mono.
    - change 0%Q with (inject_Z 0). rewrite <- Zle_Qle. exact Hc.
    - rewrite <- Zle_Qle. exact Hle. }
  lra.
Qed.

Lemma percent_of_nonneg (count total : Z) :
  0 <= count -> 0 < total -> 0 <= percent_of count total.
Proof.
  intros Hc Ht. unfold percent_of. cbv zeta.
  destruct (share_range count total Hc Ht) as [Hshare _].
  apply round_half_even_nonneg, fl_nonneg. lra.
Qed.

Lemma nth_nonneg (counts : list Z) (i : nat) :
  Forall (fun c => 0 <= c) counts -> 0 <= nth i counts 0.
Proof.
  intros Hall. revert i.
  induction Hall as [| c counts Hc _ IH]; intros [| i]; cbn; auto; lia.
Qed.

Lemma swatches_spec (centers : list rgb) (counts : list Z) (total : Z)
  (range : list nat) (pal : list swatch) :
  Forall (fun c => 0 <= c) counts -> 0 < total ->
  swatches centers counts total range = Return pal ->
  List.length pal = List.length range /\ Forall (fun s => 0 <= percent s) pal.
Proof.
  intros Hc Ht. revert pal.
  induction range as [| i range IH]; intros pal H; cbn in H.
  - injection H as <-. split; [reflexivity | constructor].
  - destruct (nth_error centers i) as [color |]; [| discriminate].
    destruct (swatches centers counts total range) as [rest | e]; [| discriminate].
    cbn in H. injection H as <-.
    destruct (IH rest eq_refl) as [Hlen Hall].
    split; [cbn; rewrite Hlen; reflexivity |].
    constructor; [| exact Hall].
    cbn. apply percent_of_nonneg; [apply nth_nonneg, Hc | exact Ht].
Qed.

Lemma swatches_returns (centers : list rgb) (counts : list Z) (total : Z)
  (range : list nat) :
  (forall i, In i range -> (i < List.length centers)%nat) ->
  exists pal, swatches centers counts total range = Return pal.
Proof.
  induction range as [| i range IH]; intros Hrange; cbn.
  - exists []. reflexivity.
  - destruct (nth_error centers i) as [color |] eqn:Hc.
    + destruct IH as [rest Hrest]; [intros j Hj; apply Hrange; right; exact Hj |].
      rewrite Hrest. cbn. eexists. reflexivity.
    + apply nth_error_None in Hc.
      specialize (Hrange i (or_introl eq_refl)). lia.
Qed.

(** With a center for each of the [k] clusters the palette is produced. *)
Lemma palette_of_clusters_returns (k : nat) (labels : list nat) (centers : list rgb) :
  (k <= List.length centers)%nat ->
  exists pal, palette_of_clusters k labels centers = Return pal.
Proof.
  intros Hk. unfold palette_of_clusters.
  set (counts := bincount labels k).
  set (total := if sum_Z counts >? 0 then sum_Z counts else 1).
  destruct (swatches_returns centers counts total (seq 0 k)) as [raw Hraw].
  - intros i Hi. apply in_seq in Hi. lia.
  - rewrite Hraw. cbn. eexists. reflexivity.
Qed.

Lemma sum_percent_nonneg (pal : list swatch) :
  Forall (fun s => 0 <= percent s) pal -> 0 <= sum_percent pal.
Proof.
  unfold sum_percent, sum_Z.
  induction 1 as [| s pal Hs _ IH]; cbn [map fold_right]; lia.
Qed.

(** The normalisation: the tail is left as it is, and the total becomes
    100 unless the tail alone is above it. *)
Lemma normalize_spec (p0 : swatch) (rest : list swatch) :
  Forall (fun s => 0 <= percent s) (p0 :: rest) ->
  tl (normalize (p0 :: rest)) = rest /\
  List.length (normalize (p0 :: rest)) = S (List.length rest) /\
  Forall (fun s => 0 <= percent s) (normalize (p0 :: rest)) /\
  sum_percent (normalize (p0 :: rest)) = Z.max 100 (sum_percent rest).
Proof.
  intros Hall. inversion Hall as [| ? ? H0 Hrest]; subst.
  pose proof (sum_percent_nonneg rest Hrest) as Hsum.
  unfold normalize.
  change (sum_percent (p0 :: rest)) with (percent p0 + sum_percent rest).
  destruct (100 - (percent p0 + sum_percent rest) =? 0) eqn:Hd; cbn [negb].
  - apply Z.eqb_eq in Hd. repeat split; try assumption.
    change (sum_percent (p0 :: rest)) with (percent p0 + sum_percent rest). lia.
  - apply Z.eqb_neq in Hd. repeat split.
    + constructor; [cbn; lia | exact Hrest].
    + change (sum_percent (?s :: rest)) with (percent s + sum_percent rest).
      cbn [percent]. lia.
Qed.

Lemma palette_of_clusters_spec (k : nat) (labels : list nat) (centers : list rgb)
  (pal : list swatch) :
  (1 <= k)%nat ->
  palette_of_clusters k labels centers = Return pal ->
  List.length pal = k /\
  Forall (fun s => 0 <= percent s) pal /\
  sum_percent pal = Z.max 100 (sum_percent (tl pal)).
Proof.
  intros Hk H. unfold palette_of_clusters in H.
  set (counts := bincount labels k) in *.
  set (total := if sum_Z counts >? 0 then sum_Z counts else 1) in *.
  assert (Ht : 0 < total).
  { unfold total. destruct (sum_Z counts >? 0) eqn:E; [| lia].
    apply Z.gtb_lt in E. exact E. }
  destruct (swatches centers counts total (seq 0 k)) as [raw | e] eqn:Hraw;
    [| discriminate].
  cbn in H. injection H as <-.
  destruct (swatches_spec _ _ _ _ _ (bincount_nonneg labels k) Ht Hraw) as [Hlen Hall].
  rewrite length_seq in Hlen.
  destruct raw as [| p0 rest]; [cbn in Hlen; lia |].
  destruct (normalize_spec p0 rest Hall) as (Htl & Hl & Hnn & Hsum).
  rewrite Htl. split; [rewrite Hl; cbn in Hlen; exact Hlen |].
  split; assumption.
Qed.

(** ** Hamming distance *)

Lemma pos_bit_count_log2 (p : positive) :
  1 <= pos_bit_count p <= Z.log2 (Zpos p) + 1.
Proof.
  induction p as [q IH | q IH |]; cbn [pos_bit_count].
  - assert (E : Z.log2 (Zpos q~1) = Z.log2 (Zpos q) + 1).
    { change (Zpos q~1) with (2 * Zpos q + 1).
      rewrite Z.log2_succ_double by lia. lia. }
    lia.
  - assert (E : Z.log2 (Zpos q~0) = Z.log2 (Zpos q) + 1).
    { change (Zpos q~0) with (2 * Zpos q).
      rewrite Z.log2_double by lia. lia. }
    lia.
  - cbn. lia.
Qed.

Lemma bit_count_nonneg (n : Z) : 0 <= bit_count n.
Proof.
  destruct n as [| p | p]; cbn [bit_count];
    [lia | pose proof (pos_bit_count_log2 p); lia ..].
Qed.

Lemma bit_count_width (n w : Z) :
  0 <= w -> 0 <= n < 2 ^ w -> bit_count n <= w.
Proof.
  intros Hw [Hn Hlt].
  destruct n as [| p | p]; cbn [bit_count]; [lia | | lia].
  pose proof (pos_bit_count_log2 p) as Hp.
  assert (Z.log2 (Zpos p) < w) by (apply Z.log2_lt_pow2; lia).
  lia.
Qed.

Lemma lxor_width (a b w : Z) :
  0 <= w -> 0 <= a < 2 ^ w -> 0 <= b < 2 ^ w -> 0 <= Z.lxor a b < 2 ^ w.
Proof.
  intros Hw [Ha Ha'] [Hb Hb'].
  assert (Hx : 0 <= Z.lxor a b) by (apply Z.lxor_nonneg; tauto).
  split; [exact Hx |].
  destruct (Z.eq_dec w 0) as [-> | Hw0].
  - rewrite Z.pow_0_r in *. assert (a = 0) by lia. assert (b = 0) by lia.
    subst. cbn. lia.
  - destruct (Z.eq_dec (Z.lxor a b) 0) as [-> | Hnz].
    + apply Z.pow_pos_nonneg; lia.
    + apply Z.log2_lt_pow2; [lia |].
      pose proof (Z.log2_lxor a b Ha Hb) as Hl.
      assert (Z.log2 a < w).
      { destruct (Z.eq_dec a 0) as [-> | ?]; [cbn; lia |].
        apply Z.log2_lt_pow2; lia. }
      assert (Z.log2 b < w).
      { destruct (Z.eq_dec b 0) as [-> | ?]; [cbn; lia |].
        apply Z.log2_lt_pow2; lia. }
      lia.
Qed.

Lemma hamming_distance_int_bound (a b : Z) :
  0 <= a < 2 ^ 64 -> 0 <= b < 2 ^ 64 -> 0 <= hamming_distance_int a b <= 64.
Proof.
  intros Ha Hb. unfold hamming_distance_int. split; [apply bit_count_nonneg |].
  apply bit_count_width; [lia |]. apply lxor_width; [lia | assumption ..].
Qed.

(** ** Confidence *)

Lemma confidence_clamp (d : Z) :
  (confidence d == clamp (1 - inject_Z d / 64) 0 1)%Q.
Proof.
  unfold confidence, clamp.
  set (x := (1 - inject_Z d / 64)%Q).
  destruct (Qlt_le_dec x 0) as [Hlt | Hge].
  - rewrite (Q.min_r 1 x).
    + apply Q.max_l. apply Qlt_le_weak. exact Hlt.
    + apply Qle_trans with 0%Q; [apply Qlt_le_weak; exact Hlt | discriminate].
  - destruct (Qlt_le_dec 1 x) as [Hgt | Hle].
    + rewrite (Q.min_l 1 x) by (apply Qlt_le_weak; exact Hgt).
      apply Q.max_r. discriminate.
    + rewrite (Q.min_r 1 x) by exact Hle.
      apply Q.max_r. exact Hge.
Qed.

Lemma confidence_antitone (d1 d2 : Z) :
  d1 <= d2 -> (confidence d2 <= confidence d1)%Q.
Proof.
  intros Hle. unfold confidence.
  apply Q.max_le_compat_l. apply Q.min_le_compat_l.
  unfold Qminus. apply Qplus_le_r. apply Qopp_le_compat.
  unfold Qdiv. apply Qmult_le_compat_r.
  - rewrite <- Zle_Qle. exact Hle.
  - discriminate.
Qed.

(** C4: the confidence is [clamp(1 - distance/64, 0, 1)], does not
    increase with the distance, is 1 at distance 0 and 0 at distance 64. *)
Theorem confidence_spec :
  (forall d, confidence d == clamp (1 - inject_Z d / 64) 0 1)%Q /\
  (forall d1 d2, d1 <= d2 -> (confidence d2 <= confidence d1)%Q) /\
  (confidence 0 == 1)%Q /\
  (confidence 64 == 0)%Q.
Proof.
  split; [exact confidence_clamp |].
  split; [exact confidence_antitone |].
  split; reflexivity.
Qed.

Lemma confidence_spec_witness : (confidence 40 <= confidence 12)%Q.
Proof.
  apply (proj1 (proj2 confidence_spec) 12 40). lia.
Defined.

(** ** The search loop of [analyze] *)

Lemma first_nearest_minimum (ph : Z) (embeddings : dict Z) (art_id : string) (m : Z) :
  first_nearest ph embeddings art_id m -> minimum_distance ph embeddings m.
Proof.
  intros (before & emb & after & -> & Hm & Hb & Ha). split.
  - exists art_id, emb. split; [| exact Hm].
    apply in_or_app. right. left. reflexivity.
  - intros i e Hin. apply in_app_or in Hin.
    destruct Hin as [Hin | [Heq | Hin]].
    + specialize (Hb _ Hin). cbn in Hb. lia.
    + inversion Heq; subst. lia.
    + specialize (Ha _ Hin). cbn in Ha. lia.
Qed.

Lemma minimum_distance_unique (ph : Z) (embeddings : dict Z) (m m' : Z) :
  minimum_distance ph embeddings m -> minimum_distance ph embeddings m' -> m = m'.
Proof.
  intros [(i & e & Hin & He) Hlow] [(i' & e' & Hin' & He') Hlow'].
  specialize (Hlow _ _ Hin'). specialize (Hlow' _ _ Hin). lia.
Qed.

Lemma search_step_snoc (ph : Z) (l : dict Z) (x : string * Z) (st : search) :
  fold_left (search_step ph) (l ++ [x])%list st
  = search_step ph (fold_left (search_step ph) l st) x.
Proof. rewrite fold_left_app. reflexivity. Qed.

Lemma search_all_distances (ph : Z) (embeddings : dict Z) :
  all_distances (fold_left (search_step ph) embeddings search_init)
  = distances ph embeddings.
Proof.
  induction embeddings as [| [art_id emb] l IH] using rev_ind; [reflexivity |].
  rewrite search_step_snoc. unfold distances. rewrite map_app. cbn [map fst snd].
  fold (distances ph l). rewrite <- IH.
  set (st := fold_left (search_step ph) l search_init).
  unfold search_step.
  destruct (best_dist st) as [bd |];
    [destruct (hamming_distance_int ph emb <? bd) |]; reflexivity.
Qed.

Lemma search_empty (ph : Z) :
  fold_left (search_step ph) [] search_init = search_init.
Proof. reflexivity. Qed.

Lemma search_best (ph : Z) (embeddings : dict Z) :
  embeddings <> [] ->
  exists art_id m,
    best_id (fold_left (search_step ph) embeddings search_init) = Some art_id /\
    best_dist (fold_left (search_step ph) embeddings search_init) = Some m /\
    first_nearest ph embeddings art_id m.
Proof.
  induction embeddings as [| [art_id emb] l IH] using rev_ind; [congruence |].
  intros _. rewrite search_step_snoc.
  destruct l as [| y l'].
  - cbn. exists art_id, (hamming_distance_int ph emb).
    split; [reflexivity |]. split; [reflexivity |].
    exists [], emb, []. repeat split; [intros x [] | intros x []].
  - destruct IH as (bid & m & Hid & Hd & Hfirst); [discriminate |].
    set (st := fold_left (search_step ph) (y :: l') search_init) in *.
    unfold search_step. rewrite Hd.
    destruct (hamming_distance_int ph emb <? m) eqn:Hlt; cbn [best_id best_dist].
    + apply Z.ltb_lt in Hlt.
      exists art_id, (hamming_distance_int ph emb).
      split; [reflexivity |]. split; [reflexivity |].
      exists (y :: l'), emb, []. split; [reflexivity |]. split; [reflexivity |].
      split; [| intros x []].
      intros x Hin.
      pose proof (first_nearest_minimum _ _ _ _ Hfirst) as [_ Hlow].
      destruct x as [xi xe]. specialize (Hlow _ _ Hin). cbn. lia.
    + apply Z.ltb_ge in Hlt.
      exists bid, m. split; [exact Hid |]. split; [reflexivity |].
      destruct Hfirst as (before & e & after & Heq & Hm & Hb & Ha).
      exists before, e, (after ++ [(art_id, emb)])%list.
      split; [rewrite Heq, <- app_assoc; reflexivity |].
      split; [exact Hm |]. split; [exact Hb |].
      intros x Hin. apply in_app_or in Hin. destruct Hin as [Hin | [<- | []]].
      * apply Ha, Hin.
      * cbn. exact Hlt.
Qed.

Lemma insert_by_distance_in (x y : string * Z) (l : list (string * Z)) :
  In y (insert_by_distance x l) <-> y = x \/ In y l.
Proof.
  induction l as [| z l IH]; cbn.
  - intuition congruence.
  - destruct (snd x <=? snd z); cbn; [intuition congruence |].
    rewrite IH. intuition congruence.
Qed.

Lemma insert_by_distance_ascending (x : string * Z) (l : list (string * Z)) :
  ascending l -> ascending (insert_by_distance x l).
Proof.
  induction l as [| z l IH]; cbn; [tauto |].
  intros [Hz Hl].
  destruct (snd x <=? snd z) eqn:Hle; cbn.
  - apply Z.leb_le in Hle. repeat split; try assumption.
    intros y [<- | Hy]; [exact Hle | specialize (Hz _ Hy); lia].
  - apply Z.leb_gt in Hle. split; [| apply IH, Hl].
    intros y Hy. apply insert_by_distance_in in Hy.
    destruct Hy as [-> | Hy]; [lia | apply Hz, Hy].
Qed.

Lemma sort_by_distance_ascending (l : list (string * Z)) :
  ascending (sort_by_distance l).
Proof.
  induction l as [| x l IH]; cbn; [exact I |].
  apply insert_by_distance_ascending, IH.
Qed.

Lemma sort_by_distance_in (y : string * Z) (l : list (string * Z)) :
  In y (sort_by_distance l) <-> In y l.
Proof.
  induction l as [| x l IH]; cbn; [tauto |].
  rewrite insert_by_distance_in, IH. intuition congruence.
Qed.

Lemma insert_by_distance_length (x : string * Z) (l : list (string * Z)) :
  List.length (insert_by_distance x l) = S (List.length l).
Proof.
  induction l as [| z l IH]; cbn; [reflexivity |].
  destruct (snd x <=? snd z); cbn; [reflexivity | rewrite IH; reflexivity].
Qed.

Lemma sort_by_distance_length (l : list (string * Z)) :
  List.length (sort_by_distance l) = List.length l.
Proof.
  induction l as [| x l IH]; [reflexivity |].
  change (sort_by_distance (x :: l)) with (insert_by_distance x (sort_by_distance l)).
  rewrite insert_by_distance_length, IH. reflexivity.
Qed.

(** ** The candidate list *)

Lemma insert_by_distance_perm (x : string * Z) (l : list (string * Z)) :
  Permutation (x :: l) (insert_by_distance x l).
Proof.
  induction l as [| y l IH]; cbn; [reflexivity |].
  destruct (snd x <=? snd y); [reflexivity |].
  rewrite perm_swap. apply perm_skip, IH.
Qed.

Lemma sort_by_distance_perm (l : list (string * Z)) :
  Permutation l (sort_by_distance l).
Proof.
  induction l as [| x l IH]; [reflexivity |].
  change (sort_by_distance (x :: l)) with (insert_by_distance x (sort_by_distance l)).
  rewrite <- insert_by_distance_perm. apply perm_skip, IH.
Qed.

Lemma insert_by_distance_at (x : string * Z) (l : list (string * Z)) (d : Z) :
  filter (fun y => snd y =? d) (insert_by_distance x l)
  = filter (fun y => snd y =? d) (x :: l).
Proof.
  induction l as [| y l IH]; [reflexivity |].
  cbn [insert_by_distance]. destruct (snd x <=? snd y) eqn:Hle; [reflexivity |].
  apply Z.leb_gt in Hle.
  cbn [filter] in *. rewrite IH.
  destruct (snd x =? d) eqn:Hx; destruct (snd y =? d) eqn:Hy; try reflexivity.
  apply Z.eqb_eq in Hx, Hy. lia.
Qed.

(** The sort is stable: the candidates at any one distance keep the
    order they have in the index. *)
Lemma sort_by_distance_stable (l : list (string * Z)) (d : Z) :
  filter (fun y => snd y =? d) (sort_by_distance l) = filter (fun y => snd y =? d) l.
Proof.
  induction l as [| x l IH]; [reflexivity |].
  change (sort_by_distance (x :: l)) with (insert_by_distance x (sort_by_distance l)).
  rewrite insert_by_distance_at. cbn [filter]. rewrite IH. reflexivity.
Qed.

Lemma distances_first_nearest (ph : Z) (embeddings : dict Z) (art_id : string) (m : Z) :
  first_nearest ph embeddings art_id m ->
  hd_error (filter (fun y => snd y =? m) (distances ph embeddings)) = Some (art_id, m).
Proof.
  intros (before & emb & after & -> & Hm & Hb & _).
  unfold distances. rewrite map_app, filter_app. cbn [map filter fst snd].
  rewrite Hm, Z.eqb_refl.
  assert (E : filter (fun y => snd y =? m)
                (map (fun item => (fst item, hamming_distance_int ph (snd item))) before)
              = []).
  { induction before as [| x before IH]; [reflexivity |].
    cbn [map filter snd].
    assert (Hx : m < hamming_distance_int ph (snd x)) by (apply Hb; left; reflexivity).
    destruct (Z.eqb_spec (hamming_distance_int ph (snd x)) m); [lia |].
    apply IH. intros y Hy. apply Hb. right. exact Hy. }
  rewrite E. reflexivity.
Qed.

Lemma ascending_head_filter (l : list (string * Z)) (x : string * Z) :
  ascending l -> In x l -> (forall y, In y l -> snd x <= snd y) ->
  hd_error l = hd_error (filter (fun y => snd y =? snd x) l).
Proof.
  destruct l as [| h l]; [intros _ [] |].
  intros [Hh _] Hin Hmin. cbn [hd_error filter].
  assert (snd h = snd x).
  { specialize (Hmin h (or_introl eq_refl)).
    destruct Hin as [-> | Hin]; [reflexivity | specialize (Hh x Hin); lia]. }
  rewrite (proj2 (Z.eqb_eq _ _)) by assumption. reflexivity.
Qed.

(** The head of the sorted candidates is the first nearest entry. *)
Lemma sort_by_distance_head (ph : Z) (embeddings : dict Z) (art_id : string) (m : Z) :
  first_nearest ph embeddings art_id m ->
  hd_error (sort_by_distance (distances ph embeddings)) = Some (art_id, m).
Proof.
  intros Hfirst.
  pose proof (distances_first_nearest _ _ _ _ Hfirst) as Hhd.
  pose proof (first_nearest_minimum _ _ _ _ Hfirst) as [_ Hmin].
  rewrite <- Hhd, <- (sort_by_distance_stable _ m).
  assert (Hin : In (art_id, m) (distances ph embeddings)).
  { destruct Hfirst as (before & emb & after & -> & Hm & _).
    unfold distances. rewrite map_app. apply in_or_app. right. left.
    cbn. rewrite Hm. reflexivity. }
  apply (ascending_head_filter _ (art_id, m)).
  - apply sort_by_distance_ascending.
  - apply (proj2 (sort_by_distance_in _ _)). exact Hin.
  - intros y Hy. apply (proj1 (sort_by_distance_in _ _)) in Hy.
    unfold distances in Hy. apply in_map_iff in Hy.
    destruct Hy as ([i e] & <- & Hy). cbn. apply (Hmin i e Hy).
Qed.

Lemma firstn_In {A : Type} (n : nat) (l : list A) (x : A) :
  In x (firstn n l) -> In x l.
Proof.
  intros Hx. rewrite <- (firstn_skipn n l). apply in_or_app. left. exact Hx.
Qed.

Lemma filter_head_in {A : Type} (f : A -> bool) (l rest : list A) (x : A) :
  filter f l = x :: rest -> In x l /\ f x = true.
Proof.
  intros H. apply filter_In. rewrite H. left. reflexivity.
Qed.

(** There is one way to list candidates nearest first. *)
Lemma nearest_first_unique (s1 s2 candidates : list (string * Z)) :
  nearest_first s1 candidates -> nearest_first s2 candidates -> s1 = s2.
Proof.
  intros (_ & Ha1 & Hf1) (_ & Ha2 & Hf2).
  assert (Hf : forall d, filter (fun x => snd x =? d) s1 = filter (fun x => snd x =? d) s2)
    by (intros d; rewrite Hf1, Hf2; reflexivity).
  clear Hf1 Hf2 candidates. revert s2 Ha2 Hf.
  induction s1 as [| x r1 IH]; intros s2 Ha2 Hf.
  - destruct s2 as [| y r2]; [reflexivity |].
    specialize (Hf (snd y)). cbn [filter] in Hf. rewrite Z.eqb_refl in Hf. discriminate.
  - destruct s2 as [| y r2].
    { specialize (Hf (snd x)). cbn [filter] in Hf. rewrite Z.eqb_refl in Hf. discriminate. }
    destruct Ha1 as [Hx Ha1]. destruct Ha2 as [Hy Ha2].
    assert (E : snd x = snd y).
    { pose proof (Hf (snd x)) as Fx. pose proof (Hf (snd y)) as Fy.
      cbn [filter] in Fx, Fy. rewrite Z.eqb_refl in Fx, Fy.
      destruct (Z.eqb_spec (snd y) (snd x)) as [H | Hne]; [symmetry; exact H |].
      destruct (Z.eqb_spec (snd x) (snd y)) as [H | _]; [exact H |].
      symmetry in Fx. apply filter_head_in in Fx. apply filter_head_in in Fy.
      specialize (Hy x (proj1 Fx)). specialize (Hx y (proj1 Fy)). lia. }
    pose proof (Hf (snd x)) as Fx. cbn [filter] in Fx.
    rewrite <- E, Z.eqb_refl in Fx. injection Fx as Exy Frest. subst y.
    f_equal. apply IH; [exact Ha1 | exact Ha2 |].
    intros d. specialize (Hf d). cbn [filter] in Hf.
    destruct (snd x =? d); [injection Hf as Hf |]; exact Hf.
Qed.

(** The sort of line 305 lists the candidates nearest first. *)
Lemma sort_by_distance_nearest_first (l : list (string * Z)) :
  nearest_first (sort_by_distance l) l.
Proof.
  split; [symmetry; apply sort_by_distance_perm |].
  split; [apply sort_by_distance_ascending |].
  intros d. apply sort_by_distance_stable.
Qed.

(** What [debug.top_3] holds: the first three of the candidates listed
    nearest first, or all of them when they are fewer, the first nearest
    entry at their head. *)
Lemma top_3_candidates (ph : Z) (embeddings : dict Z) (art_id : string) (m : Z) :
  first_nearest ph embeddings art_id m ->
  (exists sorted,
      firstn 3 (sort_by_distance (distances ph embeddings)) = firstn 3 sorted /\
      nearest_first sorted (distances ph embeddings)) /\
  List.length (firstn 3 (sort_by_distance (distances ph embeddings)))
  = Nat.min 3 (List.length embeddings) /\
  hd_error (firstn 3 (sort_by_distance (distances ph embeddings))) = Some (art_id, m).
Proof.
  intros Hfirst. split; [| split].
  - exists (sort_by_distance (distances ph embeddings)).
    split; [reflexivity | apply sort_by_distance_nearest_first].
  - rewrite length_firstn, sort_by_distance_length.
    unfold distances. rewrite length_map. reflexivity.
  - pose proof (sort_by_distance_head _ _ _ _ Hfirst) as Hhd.
    destruct (sort_by_distance (distances ph embeddings)); [discriminate | exact Hhd].
Qed.

(** ** [/analyze] *)

Section Analyze.

Context {image : Type} {lib : Imaging image}.

Variables (ARTWORKS : dict json) (store : option (dict json)).

(** The reply to a decodable upload against a non-empty index, spelled
    out; the theorems on [analyze] read their fields off it. *)
Lemma analyze_found (img : image) (err : string) (ph : Z) :
  compute_phash_from_image img = Return ph ->
  load_embeddings store <> [] ->
  exists art_id m,
    first_nearest ph (load_embeddings store) art_id m /\
    analyze (Some img, err) ARTWORKS store =
    Match_reply
      {| matched := m <=? MAX_DISTANCE;
         match_id := if m <=? MAX_DISTANCE then Some art_id else None;
         match_confidence :=
           if m <=? MAX_DISTANCE then Some (py_round (confidence m) 4) else None;
         hamming_distance := m;
         palette := match kmeans_palette img 5 with Return p => p | Raise _ => [] end;
         texture_edge_density_field :=
           py_round (match texture_edge_density img with
                     | Return t => t
                     | Raise _ => 0%Q
                     end) 6;
         debug := {| best_match := Some art_id;
                     best_distance := m;
                     threshold := MAX_DISTANCE;
                     top_3 := firstn 3 (sort_by_distance
                                          (distances ph (load_embeddings store))) |};
         metadata := lookup_metadata ARTWORKS (m <=? MAX_DISTANCE) (Some art_id);
         message := match lookup_metadata ARTWORKS (m <=? MAX_DISTANCE) (Some art_id) with
                    | Some _ => None
                    | None => Some (no_match_message m)
                    end |}.
Proof.
  intros Hph Hne.
  destruct (search_best ph (load_embeddings store) Hne) as (art_id & m & Hid & Hd & Hfirst).
  exists art_id, m. split; [exact Hfirst |].
  unfold analyze. rewrite Hph.
  destruct (load_embeddings store) as [| e l] eqn:Hload; [congruence |].
  rewrite Hd, Hid, search_all_distances. reflexivity.
Qed.

Lemma first_nearest_nonempty (ph : Z) (embeddings : dict Z) (art_id : string) (m : Z) :
  first_nearest ph embeddings art_id m -> embeddings <> [].
Proof.
  intros (before & emb & after & -> & _). destruct before; discriminate.
Qed.

Lemma first_nearest_unique (ph : Z) (embeddings : dict Z) (i i' : string) (m m' : Z) :
  first_nearest ph embeddings i m -> first_nearest ph embeddings i' m' ->
  i = i' /\ m = m'.
Proof.
  intros H H'.
  assert (Hm : m = m').
  { apply (minimum_distance_unique ph embeddings);
      eapply first_nearest_minimum; eassumption. }
  subst m'. split; [| reflexivity].
  destruct H as (before & e & after & -> & He & Hb & _).
  destruct H' as (before' & e' & after' & Heq & He' & Hb' & _).
  revert before' Heq Hb Hb'.
  induction before as [| x before IH]; intros [| x' before'] Heq Hb Hb'; cbn in Heq.
  - congruence.
  - injection Heq as Hx _. subst x'.
    specialize (Hb' _ (or_introl eq_refl)). cbn in Hb'. lia.
  - injection Heq as Hx _. subst x.
    specialize (Hb _ (or_introl eq_refl)). cbn in Hb. lia.
  - injection Heq as _ Heq.
    apply (IH before' Heq).
    + intros y Hy. apply Hb. right. exact Hy.
    + intros y Hy. apply Hb'. right. exact Hy.
Qed.

(** C2, as the code has it: among the entries at the minimum distance the
    matcher takes the first one in the iteration order of the index (the
    order of the persisted file); the winner is determined by the ordered
    index, and no comparison of ids takes part. *)
Theorem analyze_tie_goes_to_first (img : image) (err : string) (ph : Z) :
  compute_phash_from_image img = Return ph ->
  load_embeddings store <> [] ->
  exists resp art_id m,
    analyze (Some img, err) ARTWORKS store = Match_reply resp /\
    first_nearest ph (load_embeddings store) art_id m /\
    (forall art_id' m',
        first_nearest ph (load_embeddings store) art_id' m' -> art_id' = art_id) /\
    best_match (debug resp) = Some art_id /\
    (matched resp = true -> match_id resp = Some art_id).
Proof.
  intros Hph Hne.
  destruct (analyze_found img err ph Hph Hne) as (art_id & m & Hfirst & Hreply).
  eexists. exists art_id, m. split; [exact Hreply |]. cbn.
  split; [exact Hfirst |].
  split; [intros i' m' H'; apply (first_nearest_unique _ _ _ _ _ _ H' Hfirst) |].
  split; [reflexivity |].
  intros ->. reflexivity.
Qed.

(** C3: against a non-empty index, [matched] is true exactly when the
    minimum Hamming distance between the query and the entries of the
    index is at most the threshold, 40. *)
Theorem analyze_matched_iff (img : image) (err : string) (ph : Z) :
  compute_phash_from_image img = Return ph ->
  load_embeddings store <> [] ->
  exists resp m,
    analyze (Some img, err) ARTWORKS store = Match_reply resp /\
    minimum_distance ph (load_embeddings store) m /\
    hamming_distance resp = m /\
    threshold (debug resp) = 40 /\
    (matched resp = true <-> m <= 40).
Proof.
  intros Hph Hne.
  destruct (analyze_found img err ph Hph Hne) as (art_id & m & Hfirst & Hreply).
  eexists. exists m. split; [exact Hreply |]. cbn.
  split; [eapply first_nearest_minimum; exact Hfirst |].
  split; [reflexivity |]. split; [reflexivity |].
  unfold MAX_DISTANCE. apply Z.leb_le.
Qed.

(** C5: with an empty index no request is answered by a match result,
    and every decodable upload whose fingerprint is computed gets the
    explicit error that tells to run the rebuild. *)
Theorem analyze_empty_index (decoded : option image * string) :
  load_embeddings store = [] ->
  (forall resp, analyze decoded ARTWORKS store <> Match_reply resp) /\
  (forall img err ph,
      decoded = (Some img, err) ->
      compute_phash_from_image img = Return ph ->
      analyze decoded ARTWORKS store
      = Error_reply 400 "No embeddings found. Run /precompute first.").
Proof.
  intros Hempty. split.
  - intros resp. unfold analyze. destruct decoded as [[img |] err]; [| discriminate].
    destruct (compute_phash_from_image img); [| discriminate].
    rewrite Hempty. discriminate.
  - intros img err ph -> Hph. unfold analyze. rewrite Hph, Hempty. reflexivity.
Qed.

(** C10: when the minimum distance is above the threshold, the response
    has [matched] false, [match_id] and [match_confidence] null, and still
    reports the distance of the nearest entry and its id under
    [debug.best_match].  [debug.top_3] holds the first three of the
    candidates listed nearest first (every entry of the index with its
    distance, in ascending order of distance, ties in the order of the
    index), or all of them when the index has fewer than three entries;
    the nearest entry with its distance stands at its head. *)
Theorem analyze_unmatched (img : image) (err : string) (ph m : Z) :
  compute_phash_from_image img = Return ph ->
  minimum_distance ph (load_embeddings store) m ->
  MAX_DISTANCE < m ->
  exists resp art_id,
    analyze (Some img, err) ARTWORKS store = Match_reply resp /\
    first_nearest ph (load_embeddings store) art_id m /\
    matched resp = false /\
    match_id resp = None /\
    match_confidence resp = None /\
    hamming_distance resp = m /\
    best_match (debug resp) = Some art_id /\
    best_distance (debug resp) = m /\
    (exists sorted,
        top_3 (debug resp) = firstn 3 sorted /\
        nearest_first sorted (distances ph (load_embeddings store))) /\
    List.length (top_3 (debug resp)) = Nat.min 3 (List.length (load_embeddings store)) /\
    hd_error (top_3 (debug resp)) = Some (art_id, m) /\
    metadata resp = None /\
    message resp = Some (no_match_message m).
Proof.
  intros Hph Hmin Hgt.
  assert (Hne : load_embeddings store <> []).
  { destruct Hmin as [(i & e & Hin & _) _]. intros E. rewrite E in Hin. exact Hin. }
  destruct (analyze_found img err ph Hph Hne) as (art_id & m' & Hfirst & Hreply).
  assert (m' = m).
  { apply (minimum_distance_unique ph (load_embeddings store)); [| exact Hmin].
    eapply first_nearest_minimum; exact Hfirst. }
  subst m'.
  assert (Hleb : (m <=? MAX_DISTANCE) = false) by (apply Z.leb_gt; exact Hgt).
  rewrite Hleb in Hreply.
  destruct (top_3_candidates _ _ _ _ Hfirst) as (Hsorted & Hlen & Hhd).
  eexists. exists art_id. split; [exact Hreply |].
  cbn [matched match_id match_confidence hamming_distance debug best_match best_distance
       top_3 metadata message lookup_metadata].
  split; [exact Hfirst |].
  repeat (split; [reflexivity |]).
  split; [exact Hsorted |]. split; [exact Hlen |]. split; [exact Hhd |].
  split; reflexivity.
Qed.

(** C7, as the code has it: the fingerprint is computed from the
    canonical buffer, the palette and the edge density from the decoded
    upload as it came (the palette after its own resize to 200x200); the
    two buffers are the same when the upload is already canonical. *)
Theorem analyze_descriptor_source (img : image) (err : string) (resp : response) :
  analyze (Some img, err) ARTWORKS store = Match_reply resp ->
  (exists canonical ph,
      preprocess_image_for_matching img 512 = Return canonical /\
      phash canonical = Return ph /\
      minimum_distance ph (load_embeddings store) (hamming_distance resp)) /\
  palette resp = match kmeans_palette img 5 with Return p => p | Raise _ => [] end /\
  texture_edge_density_field resp
  = py_round (match texture_edge_density img with Return t => t | Raise _ => 0%Q end) 6.
Proof.
  intros Hreply.
  destruct (compute_phash_from_image img) as [ph | e] eqn:Hph.
  2: { unfold analyze in Hreply. rewrite Hph in Hreply. discriminate. }
  assert (Hne : load_embeddings store <> []).
  { intros E. unfold analyze in Hreply. rewrite Hph, E in Hreply. discriminate. }
  destruct (analyze_found img err ph Hph Hne) as (art_id & m & Hfirst & Hreply').
  rewrite Hreply' in Hreply. injection Hreply as <-. cbn.
  split; [| split; reflexivity].
  unfold compute_phash_from_image in Hph.
  destruct (preprocess_image_for_matching img 512) as [canonical | e] eqn:Hpre;
    [| discriminate].
  exists canonical, ph. split; [reflexivity |]. split; [exact Hph |].
  eapply first_nearest_minimum; exact Hfirst.
Qed.

End Analyze.

(** *** The matcher on concrete stores *)

Lemma analyze_matched_iff_witness :
  exists resp m,
    analyze (lib := raster_lib []) (Some top_row, "") [] gallery_store = Match_reply resp /\
    minimum_distance (255 * 2 ^ 56) (load_embeddings gallery_store) m /\
    hamming_distance resp = m /\
    threshold (debug resp) = 40 /\
    (matched resp = true <-> m <= 40).
Proof.
  apply (analyze_matched_iff (lib := raster_lib []) [] gallery_store top_row "").
  - vm_compute. reflexivity.
  - vm_compute. discriminate.
Defined.

Lemma analyze_tie_goes_to_first_witness :
  exists resp art_id m,
    analyze (lib := raster_lib []) (Some stripes, "") [] tie_store = Match_reply resp /\
    first_nearest 0 (load_embeddings tie_store) art_id m /\
    (forall art_id' m',
        first_nearest 0 (load_embeddings tie_store) art_id' m' -> art_id' = art_id) /\
    best_match (debug resp) = Some art_id /\
    (matched resp = true -> match_id resp = Some art_id).
Proof.
  apply (analyze_tie_goes_to_first (lib := raster_lib []) [] tie_store stripes "").
  - vm_compute. reflexivity.
  - vm_compute. discriminate.
Defined.

(** C2 as stated fails: [a] and [b] both lie at distance 0 from the
    query; listed as [b], [a] the index yields [b], though [a] is the
    smaller id, and listed as [a], [b] it yields [a]. *)
Lemma tie_break_follows_index_order :
  load_embeddings tie_store = [("b", 0); ("a", 0)] /\
  compute_phash_from_image (lib := raster_lib []) stripes = Return 0 /\
  hamming_distance_int 0 0 = 0 /\
  String.ltb "a" "b" = true /\
  match analyze (lib := raster_lib []) (Some stripes, "") [] tie_store with
  | Match_reply resp =>
      matched resp = true /\ match_id resp = Some "b" /\ best_match (debug resp) = Some "b"
  | _ => False
  end /\
  match analyze (lib := raster_lib []) (Some stripes, "") [] tie_store_swapped with
  | Match_reply resp =>
      matched resp = true /\ match_id resp = Some "a" /\ best_match (debug resp) = Some "a"
  | _ => False
  end.
Proof.
  split; [reflexivity |]. split; [vm_compute; reflexivity |].
  split; [reflexivity |]. split; [reflexivity |].
  split; vm_compute; repeat split; reflexivity.
Qed.

Lemma analyze_empty_index_witness :
  (forall resp,
      analyze (lib := raster_lib []) (Some top_row, "") [] None <> Match_reply resp) /\
  (forall img err ph,
      (Some top_row, "") = (Some img, err) ->
      compute_phash_from_image (lib := raster_lib []) img = Return ph ->
      analyze (lib := raster_lib []) (Some top_row, "") [] None
      = Error_reply 400 "No embeddings found. Run /precompute first.").
Proof.
  apply (analyze_empty_index (lib := raster_lib []) [] None (Some top_row, "")).
  reflexivity.
Defined.

Example empty_store_run :
  analyze (lib := raster_lib []) (Some top_row, "") [] None
  = Error_reply 400 "No embeddings found. Run /precompute first." /\
  analyze (lib := raster_lib []) (Some top_row, "") [] (Some [("draft", JStr "pending")])
  = Error_reply 400 "No embeddings found. Run /precompute first.".
Proof. split; vm_compute; reflexivity. Qed.

Lemma analyze_unmatched_witness :
  exists resp art_id,
    analyze (lib := raster_lib []) (Some top_row, "") [] distant_store = Match_reply resp /\
    first_nearest (255 * 2 ^ 56) (load_embeddings distant_store) art_id 62 /\
    matched resp = false /\
    match_id resp = None /\
    match_confidence resp = None /\
    hamming_distance resp = 62 /\
    best_match (debug resp) = Some art_id /\
    best_distance (debug resp) = 62 /\
    (exists sorted,
        top_3 (debug resp) = firstn 3 sorted /\
        nearest_first sorted (distances (255 * 2 ^ 56) (load_embeddings distant_store))) /\
    List.length (top_3 (debug resp)) = Nat.min 3 (List.length (load_embeddings distant_store)) /\
    hd_error (top_3 (debug resp)) = Some (art_id, 62) /\
    metadata resp = None /\
    message resp = Some (no_match_message 62).
Proof.
  apply (analyze_unmatched (lib := raster_lib []) [] distant_store top_row "").
  - vm_compute. reflexivity.
  - assert (E : load_embeddings distant_store
                = [("degas", 2 ^ 56 - 1); ("klimt", 2 ^ 56 - 2);
                   ("munch", 2 ^ 56 - 3); ("ernst", 2 ^ 56 - 4)]) by run.
    rewrite E. split.
    + exists "ernst", (2 ^ 56 - 4). split; [right; right; right; left; reflexivity | run].
    + intros art_id emb [H | [H | [H | [H | []]]]];
        injection H as _ <-; vm_compute; discriminate.
  - reflexivity.
Defined.

(** The same request, run: the nearest entry is the last of the index,
    the two entries at distance 63 keep the order of the index, and the
    fourth candidate is left out. *)
Example distant_store_run :
  match analyze (lib := raster_lib []) (Some top_row, "") [] distant_store with
  | Match_reply resp =>
      matched resp = false /\ hamming_distance resp = 62 /\
      best_match (debug resp) = Some "ernst" /\
      top_3 (debug resp) = [("ernst", 62); ("klimt", 63); ("munch", 63)]
  | _ => False
  end.
Proof. vm_compute. repeat split; reflexivity. Qed.

Example far_store_run :
  match analyze (lib := raster_lib []) (Some top_row, "") [] far_store with
  | Match_reply resp =>
      matched resp = false /\ match_id resp = None /\ match_confidence resp = None /\
      hamming_distance resp = 63 /\ best_match (debug resp) = Some "klimt" /\
      top_3 (debug resp) = [("klimt", 63); ("degas", 64)]
  | _ => False
  end.
Proof. vm_compute. repeat split; reflexivity. Qed.

Lemma analyze_descriptor_source_witness :
  (exists canonical ph,
      preprocess_image_for_matching (lib := raster_lib []) stripes 512 = Return canonical /\
      phash (Imaging := raster_lib []) canonical = Return ph /\
      minimum_distance ph (load_embeddings tie_store) (hamming_distance stripes_response)) /\
  palette stripes_response
  = match kmeans_palette (lib := raster_lib []) stripes 5 with
    | Return p => p
    | Raise _ => []
    end /\
  texture_edge_density_field stripes_response
  = py_round (match texture_edge_density (lib := raster_lib []) stripes with
              | Return t => t
              | Raise _ => 0%Q
              end) 6.
Proof.
  apply (analyze_descriptor_source (lib := raster_lib []) [] tie_store stripes ""
           stripes_response).
  vm_compute. reflexivity.
Defined.

(** C7 as stated fails: for the 1024x2 upload [stripes] the fingerprint is
    computed from the canonical 512x1 buffer, every pixel of which is
    black, while the response carries the edge density and the palette of
    the upload itself, which differ from those of the canonical buffer. *)
Lemma descriptors_of_uncapped_upload :
  analyze (lib := raster_lib []) (Some stripes, "") [] tie_store
  = Match_reply stripes_response /\
  preprocess_image_for_matching (lib := raster_lib []) stripes 512
  = Return stripes_canonical /\
  size (Imaging := raster_lib []) stripes = (1024, 2) /\
  size (Imaging := raster_lib []) stripes_canonical = (512, 1) /\
  texture_edge_density (lib := raster_lib []) stripes_canonical = Return 0%Q /\
  texture_edge_density_field stripes_response = (999023 # 1000000)%Q /\
  option_map (map percent)
    (match kmeans_palette (lib := raster_lib []) stripes_canonical 5 with
     | Return p => Some p
     | Raise _ => None
     end) = Some [100; 0; 0; 0; 0] /\
  map percent (palette stripes_response) = [52; 0; 0; 0; 48].
Proof. run_all. Qed.

(** ** [kmeans_palette] *)

Section Palette.

Context {image : Type} {lib : Imaging image}.

Lemma kmeans_palette_clusters (img : image) (k : nat) (pal : list swatch) :
  kmeans_palette img k = Return pal ->
  exists labels centers, palette_of_clusters k labels centers = Return pal.
Proof.
  unfold kmeans_palette. intros H.
  destruct (convert img "RGB") as [rgb_img | e]; [| discriminate].
  cbn [bind] in H.
  destruct (resize rgb_img (200, 200) DefaultFilter) as [small | e]; [| discriminate].
  cbn [bind] in H.
  match type of H with
  | bind ?c _ = _ => destruct c as [arr_sample | e]; [| discriminate]
  end.
  cbn [bind] in H.
  destruct (kmeans k arr_sample) as [[labels centers] | e]; [| discriminate].
  cbn [bind] in H. exists labels, centers. exact H.
Qed.

(** When the library calls succeed and the fit has a center for each
    cluster, [kmeans_palette] returns a palette. *)
Lemma kmeans_palette_returns (img rgb_img small : image) (k : nat)
  (labels : list nat) (centers : list rgb) :
  convert img "RGB" = Return rgb_img ->
  resize rgb_img (200, 200) DefaultFilter = Return small ->
  Z.of_nat (List.length (samples small)) <= 50000 ->
  kmeans k (samples small) = Return (labels, centers) ->
  (k <= List.length centers)%nat ->
  exists pal, kmeans_palette img k = Return pal.
Proof.
  intros Hconv Hres Hrows Hfit Hk. unfold kmeans_palette.
  rewrite Hconv. cbn [bind]. rewrite Hres. cbn [bind].
  assert (Hle : (Z.of_nat (List.length (samples small)) >? 50000) = false)
    by (rewrite Z.gtb_ltb; apply Z.ltb_ge; exact Hrows).
  rewrite Hle. cbn [bind]. rewrite Hfit. cbn [bind].
  apply palette_of_clusters_returns, Hk.
Qed.

(** C1, as the code has it: a palette of [k >= 1] swatches has percents
    that are never negative; their sum is the larger of 100 and the sum
    over all swatches but the first, so it is exactly 100 if and only if
    those others do not exceed 100 together: the first swatch takes the
    rounding error only as far as it stays within 0..100. *)
Theorem kmeans_palette_sum (img : image) (k : nat) (pal : list swatch) :
  (1 <= k)%nat ->
  kmeans_palette img k = Return pal ->
  List.length pal = k /\
  (forall s, In s pal -> 0 <= percent s) /\
  sum_percent pal = Z.max 100 (sum_percent (tl pal)) /\
  (sum_percent pal = 100 <-> sum_percent (tl pal) <= 100).
Proof.
  intros Hk H.
  destruct (kmeans_palette_clusters img k pal H) as (labels & centers & Hc).
  destruct (palette_of_clusters_spec k labels centers pal Hk Hc) as (Hlen & Hall & Hsum).
  split; [exact Hlen |].
  split; [intros s Hs; exact (proj1 (Forall_forall _ _) Hall s Hs) |].
  split; [exact Hsum |]. lia.
Qed.

End Palette.

Lemma kmeans_palette_sum_witness :
  List.length speckled_palette = 5%nat /\
  (forall s, In s speckled_palette -> 0 <= percent s) /\
  sum_percent speckled_palette = Z.max 100 (sum_percent (tl speckled_palette)) /\
  (sum_percent speckled_palette = 100 <-> sum_percent (tl speckled_palette) <= 100).
Proof.
  apply (kmeans_palette_sum (lib := raster_lib []) speckled 5 speckled_palette).
  - lia.
  - vm_compute. reflexivity.
Defined.

(** C1 as stated fails: with 240, 240, 240, 240 and 39040 of 40000
    samples in the five clusters the rounded shares are 1, 1, 1, 1 and 98;
    the error of -2 would take the first swatch to -1, it is set to 0, and
    the percents add up to 101. *)
Lemma palette_sum_101 :
  Z.of_nat (List.length speckle_labels) = 40000 /\
  bincount speckle_labels 5 = [240; 240; 240; 240; 39040] /\
  map (fun c => percent_of c 40000) [240; 240; 240; 240; 39040] = [1; 1; 1; 1; 98] /\
  palette_of_clusters 5 speckle_labels speckle_centers = Return speckled_palette /\
  kmeans_palette (lib := raster_lib []) speckled 5 = Return speckled_palette /\
  sum_percent speckled_palette = 101 /\
  sum_percent speckled_palette <> 100.
Proof.
  split; [run |]. split; [run |]. split; [run |]. split; [run |]. split; [run |].
  split; [reflexivity | discriminate].
Qed.

(** ** Decimal text *)

Lemma str_of_int_parse (z : Z) :
  option_map Z.of_int (NilZero.int_of_string (str_of_int z)) = Some z.
Proof.
  unfold str_of_int. rewrite NilZero.isi.
  - cbn. rewrite DecimalZ.of_to. reflexivity.
  - destruct z; cbn; try discriminate.
    intros [= H]. apply (DecimalPos.Unsigned.to_uint_nonnil _ H).
  - destruct z; cbn; try discriminate.
    intros [= H]. apply (DecimalPos.Unsigned.to_uint_nonnil _ H).
Qed.

Lemma digits_of_uint (d : Decimal.uint) (acc : Z) (b : bool) :
  d <> Decimal.Nil \/ b = true ->
  digits acc b (NilEmpty.string_of_uint d) = Some (uint_value acc d).
Proof.
  revert acc b. induction d as [| d IH | d IH | d IH | d IH | d IH | d IH | d IH | d IH | d IH | d IH];
    intros acc b Hb;
    [ cbn; destruct Hb as [Hb | ->]; [congruence | reflexivity]
    | cbn [NilEmpty.string_of_uint digits uint_value];
      match goal with
      | |- context [digit_of ?c] => change (digit_of c) with (Some (Z.of_nat (nat_of_ascii c) - 48))
      end; cbn [nat_of_ascii]; apply IH; right; reflexivity .. ].
Qed.

Lemma uint_value_acc (d : Decimal.uint) (acc : positive) :
  uint_value (Zpos acc) d = Zpos (Pos.of_uint_acc d acc).
Proof.
  revert acc. induction d; intros acc; cbn [uint_value Pos.of_uint_acc];
    [reflexivity | rewrite <- IHd; f_equal; lia ..].
Qed.

Lemma uint_value_of_uint (d : Decimal.uint) :
  uint_value 0 d = Z.of_N (Pos.of_uint d).
Proof.
  induction d; cbn [uint_value Pos.of_uint];
    [reflexivity | exact IHd | apply uint_value_acc ..].
Qed.

Lemma lstrip_no_space (s : string) : no_space s = true -> lstrip s = s.
Proof.
  destruct s as [| c rest]; cbn; [reflexivity |].
  destruct (is_space c); [discriminate | reflexivity].
Qed.

Lemma rstrip_no_space (s : string) : no_space s = true -> rstrip s = s.
Proof.
  induction s as [| c rest IH]; cbn; [reflexivity |].
  destruct (is_space c); [discriminate |]. cbn. intros H.
  rewrite (IH H). destruct rest; reflexivity.
Qed.

Lemma string_of_uint_no_space (d : Decimal.uint) :
  no_space (NilEmpty.string_of_uint d) = true.
Proof.
  induction d; cbn [NilEmpty.string_of_uint no_space]; [reflexivity | exact IHd ..].
Qed.

Lemma int_of_str_of_int (z : Z) : int_of_str (str_of_int z) = Some z.
Proof.
  destruct z as [| p | p]; [reflexivity | |].
  - unfold str_of_int. cbn [Z.to_int NilZero.string_of_int].
    pose proof (DecimalPos.Unsigned.to_uint_nonnil p) as Hnn.
    pose proof (DecimalPos.Unsigned.of_to p) as Hof.
    set (d := Pos.to_uint p) in *.
    assert (Hs : NilZero.string_of_uint d = NilEmpty.string_of_uint d)
      by (destruct d; [congruence | reflexivity ..]).
    rewrite Hs. unfold int_of_str.
    rewrite lstrip_no_space, rstrip_no_space by apply string_of_uint_no_space.
    assert (Hd : digits 0 false (NilEmpty.string_of_uint d) = Some (Zpos p)).
    { rewrite digits_of_uint by (left; exact Hnn).
      rewrite uint_value_of_uint, Hof. reflexivity. }
    destruct d; [congruence | exact Hd ..].
  - unfold str_of_int. cbn [Z.to_int NilZero.string_of_int].
    pose proof (DecimalPos.Unsigned.to_uint_nonnil p) as Hnn.
    pose proof (DecimalPos.Unsigned.of_to p) as Hof.
    set (d := Pos.to_uint p) in *.
    assert (Hs : NilZero.string_of_uint d = NilEmpty.string_of_uint d)
      by (destruct d; [congruence | reflexivity ..]).
    rewrite Hs. unfold int_of_str.
    assert (Hns : no_space (String "-" (NilEmpty.string_of_uint d)) = true)
      by (cbn [no_space]; rewrite string_of_uint_no_space; reflexivity).
    rewrite lstrip_no_space, rstrip_no_space by exact Hns.
    change (Ascii.eqb "-" "-") with true. cbv iota.
    rewrite digits_of_uint by (left; exact Hnn).
    rewrite uint_value_of_uint, Hof. reflexivity.
Qed.

Lemma str_of_int_inj (a b : Z) : str_of_int a = str_of_int b -> a = b.
Proof.
  intros H. pose proof (str_of_int_parse a) as Ha. rewrite H in Ha.
  rewrite str_of_int_parse in Ha. congruence.
Qed.

(** ** Dictionaries *)

Lemma dict_set_fresh {V : Type} (d : dict V) (k : string) (v : V) :
  ~ In k (keys d) -> dict_set d k v = (d ++ [(k, v)])%list.
Proof.
  induction d as [| [k' v'] d IH]; cbn; intros Hk; [reflexivity |].
  destruct (String.eqb_spec k' k) as [-> | Hne]; [tauto |].
  rewrite IH by tauto. reflexivity.
Qed.

Lemma dict_get_absent {V : Type} (d : dict V) (k : string) :
  ~ In k (keys d) -> dict_get d k = None.
Proof.
  induction d as [| [k' v'] d IH]; cbn; intros Hk; [reflexivity |].
  destruct (String.eqb_spec k' k) as [-> | Hne]; [tauto |].
  apply IH. tauto.
Qed.

Lemma dict_get_present {V : Type} (d : dict V) (k : string) (v : V) :
  is_dict d -> In (k, v) d -> dict_get d k = Some v.
Proof.
  unfold is_dict.
  induction d as [| [k' v'] d IH]; cbn; intros Hd Hin; [contradiction |].
  inversion Hd as [| ? ? Hk' Hd']; subst.
  destruct Hin as [Heq | Hin].
  - injection Heq as -> ->. rewrite String.eqb_refl. reflexivity.
  - destruct (String.eqb_spec k' k) as [-> | Hne].
    + exfalso. apply Hk'. apply (in_map fst) in Hin. exact Hin.
    + apply IH; assumption.
Qed.

(** A loop that sets, for each item of a dictionary, either its key or
    nothing, appends the items it keeps. *)
Lemma fold_dict_set {V W : Type} (f : V -> option W) (l : dict V) (acc : dict W) :
  NoDup (keys l) ->
  (forall k, In k (keys l) -> ~ In k (keys acc)) ->
  fold_left (fun res item => match f (snd item) with
                             | Some w => dict_set res (fst item) w
                             | None => res
                             end) l acc
  = (acc ++ flat_map (fun item => match f (snd item) with
                                  | Some w => [(fst item, w)]
                                  | None => []
                                  end) l)%list.
Proof.
  revert acc. induction l as [| [k v] l IH]; intros acc Hnd Hfresh; cbn.
  - rewrite app_nil_r. reflexivity.
  - inversion Hnd as [| ? ? Hk Hnd']; subst.
    destruct (f v) as [w |].
    + rewrite dict_set_fresh by (apply Hfresh; left; reflexivity).
      rewrite IH; [rewrite <- app_assoc; reflexivity | exact Hnd' |].
      intros k' Hk' Hin. unfold keys in Hin. rewrite map_app in Hin.
      apply in_app_or in Hin. destruct Hin as [Hin | [<- | []]].
      * apply (Hfresh k'); [right; exact Hk' | exact Hin].
      * apply Hk, Hk'.
    + apply IH; [exact Hnd' |].
      intros k' Hk'. apply Hfresh. right. exact Hk'.
Qed.

Lemma flat_map_keep_keys {V W : Type} (f : V -> option W) (l : dict V) (k : string) :
  In k (keys (flat_map (fun item => match f (snd item) with
                                    | Some w => [(fst item, w)]
                                    | None => []
                                    end) l)) ->
  exists v w, In (k, v) l /\ f v = Some w.
Proof.
  induction l as [| [k' v'] l IH]; cbn; [contradiction |].
  unfold keys. rewrite map_app. intros Hin. apply in_app_or in Hin.
  destruct Hin as [Hin | Hin].
  - destruct (f v') as [w |] eqn:E; cbn in Hin; [| contradiction].
    destruct Hin as [<- | []]. exists v', w. split; [left; reflexivity | exact E].
  - destruct (IH Hin) as (v & w & Hv & Hw). exists v, w. split; [right |]; assumption.
Qed.

Lemma flat_map_keep_in {V W : Type} (f : V -> option W) (l : dict V) (k : string) (w : W) :
  In (k, w) (flat_map (fun item => match f (snd item) with
                                   | Some w => [(fst item, w)]
                                   | None => []
                                   end) l) <->
  exists v, In (k, v) l /\ f v = Some w.
Proof.
  rewrite in_flat_map. split.
  - intros ([k' v] & Hin & H). cbn in H.
    destruct (f v) as [w' |] eqn:E; [| contradiction].
    destruct H as [H | []]. injection H as -> ->. exists v. split; assumption.
  - intros (v & Hin & E). exists (k, v). split; [exact Hin |].
    cbn. rewrite E. left. reflexivity.
Qed.

Lemma flat_map_keep_is_dict {V W : Type} (f : V -> option W) (l : dict V) :
  is_dict l ->
  is_dict (flat_map (fun item => match f (snd item) with
                                 | Some w => [(fst item, w)]
                                 | None => []
                                 end) l).
Proof.
  unfold is_dict.
  induction l as [| [k v] l IH]; cbn; intros Hnd; [constructor |].
  inversion Hnd as [| ? ? Hk Hnd']; subst.
  unfold keys. rewrite map_app.
  destruct (f v) as [w |]; cbn; [| apply IH, Hnd'].
  constructor; [| apply IH, Hnd'].
  intros Hin. apply flat_map_keep_keys in Hin.
  destruct Hin as (v0 & _ & Hin & _). apply Hk.
  apply (in_map fst) in Hin. exact Hin.
Qed.

Lemma flat_map_keep_length {V W : Type} (f : V -> option W) (l : dict V) :
  (List.length (flat_map (fun item => match f (snd item) with
                                      | Some w => [(fst item, w)]
                                      | None => []
                                      end) l)
   + List.length (filter (fun item => match f (snd item) with
                                      | Some _ => false
                                      | None => true
                                      end) l)
   = List.length l)%nat.
Proof.
  induction l as [| [k v] l IH]; cbn; [reflexivity |].
  rewrite length_app. destruct (f v); cbn; lia.
Qed.

(** ** The persisted store *)

Lemma fold_left_pointwise {A B : Type} (f g : A -> B -> A) (l : list B) (a : A) :
  (forall x y, f x y = g x y) -> fold_left f l a = fold_left g l a.
Proof.
  intros Hfg. revert a. induction l as [| y l IH]; intros a; cbn; [reflexivity |].
  rewrite Hfg. apply IH.
Qed.

Lemma load_embeddings_parsed (raw : dict json) :
  is_dict raw -> load_embeddings (Some raw) = parsed raw.
Proof.
  intros Hd. unfold load_embeddings, parsed.
  rewrite <- (app_nil_l (flat_map _ raw)).
  rewrite <- (fold_dict_set py_int raw []); [| exact Hd | intros k _ []].
  apply fold_left_pointwise. intros res [k v]. reflexivity.
Qed.

Lemma save_embeddings_keys (index : dict Z) :
  keys (save_embeddings index) = keys index.
Proof.
  unfold keys, save_embeddings. rewrite map_map.
  apply map_ext. intros [k v]. reflexivity.
Qed.

Lemma parsed_save_embeddings (index : dict Z) :
  parsed (save_embeddings index) = index.
Proof.
  induction index as [| [k v] index IH]; [reflexivity |].
  cbn [save_embeddings map parsed flat_map fst snd py_int].
  rewrite int_of_str_of_int. cbn [app]. f_equal. exact IH.
Qed.

(** What [save_embeddings] writes, [load_embeddings] reads back. *)
Lemma load_save_embeddings (index : dict Z) :
  is_dict index -> load_embeddings (Some (save_embeddings index)) = index.
Proof.
  intros Hd. rewrite load_embeddings_parsed.
  - apply parsed_save_embeddings.
  - unfold is_dict. rewrite save_embeddings_keys. exact Hd.
Qed.

(** C9: for a store whose values are within the scope of [py_int]
    (text that is ASCII and within the interpreter's limit on the digits
    of an integer string), an entry whose value does not parse as an
    integer is absent from the loaded index, which is then shorter than
    the file; the entries that parse are all there, in file order, and
    nothing is raised ([load_embeddings] is a total function). *)
Theorem load_embeddings_drops_unparsable (raw : dict json) :
  is_dict raw ->
  forallb (fun item => in_scope (snd item)) raw = true ->
  load_embeddings (Some raw) = parsed raw /\
  (forall k v, In (k, v) raw -> py_int v = None ->
               dict_get (load_embeddings (Some raw)) k = None /\
               ~ In k (keys (load_embeddings (Some raw))) /\
               (List.length (load_embeddings (Some raw)) < List.length raw)%nat) /\
  (forall k v n, In (k, v) raw -> py_int v = Some n ->
                 dict_get (load_embeddings (Some raw)) k = Some n) /\
  (List.length (load_embeddings (Some raw)) <= List.length raw)%nat.
Proof.
  intros Hd _. rewrite (load_embeddings_parsed raw Hd).
  pose proof (flat_map_keep_length py_int raw) as Hlen. fold (parsed raw) in Hlen.
  split; [reflexivity |]. split; [| split; [| lia]].
  - intros k v Hin Hnone.
    assert (Habsent : ~ In k (keys (parsed raw))).
    { intros Hk. apply flat_map_keep_keys in Hk. destruct Hk as (v' & n & Hin' & Hn).
      pose proof (dict_get_present raw k v Hd Hin) as G.
      pose proof (dict_get_present raw k v' Hd Hin') as G'.
      congruence. }
    split; [apply dict_get_absent, Habsent |]. split; [exact Habsent |].
    assert (Hf : In (k, v) (filter (fun item => match py_int (snd item) with
                                                | Some _ => false
                                                | None => true
                                                end) raw)).
    { apply filter_In. split; [exact Hin |]. cbn. rewrite Hnone. reflexivity. }
    destruct (filter _ raw) as [| x xs]; [contradiction | cbn in Hlen; lia].
  - intros k v n Hin Hn. apply dict_get_present.
    + apply flat_map_keep_is_dict, Hd.
    + apply flat_map_keep_in. exists v. split; assumption.
Qed.

Lemma load_embeddings_drops_unparsable_witness :
  dict_get (load_embeddings gallery_store) "draft" = None /\
  dict_get (load_embeddings gallery_store) "degas" = Some (2 ^ 56 - 1) /\
  (List.length (load_embeddings gallery_store) < 3)%nat.
Proof.
  assert (Hd : is_dict [("monet", JStr "18374686479671623681");
                        ("degas", JStr "72057594037927935");
                        ("draft", JStr "pending")]).
  { repeat constructor; cbn; intuition discriminate. }
  destruct (load_embeddings_drops_unparsable _ Hd eq_refl) as (_ & Hdrop & Hkeep & _).
  destruct (Hdrop "draft" (JStr "pending")) as (Hget & _ & Hlen);
    [right; right; left; reflexivity | reflexivity |].
  split; [exact Hget |]. split; [| exact Hlen].
  apply (Hkeep "degas" (JStr "72057594037927935"));
    [right; left; reflexivity | reflexivity].
Defined.

Example gallery_store_run :
  load_embeddings gallery_store = [("monet", 255 * 2 ^ 56 + 1); ("degas", 2 ^ 56 - 1)].
Proof. reflexivity. Qed.

(** ** Distances to stored fingerprints *)

(** C8, as the code has it: the distance of a fingerprint to itself is 0,
    the distance is symmetric and never negative, for all Python integers;
    it is at most 64 when both arguments are 64-bit values, as [phash]
    yields them and as they come back from a store that [save_embeddings]
    wrote from such values; [load_embeddings] itself does not check the
    range of what it reads. *)
Theorem hamming_distance_int_metric :
  (forall a, hamming_distance_int a a = 0) /\
  (forall a b, hamming_distance_int a b = hamming_distance_int b a) /\
  (forall a b, 0 <= hamming_distance_int a b) /\
  (forall a b, 0 <= a < 2 ^ 64 -> 0 <= b < 2 ^ 64 -> hamming_distance_int a b <= 64) /\
  (forall index a art_id b,
      is_dict index ->
      (forall i e, In (i, e) index -> 0 <= e < 2 ^ 64) ->
      0 <= a < 2 ^ 64 ->
      In (art_id, b) (load_embeddings (Some (save_embeddings index))) ->
      0 <= hamming_distance_int a b <= 64).
Proof.
  split; [| split; [| split; [| split]]].
  - intros a. unfold hamming_distance_int. rewrite Z.lxor_nilpotent. reflexivity.
  - intros a b. unfold hamming_distance_int. rewrite Z.lxor_comm. reflexivity.
  - intros a b. apply bit_count_nonneg.
  - intros a b Ha Hb. apply hamming_distance_int_bound; assumption.
  - intros index a art_id b Hd Hrange Ha Hin.
    rewrite (load_save_embeddings index Hd) in Hin.
    apply hamming_distance_int_bound; [exact Ha | exact (Hrange _ _ Hin)].
Qed.

Lemma hamming_distance_int_metric_witness :
  hamming_distance_int (255 * 2 ^ 56) 1 <= 64 /\
  0 <= hamming_distance_int 0 (2 ^ 56 - 1) <= 64.
Proof.
  destruct hamming_distance_int_metric as (_ & _ & _ & Hbound & Hstore).
  split.
  - apply (Hbound (255 * 2 ^ 56) 1); vm_compute; split; congruence.
  - apply (Hstore [("monet", 255 * 2 ^ 56); ("degas", 2 ^ 56 - 1)] 0 "degas" (2 ^ 56 - 1)).
    + repeat constructor; cbn; intuition discriminate.
    + intros i e [H | [H | []]]; injection H as _ <-; vm_compute; split; congruence.
    + vm_compute; split; congruence.
    + vm_compute. right. left. reflexivity.
Defined.

(** C8 as stated fails for a fingerprint loaded from the store: the value
    2^65 - 1, stored as decimal text, is read back as it is and lies at
    distance 65 from the query fingerprint 0. *)
Lemma stored_fingerprint_beyond_64 :
  exists b,
    load_embeddings (Some [("A", JStr "36893488147419103231")]) = [("A", b)] /\
    hamming_distance_int 0 b = 65 /\
    ~ (0 <= hamming_distance_int 0 b <= 64).
Proof.
  exists (2 ^ 65 - 1). split; [reflexivity |]. split; [reflexivity |].
  vm_compute. intros [_ H]. apply H. reflexivity.
Qed.

(** ** [/precompute] *)

Section Precompute.

Context {image : Type} {lib : Imaging image}.

Variable IMAGES_DIR : string.

Lemma precompute_step_valid (embeddings : dict Z) (count : Z) (art_id : string)
  (meta : json) (ph : Z) :
  classify IMAGES_DIR meta = Valid ph ->
  precompute_step IMAGES_DIR (Return (embeddings, count)) (art_id, meta)
  = Return (dict_set embeddings art_id ph, count + 1).
Proof.
  unfold classify, precompute_step, meta_get. cbn [bind].
  destruct meta as [| | | | | | fields]; try discriminate.
  destruct (dict_get fields "image") as [[| b | z | f | filename | l | o] |];
    try discriminate; cbn [bind truthy].
  - destruct b; discriminate.
  - destruct (negb (z =? 0)); discriminate.
  - destruct f as [q |]; [destruct (negb (Qeq_bool q 0)) |]; discriminate.
  - destruct (String.eqb filename ""); [discriminate |]. cbn [negb].
    destruct (path_join IMAGES_DIR (JStr filename)) as [path | e]; [| discriminate].
    cbn [bind]. destruct (path_exists path); [| discriminate]. cbn [negb].
    destruct (fingerprint_file path) as [ph' | e]; [| discriminate].
    intros [= ->]. reflexivity.
  - destruct l; discriminate.
  - destruct o; discriminate.
Qed.

Lemma precompute_step_broken (embeddings : dict Z) (count : Z) (art_id : string)
  (meta : json) :
  classify IMAGES_DIR meta = Broken ->
  precompute_step IMAGES_DIR (Return (embeddings, count)) (art_id, meta)
  = Return (embeddings, count).
Proof.
  unfold classify, precompute_step, meta_get. cbn [bind].
  destruct meta as [| | | | | | fields]; try discriminate.
  destruct (dict_get fields "image") as [[| b | z | f | filename | l | o] |];
    cbn [bind truthy]; try reflexivity.
  - destruct b; [discriminate | reflexivity].
  - destruct (negb (z =? 0)); [discriminate | reflexivity].
  - destruct f as [q |]; [destruct (negb (Qeq_bool q 0)) |];
      try discriminate; reflexivity.
  - destruct (String.eqb filename ""); [reflexivity |]. cbn [negb].
    destruct (path_join IMAGES_DIR (JStr filename)) as [path | e]; [| discriminate].
    cbn [bind]. destruct (path_exists path); [| reflexivity]. cbn [negb].
    destruct (fingerprint_file path) as [ph' | e]; [discriminate | reflexivity].
  - destruct l; [reflexivity | discriminate].
  - destruct o; [reflexivity | discriminate].
Qed.

Lemma precompute_loop (l : dict json) (embeddings : dict Z) (count : Z) :
  NoDup (keys l) ->
  (forall k, In k (keys l) -> ~ In k (keys embeddings)) ->
  (forall art_id meta, In (art_id, meta) l -> classify IMAGES_DIR meta <> Malformed) ->
  fold_left (precompute_step IMAGES_DIR) l (Return (embeddings, count))
  = Return ((embeddings ++ valid_entries IMAGES_DIR l)%list,
            count + Z.of_nat (List.length (valid_entries IMAGES_DIR l))).
Proof.
  revert embeddings count.
  induction l as [| [art_id meta] l IH]; intros embeddings count Hnd Hfresh Hwf.
  - cbn. rewrite app_nil_r, Z.add_0_r. reflexivity.
  - inversion Hnd as [| ? ? Hk Hnd']; subst.
    cbn [fold_left valid_entries flat_map fst snd].
    destruct (classify IMAGES_DIR meta) as [ph | |] eqn:Hc.
    + rewrite (precompute_step_valid _ _ _ _ _ Hc).
      rewrite dict_set_fresh by (apply Hfresh; left; reflexivity).
      rewrite IH.
      * fold (valid_entries IMAGES_DIR l).
        rewrite <- app_assoc. cbn [app List.length]. f_equal. f_equal. lia.
      * exact Hnd'.
      * intros k' Hk' Hin. unfold keys in Hin. rewrite map_app in Hin.
        apply in_app_or in Hin. destruct Hin as [Hin | [<- | []]].
        -- apply (Hfresh k'); [right; exact Hk' | exact Hin].
        -- apply Hk, Hk'.
      * intros i m Him. apply (Hwf i m). right. exact Him.
    + rewrite (precompute_step_broken _ _ _ _ Hc).
      rewrite IH.
      * reflexivity.
      * exact Hnd'.
      * intros k' Hk'. apply Hfresh. right. exact Hk'.
      * intros i m Him. apply (Hwf i m). right. exact Him.
    + exfalso. apply (Hwf art_id meta); [left; reflexivity | exact Hc].
Qed.

Lemma valid_entries_in (ARTWORKS : dict json) (art_id : string) (ph : Z) :
  In (art_id, ph) (valid_entries IMAGES_DIR ARTWORKS) <->
  exists meta, In (art_id, meta) ARTWORKS /\ classify IMAGES_DIR meta = Valid ph.
Proof.
  unfold valid_entries. rewrite in_flat_map. split.
  - intros ([k meta] & Hin & H). cbn in H.
    destruct (classify IMAGES_DIR meta) as [ph' | |] eqn:E; try contradiction.
    destruct H as [H | []]. injection H as -> ->. exists meta. split; assumption.
  - intros (meta & Hin & E). exists (art_id, meta). split; [exact Hin |].
    cbn. rewrite E. left. reflexivity.
Qed.

Lemma valid_entries_count (ARTWORKS : dict json) :
  (forall art_id meta, In (art_id, meta) ARTWORKS ->
                       classify IMAGES_DIR meta <> Malformed) ->
  (List.length (valid_entries IMAGES_DIR ARTWORKS)
   + List.length (filter (is_broken IMAGES_DIR) ARTWORKS)
   = List.length ARTWORKS)%nat.
Proof.
  induction ARTWORKS as [| [art_id meta] l IH]; intros Hwf; [reflexivity |].
  cbn [valid_entries flat_map filter fst snd]. unfold is_broken at 1. cbn [snd].
  fold (valid_entries IMAGES_DIR l).
  assert (IH' := IH (fun i m Him => Hwf i m (or_intror Him))).
  destruct (classify IMAGES_DIR meta) eqn:Hc; cbn [app List.length]; try lia.
  exfalso. apply (Hwf art_id meta); [left; reflexivity | exact Hc].
Qed.

Lemma valid_entries_is_dict (ARTWORKS : dict json) :
  is_dict ARTWORKS -> is_dict (valid_entries IMAGES_DIR ARTWORKS).
Proof.
  unfold is_dict.
  induction ARTWORKS as [| [art_id meta] l IH]; intros Hnd; [constructor |].
  inversion Hnd as [| ? ? Hk Hnd']; subst.
  cbn [valid_entries flat_map fst snd]. fold (valid_entries IMAGES_DIR l).
  destruct (classify IMAGES_DIR meta) as [ph | |]; cbn [app]; try (apply IH, Hnd').
  constructor; [| apply IH, Hnd'].
  intros Hin. apply in_map_iff in Hin. destruct Hin as ([k ph'] & Hk' & Hin).
  cbn in Hk'. subst k. apply valid_entries_in in Hin.
  destruct Hin as (m & Hin & _). apply Hk.
  apply (in_map fst) in Hin. exact Hin.
Qed.

(** C6, as the code has it: for a catalog that is not empty, whose
    entries are all valid or broken, the rebuild does not raise, replaces
    the store by exactly the valid entries with their fingerprints as
    decimal text, in catalog order, and answers with their number; valid
    and broken entries together make up the catalog, and the store read
    back is the index of the valid entries. *)
Theorem precompute_partial_success (ARTWORKS : dict json) (store : option (dict json)) :
  is_dict ARTWORKS ->
  ARTWORKS <> [] ->
  (forall art_id meta, In (art_id, meta) ARTWORKS ->
                       classify IMAGES_DIR meta <> Malformed) ->
  let index := valid_entries IMAGES_DIR ARTWORKS in
  let N := List.length index in
  let M := List.length (filter (is_broken IMAGES_DIR) ARTWORKS) in
  precompute IMAGES_DIR ARTWORKS store
  = Return (Count_reply (Z.of_nat N), Some (save_embeddings index)) /\
  (N + M = List.length ARTWORKS)%nat /\
  load_embeddings (Some (save_embeddings index)) = index /\
  (forall art_id ph,
      In (art_id, JStr (str_of_int ph)) (save_embeddings index) <->
      In (art_id, ph) index) /\
  (forall art_id ph,
      In (art_id, ph) index <->
      exists meta, In (art_id, meta) ARTWORKS /\ classify IMAGES_DIR meta = Valid ph).
Proof.
  intros Hd Hne Hwf index N M.
  split; [| split; [apply valid_entries_count, Hwf | split;
                    [apply load_save_embeddings, valid_entries_is_dict, Hd | split]]].
  - subst index N M. destruct ARTWORKS as [| item rest]; [congruence |].
    pose proof (precompute_loop (item :: rest) [] 0 Hd (fun k _ H => H) Hwf) as Hloop.
    unfold precompute. cbv iota.
    match goal with
    | |- bind ?loop ?k = _ =>
        refine (eq_trans (f_equal (fun c => bind c k) (Hloop : loop = _)) _)
    end.
    reflexivity.
  - intros art_id ph. unfold save_embeddings. rewrite in_map_iff. split.
    + intros ([k v] & Heq & Hin). injection Heq as -> Hs.
      apply str_of_int_inj in Hs. subst v. exact Hin.
    + intros Hin. exists (art_id, ph). split; [reflexivity | exact Hin].
  - apply valid_entries_in.
Qed.

End Precompute.

Lemma gallery_is_dict : is_dict gallery.
Proof. repeat constructor; cbn; intuition discriminate. Qed.

Lemma precompute_partial_success_witness :
  let index := valid_entries (lib := raster_lib gallery_files) "images" gallery in
  let N := List.length index in
  let M := List.length (filter (is_broken (lib := raster_lib gallery_files) "images") gallery) in
  precompute (lib := raster_lib gallery_files) "images" gallery None
  = Return (Count_reply (Z.of_nat N), Some (save_embeddings index)) /\
  (N + M = List.length gallery)%nat /\
  load_embeddings (Some (save_embeddings index)) = index /\
  (forall art_id ph,
      In (art_id, JStr (str_of_int ph)) (save_embeddings index) <->
      In (art_id, ph) index) /\
  (forall art_id ph,
      In (art_id, ph) index <->
      exists meta,
        In (art_id, meta) gallery /\
        classify (lib := raster_lib gallery_files) "images" meta = Valid ph).
Proof.
  apply (precompute_partial_success (lib := raster_lib gallery_files) "images" gallery None).
  - exact gallery_is_dict.
  - discriminate.
  - intros art_id meta [H | [H | [H | [H | []]]]];
      injection H as _ <-; vm_compute; discriminate.
Defined.

Example gallery_rebuild_run :
  precompute (lib := raster_lib gallery_files) "images" gallery None
  = Return (Count_reply 1, Some [("monet", JStr "18374686479671623680")]) /\
  map (is_broken (lib := raster_lib gallery_files) "images") gallery
  = [false; true; true; true].
Proof. run_all. Qed.

(** C6 as stated fails for the catalog without entries (N = M = 0): the
    rebuild answers with an error of status 400 instead of a count of 0,
    and leaves the store as it was instead of writing an empty index.
    Besides, an image that is present and decodes but cannot be
    fingerprinted (here a 1024x1 image, which the size cap would leave
    without height) is skipped like a broken one. *)
Lemma precompute_empty_catalog :
  valid_entries (lib := raster_lib []) "images" [] = [] /\
  filter (is_broken (lib := raster_lib []) "images") [] = [] /\
  precompute (lib := raster_lib []) "images" [] None
  = Return (Status_error 400 "artworks.json missing or empty", None) /\
  precompute (lib := raster_lib []) "images" [] None
  <> Return (Count_reply 0, Some (save_embeddings [])) /\
  image_open (Imaging := raster_lib sliver_files) "images/sliver.png" = Return sliver /\
  precompute (lib := raster_lib sliver_files) "images" sliver_catalog None
  = Return (Count_reply 0, Some []).
Proof.
  split; [reflexivity |]. split; [reflexivity |]. split; [reflexivity |].
  split; [discriminate |]. split; [reflexivity |]. run.
Qed.

(** ** More on the Hamming distance *)

Lemma pos_bit_count_Ndouble (n : N) :
  bit_count (Z.of_N (Pos.Ndouble n)) = bit_count (Z.of_N n).
Proof. destruct n; reflexivity. Qed.

Lemma pos_bit_count_Nsucc_double (n : N) :
  bit_count (Z.of_N (Pos.Nsucc_double n)) = 1 + bit_count (Z.of_N n).
Proof. destruct n; reflexivity. Qed.

Lemma pos_lxor_bit_count (p q : positive) :
  bit_count (Z.of_N (Pos.lxor p q)) <= pos_bit_count p + pos_bit_count q.
Proof.
  revert q. induction p as [p IH | p IH |]; intros [q | q |];
    cbn [Pos.lxor pos_bit_count];
    rewrite ?pos_bit_count_Ndouble, ?pos_bit_count_Nsucc_double;
    try specialize (IH q);
    try (pose proof (pos_bit_count_log2 p));
    try (pose proof (pos_bit_count_log2 q));
    cbn [Z.of_N bit_count pos_bit_count]; lia.
Qed.

Lemma bit_count_lxor (x y : Z) :
  0 <= x -> 0 <= y -> bit_count (Z.lxor x y) <= bit_count x + bit_count y.
Proof.
  intros Hx Hy. destruct x as [| p | p]; [| | lia].
  - rewrite Z.lxor_0_l. cbn [bit_count]. lia.
  - destruct y as [| q | q]; [| | lia].
    + rewrite Z.lxor_0_r. cbn [bit_count]. lia.
    + cbn [Z.lxor bit_count]. apply pos_lxor_bit_count.
Qed.

Lemma bit_count_zero (n : Z) : bit_count n = 0 <-> n = 0.
Proof.
  destruct n as [| p | p]; cbn [bit_count]; split; intros H;
    try reflexivity; try discriminate;
    pose proof (pos_bit_count_log2 p); lia.
Qed.

Lemma hamming_distance_int_eq0 (a b : Z) :
  hamming_distance_int a b = 0 <-> a = b.
Proof.
  unfold hamming_distance_int. rewrite bit_count_zero. apply Z.lxor_eq_0_iff.
Qed.

(** X1: two fingerprints are at distance 0 exactly when they are equal,
    whatever Python integers they are. *)
Theorem hamming_distance_int_zero_iff (a b : Z) :
  hamming_distance_int a b = 0 <-> a = b.
Proof. exact (hamming_distance_int_eq0 a b). Qed.

(** X2: on non-negative integers the distance satisfies the triangle
    inequality. *)
Theorem hamming_distance_int_triangle (a b c : Z) :
  0 <= a -> 0 <= b -> 0 <= c ->
  hamming_distance_int a c <= hamming_distance_int a b + hamming_distance_int b c.
Proof.
  intros Ha Hb Hc. unfold hamming_distance_int.
  assert (E : Z.lxor a c = Z.lxor (Z.lxor a b) (Z.lxor b c)).
  { rewrite Z.lxor_assoc, <- (Z.lxor_assoc b b c), Z.lxor_nilpotent, Z.lxor_0_l.
    reflexivity. }
  rewrite E. apply bit_count_lxor; apply Z.lxor_nonneg; tauto.
Qed.

Lemma hamming_distance_int_triangle_witness :
  hamming_distance_int 12 5 <= hamming_distance_int 12 10 + hamming_distance_int 10 5.
Proof. apply hamming_distance_int_triangle; lia. Defined.

(** On negative integers [bit_count] counts the ones of the absolute
    value, and the triangle inequality is lost. *)
Example hamming_distance_int_negative_triangle :
  hamming_distance_int (-8) 0 = 1 /\ hamming_distance_int 0 (-1) = 1 /\
  hamming_distance_int (-8) (-1) = 3.
Proof. repeat split; reflexivity. Qed.

(** ** The index holds every id once *)

Lemma dict_set_keys_present {V : Type} (d : dict V) (k : string) (v : V) :
  In k (keys d) -> keys (dict_set d k v) = keys d.
Proof.
  induction d as [| [k' v'] d IH]; cbn [keys map fst dict_set]; [intros [] |].
  intros Hin. destruct (String.eqb_spec k' k) as [-> | Hne]; [reflexivity |].
  cbn [map fst]. f_equal. apply IH. destruct Hin as [H | H]; [congruence | exact H].
Qed.

Lemma dict_set_is_dict {V : Type} (d : dict V) (k : string) (v : V) :
  is_dict d -> is_dict (dict_set d k v).
Proof.
  unfold is_dict. intros Hd.
  destruct (in_dec string_dec k (keys d)) as [Hin | Hout].
  - rewrite dict_set_keys_present by exact Hin. exact Hd.
  - rewrite dict_set_fresh by exact Hout. unfold keys. rewrite map_app.
    apply NoDup_app; [exact Hd | repeat constructor; intros [] |].
    intros x Hx [<- | []]. exact (Hout Hx).
Qed.

Lemma dict_get_set {V : Type} (d : dict V) (k k' : string) (v : V) :
  dict_get (dict_set d k v) k' = if String.eqb k k' then Some v else dict_get d k'.
Proof.
  induction d as [| [k0 v0] d IH]; cbn.
  - reflexivity.
  - destruct (String.eqb_spec k0 k) as [-> | Hne]; cbn.
    + destruct (String.eqb k k'); reflexivity.
    + rewrite IH. destruct (String.eqb_spec k0 k') as [-> | Hne'].
      * destruct (String.eqb_spec k k'); [congruence | reflexivity].
      * reflexivity.
Qed.

(** Whatever the store holds, the loaded index holds every id at
    most once. *)
Theorem load_embeddings_is_dict (store : option (dict json)) :
  is_dict (load_embeddings store).
Proof.
  destruct store as [raw |]; [| constructor].
  unfold load_embeddings.
  assert (H0 : is_dict (@nil (string * Z))) by constructor.
  revert H0. generalize (@nil (string * Z)) as res.
  induction raw as [| [k v] raw IH]; intros res Hres; cbn; [exact Hres |].
  apply IH. destruct (py_int v); [apply dict_set_is_dict |]; exact Hres.
Qed.

Section Candidates.

Context {image : Type} {lib : Imaging image}.

Variables (ARTWORKS : dict json) (store : option (dict json)).

(** X3: against a non-empty index, matched or not, [debug.top_3] holds
    the first three of the candidates listed nearest first (every entry
    of the index with its distance to the query, in ascending order of
    distance, ties in the order of the index), or all of them when they
    are fewer; its first element is the best match with the reported
    distance. *)
Theorem analyze_top_3 (img : image) (err : string) (ph : Z) :
  compute_phash_from_image img = Return ph ->
  load_embeddings store <> [] ->
  exists resp art_id,
    analyze (Some img, err) ARTWORKS store = Match_reply resp /\
    (exists sorted,
        top_3 (debug resp) = firstn 3 sorted /\
        nearest_first sorted (distances ph (load_embeddings store))) /\
    List.length (top_3 (debug resp))
    = Nat.min 3 (List.length (load_embeddings store)) /\
    hd_error (top_3 (debug resp)) = Some (art_id, hamming_distance resp) /\
    best_match (debug resp) = Some art_id /\
    best_distance (debug resp) = hamming_distance resp /\
    ascending (top_3 (debug resp)) /\
    (forall x, In x (top_3 (debug resp)) ->
               exists emb, In (fst x, emb) (load_embeddings store) /\
                           snd x = hamming_distance_int ph emb).
Proof.
  intros Hph Hne.
  destruct (analyze_found ARTWORKS store img err ph Hph Hne)
    as (art_id & m & Hfirst & Hreply).
  destruct (top_3_candidates _ _ _ _ Hfirst) as (Hsorted & Hlen & Hhd).
  eexists. exists art_id. split; [exact Hreply |].
  cbn [debug top_3 best_match best_distance hamming_distance].
  split; [exact Hsorted |]. split; [exact Hlen |]. split; [exact Hhd |].
  split; [reflexivity |]. split; [reflexivity |].
  set (sorted := sort_by_distance (distances ph (load_embeddings store))).
  split.
  { pose proof (sort_by_distance_ascending (distances ph (load_embeddings store)))
      as Hasc. fold sorted in Hasc. clearbody sorted.
    generalize 3%nat as n. intros n. revert n.
    induction sorted as [| x s IH]; intros [| n]; cbn; try exact I.
    destruct Hasc as [Hx Hs]. split; [| apply IH, Hs].
    intros y Hy. apply Hx. apply (firstn_In n). exact Hy. }
  intros x Hx. apply firstn_In in Hx.
  apply (proj1 (sort_by_distance_in _ _)) in Hx. unfold distances in Hx.
  apply in_map_iff in Hx. destruct Hx as ([i e] & <- & Hx).
  exists e. split; [exact Hx | reflexivity].
Qed.

End Candidates.

Lemma analyze_top_3_witness :
  exists resp art_id,
    analyze (lib := raster_lib []) (Some top_row, "") [] crowded_store = Match_reply resp /\
    (exists sorted,
        top_3 (debug resp) = firstn 3 sorted /\
        nearest_first sorted (distances (255 * 2 ^ 56) (load_embeddings crowded_store))) /\
    List.length (top_3 (debug resp))
    = Nat.min 3 (List.length (load_embeddings crowded_store)) /\
    hd_error (top_3 (debug resp)) = Some (art_id, hamming_distance resp) /\
    best_match (debug resp) = Some art_id /\
    best_distance (debug resp) = hamming_distance resp /\
    ascending (top_3 (debug resp)) /\
    (forall x, In x (top_3 (debug resp)) ->
               exists emb, In (fst x, emb) (load_embeddings crowded_store) /\
                           snd x = hamming_distance_int (255 * 2 ^ 56) emb).
Proof.
  apply (analyze_top_3 (lib := raster_lib []) [] crowded_store top_row "").
  - vm_compute. reflexivity.
  - vm_compute. discriminate.
Defined.

(** The same request, run: of the four candidates the three nearest are
    listed, the two at distance 1 in the order of the index. *)
Example crowded_store_run :
  match analyze (lib := raster_lib []) (Some top_row, "") [] crowded_store with
  | Match_reply resp =>
      matched resp = true /\ match_id resp = Some "monet" /\
      top_3 (debug resp) = [("monet", 1); ("munch", 1); ("klimt", 2)]
  | _ => False
  end.
Proof. vm_compute. repeat split; reflexivity. Qed.

(** ** Ranges of the descriptors *)

Lemma nth_le_sum (counts : list Z) (i : nat) :
  Forall (fun c => 0 <= c) counts -> nth i counts 0 <= sum_Z counts.
Proof.
  intros Hall. revert i.
  induction Hall as [| c counts Hc Hall IH]; intros [| i]; cbn; try lia.
  - assert (0 <= sum_Z counts).
    { clear IH. induction Hall; cbn; [lia |]. unfold sum_Z in *. cbn. lia. }
    unfold sum_Z in *. lia.
  - specialize (IH i). unfold sum_Z in *. cbn. lia.
Qed.

Lemma fraction_range (n total : Z) :
  0 <= n <= total -> 0 < total -> (0 <= inject_Z n / inject_Z total <= 1)%Q.
Proof.
  intros [Hn Hnt] Ht.
  assert (Hpos : (0 < inject_Z total)%Q)
    by (change 0%Q with (inject_Z 0); rewrite <- Zlt_Qlt; exact Ht).
  split.
  - apply Qle_shift_div_l; [exact Hpos |]. rewrite Qmult_0_l.
    change 0%Q with (inject_Z 0). rewrite <- Zle_Qle. exact Hn.
  - apply Qle_shift_div_r; [exact Hpos |]. rewrite Qmult_1_l.
    rewrite <- Zle_Qle. exact Hnt.
Qed.

Lemma percent_of_le_100 (count total : Z) :
  0 <= count <= total -> 0 < total -> percent_of count total <= 100.
Proof.
  intros [Hc Hle] Ht. unfold percent_of. cbv zeta.
  destruct (share_range count total Hc Ht) as [Hlo Hhi]. specialize (Hhi Hle).
  apply round_half_even_le. change (inject_Z 100) with 100%Q.
  apply Qle_trans with (fl 100); [apply fl_mono; lra |].
  rewrite fl_100. apply Qle_refl.
Qed.

Lemma swatches_le_100 (centers : list rgb) (counts : list Z) (range : list nat)
  (pal : list swatch) :
  Forall (fun c => 0 <= c) counts ->
  swatches centers counts (if sum_Z counts >? 0 then sum_Z counts else 1) range
  = Return pal ->
  Forall (fun s => percent s <= 100) pal.
Proof.
  intros Hc. revert pal.
  induction range as [| i range IH]; intros pal H; cbn in H.
  - injection H as <-. constructor.
  - destruct (nth_error centers i) as [color |]; [| discriminate].
    destruct (swatches centers counts _ range) as [rest | e]; [| discriminate].
    cbn in H. injection H as <-.
    constructor; [| apply IH; reflexivity].
    cbn [percent].
    pose proof (nth_le_sum counts i Hc) as Hle.
    pose proof (nth_nonneg counts i Hc) as Hnn.
    destruct (sum_Z counts >? 0) eqn:E.
    + apply Z.gtb_lt in E. apply percent_of_le_100; lia.
    + assert (sum_Z counts <= 0) by (destruct (Z.gtb_spec (sum_Z counts) 0); [discriminate | lia]).
      apply percent_of_le_100; lia.
Qed.

Section Descriptors.

Context {image : Type} {lib : Imaging image}.

(** X4: every percent of a returned palette lies in 0..100. *)
Theorem kmeans_palette_percent_range (img : image) (k : nat) (pal : list swatch) :
  kmeans_palette img k = Return pal ->
  forall s, In s pal -> 0 <= percent s <= 100.
Proof.
  intros H. destruct (kmeans_palette_clusters img k pal H) as (labels & centers & Hc).
  unfold palette_of_clusters in Hc.
  destruct (swatches centers (bincount labels k) _ (seq 0 k)) as [raw | e] eqn:Hraw;
    [| discriminate].
  cbn in Hc. injection Hc as <-.
  pose proof (swatches_le_100 _ _ _ _ (bincount_nonneg labels k) Hraw) as Hle.
  assert (Hnn : Forall (fun s => 0 <= percent s) raw).
  { eapply swatches_spec; [apply bincount_nonneg | | exact Hraw].
    destruct (sum_Z (bincount labels k) >? 0) eqn:E; [apply Z.gtb_lt in E; exact E | lia]. }
  intros s Hs. unfold normalize in Hs.
  destruct raw as [| p0 rest]; [contradiction |].
  inversion Hle as [| ? ? Hp0 Hrest]; subst.
  inversion Hnn as [| ? ? Hn0 Hnrest]; subst.
  destruct (negb (100 - sum_percent (p0 :: rest) =? 0)).
  - destruct Hs as [<- | Hs]; [cbn; lia |].
    split; [exact (proj1 (Forall_forall _ _) Hnrest s Hs)
           | exact (proj1 (Forall_forall _ _) Hrest s Hs)].
  - destruct Hs as [<- | Hs]; [lia |].
    split; [exact (proj1 (Forall_forall _ _) Hnrest s Hs)
           | exact (proj1 (Forall_forall _ _) Hrest s Hs)].
Qed.

Lemma filter_length_le {A : Type} (f : A -> bool) (l : list A) :
  (List.length (filter f l) <= List.length l)%nat.
Proof. induction l as [| x l IH]; cbn; [lia |]. destruct (f x); cbn; lia. Qed.

(** X5: the edge density is a fraction between 0 and 1, whatever the
    edge detector returns, and so is the value rounded to six digits that
    the response carries. *)
Theorem texture_edge_density_range (img : image) (t : Q) :
  texture_edge_density img = Return t ->
  (0 <= t <= 1)%Q /\ (0 <= py_round t 6 <= 1)%Q.
Proof.
  unfold texture_edge_density. intros H.
  destruct (convert img "RGB") as [img_rgb | e]; [| discriminate]. cbn [bind] in H.
  destruct (canny img_rgb 100 200) as [edges | e]; [| discriminate]. cbn [bind] in H.
  injection H as <-.
  pose proof (filter_length_le (fun e => negb (e =? 0)) edges) as Hle.
  set (n := Z.of_nat (List.length (filter (fun e => negb (e =? 0)) edges))) in *.
  set (m := Z.of_nat (List.length edges)) in *.
  assert (Hn : 0 <= n <= m) by (unfold n, m; lia).
  set (total := if m >? 0 then m else 1).
  assert (Ht : 0 < total /\ n <= total).
  { unfold total. destruct (m >? 0) eqn:E; [apply Z.gtb_lt in E; lia |].
    assert (m <= 0) by (destruct (Z.gtb_spec m 0); [discriminate | lia]). lia. }
  assert (Hexact : (0 <= inject_Z n / inject_Z total <= 1)%Q)
    by (apply fraction_range; lia).
  assert (Hrange : (0 <= fl (inject_Z n / inject_Z total) <= 1)%Q).
  { split; [apply fl_nonneg, Hexact |].
    rewrite <- fl_1. apply fl_mono; apply Hexact. }
  split; [exact Hrange |].
  destruct (py_round_bounds (fl (inject_Z n / inject_Z total)) 0 (10 ^ 6) 6) as [Hlo Hhi].
  - change (inject_Z 0) with 0%Q. apply Qmult_le_0_compat; [apply Hrange | discriminate].
  - rewrite <- (Qmult_1_l (inject_Z (10 ^ 6))) at 2.
    apply Qmult_le_compat_r; [apply Hrange | discriminate].
  - assert (E0 : (0 # Z.to_pos (10 ^ 6) == 0)%Q) by reflexivity.
    assert (E1 : (10 ^ 6 # Z.to_pos (10 ^ 6) == 1)%Q) by reflexivity.
    rewrite E0 in Hlo. rewrite E1 in Hhi. split; assumption.
Qed.

End Descriptors.

Lemma kmeans_palette_percent_range_witness :
  kmeans_palette (lib := raster_lib []) speckled 5 = Return speckled_palette /\
  Forall (fun s => 0 <= percent s <= 100) speckled_palette.
Proof.
  split; [vm_compute; reflexivity |].
  apply Forall_forall.
  apply (kmeans_palette_percent_range (lib := raster_lib []) speckled 5).
  vm_compute. reflexivity.
Defined.

Lemma texture_edge_density_range_witness :
  (0 <= 1023 # 1024 <= 1)%Q /\ (0 <= py_round (1023 # 1024) 6 <= 1)%Q.
Proof.
  apply (texture_edge_density_range (lib := raster_lib []) stripes).
  vm_compute. reflexivity.
Defined.

(** ** More on [/analyze] *)

Lemma confidence_le_1 (d : Z) : (confidence d <= 1)%Q.
Proof.
  unfold confidence. apply Q.max_lub; [discriminate | apply Q.le_min_l].
Qed.

Lemma first_nearest_nonneg (ph : Z) (embeddings : dict Z) (art_id : string) (m : Z) :
  first_nearest ph embeddings art_id m -> 0 <= m.
Proof.
  intros (_ & emb & _ & _ & <- & _). apply bit_count_nonneg.
Qed.

Section Response.

Context {image : Type} {lib : Imaging image}.

Variables (ARTWORKS : dict json) (store : option (dict json)).

(** X6: a matched response carries a confidence, the confidence of the
    reported distance rounded to four digits, and it lies between 0.375
    and 1. *)
Theorem analyze_match_confidence (img : image) (err : string) (ph : Z) :
  compute_phash_from_image img = Return ph ->
  load_embeddings store <> [] ->
  exists resp,
    analyze (Some img, err) ARTWORKS store = Match_reply resp /\
    (matched resp = true ->
     match_confidence resp = Some (py_round (confidence (hamming_distance resp)) 4) /\
     (375 # 1000 <= py_round (confidence (hamming_distance resp)) 4 <= 1)%Q).
Proof.
  intros Hph Hne.
  destruct (analyze_found ARTWORKS store img err ph Hph Hne)
    as (art_id & m & Hfirst & Hreply).
  eexists. split; [exact Hreply |]. cbn [matched match_confidence hamming_distance].
  intros Hm. rewrite Hm. split; [reflexivity |].
  apply Z.leb_le in Hm. unfold MAX_DISTANCE in Hm.
  pose proof (confidence_antitone m 40 Hm) as Hlo.
  pose proof (confidence_le_1 m) as Hhi.
  destruct (py_round_bounds (confidence m) 3750 10000 4) as [Hl Hh].
  - apply Qle_trans with (confidence 40 * inject_Z (10 ^ 4))%Q; [discriminate |].
    apply Qmult_le_compat_r; [exact Hlo | discriminate].
  - apply Qle_trans with (1 * inject_Z (10 ^ 4))%Q; [| discriminate].
    apply Qmult_le_compat_r; [exact Hhi | discriminate].
  - assert (E0 : (3750 # Z.to_pos (10 ^ 4) == 375 # 1000)%Q) by reflexivity.
    assert (E1 : (10000 # Z.to_pos (10 ^ 4) == 1)%Q) by reflexivity.
    rewrite E0 in Hl. rewrite E1 in Hh. split; assumption.
Qed.

(** X7: the response has either the catalog record of the match under
    [metadata] or the no-match message, never both and never neither; a
    match whose id has no record in the catalog (or a null one) is
    answered with [matched] true together with the no-match message. *)
Theorem analyze_metadata_or_message (img : image) (err : string) (ph : Z) :
  compute_phash_from_image img = Return ph ->
  load_embeddings store <> [] ->
  exists resp,
    analyze (Some img, err) ARTWORKS store = Match_reply resp /\
    (metadata resp = None <-> message resp = Some (no_match_message (hamming_distance resp))) /\
    (metadata resp <> None <-> message resp = None) /\
    (matched resp = false -> metadata resp = None) /\
    (forall art_id record,
        match_id resp = Some art_id -> dict_get ARTWORKS art_id = Some record ->
        record <> JNull -> metadata resp = Some record /\ message resp = None) /\
    (forall art_id,
        match_id resp = Some art_id ->
        dict_get ARTWORKS art_id = None \/ dict_get ARTWORKS art_id = Some JNull ->
        matched resp = true /\
        message resp = Some (no_match_message (hamming_distance resp))).
Proof.
  intros Hph Hne.
  destruct (analyze_found ARTWORKS store img err ph Hph Hne)
    as (best & m & Hfirst & Hreply).
  eexists. split; [exact Hreply |].
  cbn [matched match_id metadata message hamming_distance].
  set (md := lookup_metadata ARTWORKS (m <=? MAX_DISTANCE) (Some best)).
  assert (Hmd : forall b, (m <=? MAX_DISTANCE) = b ->
                md = if b then match dict_get ARTWORKS best with
                                | Some JNull => None
                                | found => found
                                end
                     else None).
  { intros b <-. unfold md, lookup_metadata. destruct (m <=? MAX_DISTANCE); reflexivity. }
  split; [destruct md; split; intros H; try discriminate; try reflexivity |].
  split; [destruct md; split; intros H; try discriminate; try congruence; reflexivity |].
  split; [intros Hb; rewrite (Hmd false Hb); reflexivity |].
  split.
  - intros art_id record Hid Hget Hnn.
    destruct (m <=? MAX_DISTANCE) eqn:Hb; [| discriminate].
    injection Hid as ->. rewrite (Hmd true eq_refl), Hget.
    destruct record; try congruence; split; reflexivity.
  - intros art_id Hid Hget.
    destruct (m <=? MAX_DISTANCE) eqn:Hb; [| discriminate].
    injection Hid as ->. split; [reflexivity |].
    rewrite (Hmd true eq_refl). destruct Hget as [-> | ->]; reflexivity.
Qed.

(** X8: palette and texture take no part in the decision.  Two uploads
    with the same fingerprint get responses that agree in every field but
    those two; and when a descriptor cannot be computed the request is
    still answered, with an empty palette or a density of 0. *)
Theorem analyze_descriptors_auxiliary (img img' : image) (err err' : string) (ph : Z) :
  compute_phash_from_image img = Return ph ->
  compute_phash_from_image img' = Return ph ->
  load_embeddings store <> [] ->
  exists resp resp',
    analyze (Some img, err) ARTWORKS store = Match_reply resp /\
    analyze (Some img', err') ARTWORKS store = Match_reply resp' /\
    matched resp = matched resp' /\
    match_id resp = match_id resp' /\
    match_confidence resp = match_confidence resp' /\
    hamming_distance resp = hamming_distance resp' /\
    debug resp = debug resp' /\
    metadata resp = metadata resp' /\
    message resp = message resp' /\
    (forall e, kmeans_palette img 5 = Raise e -> palette resp = []) /\
    (forall e, texture_edge_density img = Raise e ->
               texture_edge_density_field resp = py_round 0 6).
Proof.
  intros Hph Hph' Hne.
  destruct (analyze_found ARTWORKS store img err ph Hph Hne)
    as (best & m & Hfirst & Hreply).
  destruct (analyze_found ARTWORKS store img' err' ph Hph' Hne)
    as (best' & m' & Hfirst' & Hreply').
  destruct (first_nearest_unique _ _ _ _ _ _ Hfirst Hfirst') as [<- <-].
  eexists. eexists. split; [exact Hreply |]. split; [exact Hreply' |].
  cbn [matched match_id match_confidence hamming_distance debug metadata message
       palette texture_edge_density_field].
  repeat (split; [reflexivity |]).
  split; [intros e ->; reflexivity | intros e ->; reflexivity].
Qed.

End Response.

Lemma analyze_match_confidence_witness :
  exists resp,
    analyze (lib := raster_lib []) (Some top_row, "") [] gallery_store = Match_reply resp /\
    (matched resp = true ->
     match_confidence resp = Some (py_round (confidence (hamming_distance resp)) 4) /\
     (375 # 1000 <= py_round (confidence (hamming_distance resp)) 4 <= 1)%Q).
Proof.
  apply (analyze_match_confidence (lib := raster_lib []) [] gallery_store top_row ""
           (255 * 2 ^ 56)).
  - vm_compute. reflexivity.
  - vm_compute. discriminate.
Defined.

Lemma analyze_metadata_or_message_witness :
  exists resp,
    analyze (lib := raster_lib []) (Some top_row, "") gallery gallery_store
    = Match_reply resp /\
    (metadata resp = None <-> message resp = Some (no_match_message (hamming_distance resp))) /\
    (metadata resp <> None <-> message resp = None) /\
    (matched resp = false -> metadata resp = None) /\
    (forall art_id record,
        match_id resp = Some art_id -> dict_get gallery art_id = Some record ->
        record <> JNull -> metadata resp = Some record /\ message resp = None) /\
    (forall art_id,
        match_id resp = Some art_id ->
        dict_get gallery art_id = None \/ dict_get gallery art_id = Some JNull ->
        matched resp = true /\
        message resp = Some (no_match_message (hamming_distance resp))).
Proof.
  apply (analyze_metadata_or_message (lib := raster_lib []) gallery gallery_store
           top_row "" (255 * 2 ^ 56)).
  - vm_compute. reflexivity.
  - vm_compute. discriminate.
Defined.

Lemma analyze_descriptors_auxiliary_witness :
  (exists resp resp',
      analyze (lib := raster_lib []) (Some stripes, "") [] tie_store = Match_reply resp /\
      analyze (lib := raster_lib []) (Some black, "") [] tie_store = Match_reply resp' /\
      matched resp = matched resp' /\
      match_id resp = match_id resp' /\
      match_confidence resp = match_confidence resp' /\
      hamming_distance resp = hamming_distance resp' /\
      debug resp = debug resp' /\
      metadata resp = metadata resp' /\
      message resp = message resp' /\
      map percent (palette resp) = [52; 0; 0; 0; 48] /\
      map percent (palette resp') = [100; 0; 0; 0; 0] /\
      texture_edge_density_field resp = (999023 # 1000000)%Q /\
      texture_edge_density_field resp' = (0 # 1000000)%Q) /\
  (exists resp,
      analyze (lib := failing_lib) (Some stripes, "") [] tie_store = Match_reply resp /\
      matched resp = true /\
      palette resp = [] /\
      texture_edge_density_field resp = py_round 0 6).
Proof.
  split.
  - destruct (analyze_descriptors_auxiliary (lib := raster_lib []) [] tie_store
                stripes black "" "" 0)
      as (resp & resp' & Hr & Hr' & Hm & Hid & Hc & Hd & Hdebug & Hmeta & Hmsg & _);
      [vm_compute; reflexivity | vm_compute; reflexivity | vm_compute; discriminate |].
    exists resp, resp'.
    assert (E : analyze (lib := raster_lib []) (Some stripes, "") [] tie_store
                = Match_reply stripes_response) by run.
    assert (E' : analyze (lib := raster_lib []) (Some black, "") [] tie_store
                 = Match_reply black_response) by run.
    split; [exact Hr |]. split; [exact Hr' |].
    rewrite E in Hr. rewrite E' in Hr'.
    injection Hr as Eresp. injection Hr' as Eresp'. subst resp resp'.
    repeat (split; [reflexivity |]). reflexivity.
  - destruct (analyze_descriptors_auxiliary (lib := failing_lib) [] tie_store
                stripes black "" "" 0)
      as (resp & _ & Hr & _ & _ & _ & _ & _ & _ & _ & _ & Hpal & Htex);
      [vm_compute; reflexivity | vm_compute; reflexivity | vm_compute; discriminate |].
    exists resp. split; [exact Hr |].
    split; [| split; [apply (Hpal "MemoryError"); reflexivity
                     | apply (Htex "cv2.error"); reflexivity]].
    assert (E : analyze (lib := failing_lib) (Some stripes, "") [] tie_store
                = Match_reply {| matched := true;
                                 match_id := Some "b";
                                 match_confidence := Some (10000 # 10000)%Q;
                                 hamming_distance := 0;
                                 palette := [];
                                 texture_edge_density_field := (0 # 1000000)%Q;
                                 debug := debug black_response;
                                 metadata := None;
                                 message := Some (no_match_message 0) |}) by run.
    rewrite E in Hr. injection Hr as Eresp. subst resp. reflexivity.
Defined.

(** ** Rebuild, then query *)

Section Rebuild.

Context {image : Type} {lib : Imaging image}.

Variable IMAGES_DIR : string.

Lemma precompute_step_raise (e : string) (item : string * json) :
  precompute_step IMAGES_DIR (Raise e) item = Raise e.
Proof. reflexivity. Qed.

Lemma precompute_loop_raise (l : dict json) (e : string) :
  fold_left (precompute_step IMAGES_DIR) l (Raise e) = Raise e.
Proof. induction l as [| item l IH]; [reflexivity | exact IH]. Qed.

Lemma precompute_step_malformed (st : dict Z * Z) (art_id : string) (meta : json) :
  classify IMAGES_DIR meta = Malformed ->
  exists e, precompute_step IMAGES_DIR (Return st) (art_id, meta) = Raise e.
Proof.
  destruct st as [embeddings count].
  unfold classify, precompute_step, meta_get. cbn [bind].
  destruct meta as [| | | | | | fields]; try (intros _; eexists; reflexivity).
  destruct (dict_get fields "image") as [[| b | z | f | filename | l | o] |];
    cbn [bind truthy]; try discriminate.
  - destruct b; [intros _; eexists; reflexivity | discriminate].
  - destruct (negb (z =? 0)); [intros _; eexists; reflexivity | discriminate].
  - destruct f as [q |]; [destruct (negb (Qeq_bool q 0)) |]; try discriminate;
      intros _; eexists; reflexivity.
  - destruct (String.eqb filename ""); [discriminate |]. cbn [negb].
    destruct (path_join IMAGES_DIR (JStr filename)) as [path | e];
      [| intros _; eexists; reflexivity].
    cbn [bind]. destruct (path_exists path); [| discriminate].
    destruct (fingerprint_file path); discriminate.
  - destruct l; [discriminate | intros _; eexists; reflexivity].
  - destruct o; [discriminate | intros _; eexists; reflexivity].
Qed.

(** X9: one malformed entry anywhere in the catalog (a metadata value
    that is no object, an image reference that is neither a string nor
    falsy) makes the rebuild raise, wherever the entry stands and whatever
    the others are; the store is then not written. *)
Theorem precompute_malformed_raises (ARTWORKS : dict json) (store : option (dict json))
  (art_id : string) (meta : json) :
  In (art_id, meta) ARTWORKS ->
  classify IMAGES_DIR meta = Malformed ->
  exists e, precompute IMAGES_DIR ARTWORKS store = Raise e.
Proof.
  intros Hin Hbad.
  assert (Hloop : forall acc, exists e,
             fold_left (precompute_step IMAGES_DIR) ARTWORKS acc = Raise e).
  { induction ARTWORKS as [| item l IH]; [contradiction |].
    intros acc. cbn [fold_left]. destruct Hin as [-> | Hin]; [| apply IH, Hin].
    destruct acc as [st | e].
    - destruct (precompute_step_malformed st art_id meta Hbad) as [e He].
      rewrite He. exists e. apply precompute_loop_raise.
    - exists e. apply precompute_loop_raise. }
  destruct (Hloop (Return ([], 0))) as [e He].
  destruct ARTWORKS as [| item l]; [contradiction |].
  exists e. unfold precompute. cbv iota.
  match goal with
  | |- bind ?loop ?k = _ =>
      refine (eq_trans (f_equal (fun c => bind c k) (He : loop = _)) _)
  end.
  reflexivity.
Qed.

Lemma precompute_returns (ARTWORKS : dict json) (store : option (dict json)) :
  is_dict ARTWORKS ->
  ARTWORKS <> [] ->
  (forall i m, In (i, m) ARTWORKS -> classify IMAGES_DIR m <> Malformed) ->
  precompute IMAGES_DIR ARTWORKS store
  = Return (Count_reply (Z.of_nat (List.length (valid_entries IMAGES_DIR ARTWORKS))),
            Some (save_embeddings (valid_entries IMAGES_DIR ARTWORKS))).
Proof.
  intros Hd Hne Hwf. destruct ARTWORKS as [| item rest]; [congruence |].
  pose proof (precompute_loop IMAGES_DIR (item :: rest) [] 0 Hd (fun k _ H => H) Hwf)
    as Hloop.
  unfold precompute. cbv iota.
  match goal with
  | |- bind ?loop ?k = _ =>
      refine (eq_trans (f_equal (fun c => bind c k) (Hloop : loop = _)) _)
  end.
  reflexivity.
Qed.

(** X10: rebuild, then query.  After a rebuild over a catalog of valid
    and broken entries, an upload with the fingerprint of one of the
    valid entries is matched at distance 0 with confidence 1, to an entry
    of the catalog with that fingerprint (the first of them in catalog
    order), whose record comes back as [metadata]. *)
Theorem precompute_then_analyze (ARTWORKS : dict json) (store : option (dict json))
  (art_id : string) (meta : json) (ph : Z) (img : image) (err : string) :
  is_dict ARTWORKS ->
  (forall i m, In (i, m) ARTWORKS -> classify IMAGES_DIR m <> Malformed) ->
  In (art_id, meta) ARTWORKS ->
  classify IMAGES_DIR meta = Valid ph ->
  compute_phash_from_image img = Return ph ->
  exists count store' resp winner record,
    precompute IMAGES_DIR ARTWORKS store = Return (Count_reply count, Some store') /\
    analyze (Some img, err) ARTWORKS (Some store') = Match_reply resp /\
    matched resp = true /\
    hamming_distance resp = 0 /\
    match_confidence resp = Some (10000 # 10000)%Q /\
    match_id resp = Some winner /\
    In (winner, record) ARTWORKS /\
    classify IMAGES_DIR record = Valid ph /\
    metadata resp = Some record /\
    message resp = None.
Proof.
  intros Hd Hwf Hin Hvalid Hph.
  assert (Hne : ARTWORKS <> []) by (intros ->; exact Hin).
  pose proof (precompute_returns ARTWORKS store Hd Hne Hwf) as Hpre.
  pose proof (load_save_embeddings _ (valid_entries_is_dict IMAGES_DIR ARTWORKS Hd))
    as Hload.
  pose proof (valid_entries_in IMAGES_DIR ARTWORKS) as Hindex.
  set (index := valid_entries IMAGES_DIR ARTWORKS) in *.
  assert (Hmem : In (art_id, ph) index) by (apply Hindex; exists meta; tauto).
  assert (Hne' : load_embeddings (Some (save_embeddings index)) <> []).
  { rewrite Hload. intros E. rewrite E in Hmem. exact Hmem. }
  destruct (analyze_found ARTWORKS (Some (save_embeddings index)) img err ph Hph Hne')
    as (winner & m & Hfirst & Hreply).
  rewrite Hload in Hfirst.
  assert (Hm : m = 0).
  { pose proof (first_nearest_nonneg _ _ _ _ Hfirst).
    pose proof (first_nearest_minimum _ _ _ _ Hfirst) as [_ Hlow].
    specialize (Hlow _ _ Hmem).
    rewrite (proj2 (hamming_distance_int_eq0 ph ph) eq_refl) in Hlow. lia. }
  subst m.
  assert (Hwin : In (winner, ph) index).
  { destruct Hfirst as (before & emb & after & Heq & Hz & _).
    apply (proj1 (hamming_distance_int_eq0 _ _)) in Hz. subst emb.
    rewrite Heq. apply in_or_app. right. left. reflexivity. }
  apply Hindex in Hwin. destruct Hwin as (record & Hrec & Hclass).
  assert (Hget : dict_get ARTWORKS winner = Some record)
    by (apply dict_get_present; assumption).
  assert (Hobj : exists fields, record = JObj fields).
  { unfold classify in Hclass. destruct record; try discriminate. eexists. reflexivity. }
  destruct Hobj as [fields ->].
  exists (Z.of_nat (List.length index)), (save_embeddings index).
  eexists. exists winner, (JObj fields).
  split; [exact Hpre |]. split; [exact Hreply |].
  cbn [matched hamming_distance match_confidence match_id metadata message
       lookup_metadata Z.leb Z.compare MAX_DISTANCE].
  rewrite Hget.
  repeat split; try reflexivity; assumption.
Qed.

End Rebuild.

Lemma precompute_malformed_raises_witness :
  exists e,
    precompute (lib := raster_lib gallery_files) "images"
      (gallery ++ [("broken", JStr "not an object")])%list None = Raise e.
Proof.
  apply (precompute_malformed_raises (lib := raster_lib gallery_files) "images" _ None
           "broken" (JStr "not an object")).
  - apply in_or_app. right. left. reflexivity.
  - reflexivity.
Defined.

Lemma precompute_then_analyze_witness :
  exists count store' resp winner record,
    precompute (lib := raster_lib gallery_files) "images" gallery None
    = Return (Count_reply count, Some store') /\
    analyze (lib := raster_lib gallery_files) (Some top_row, "") gallery (Some store')
    = Match_reply resp /\
    matched resp = true /\
    hamming_distance resp = 0 /\
    match_confidence resp = Some (10000 # 10000)%Q /\
    match_id resp = Some winner /\
    In (winner, record) gallery /\
    classify (lib := raster_lib gallery_files) "images" record = Valid (255 * 2 ^ 56) /\
    metadata resp = Some record /\
    message resp = None.
Proof.
  apply (precompute_then_analyze (lib := raster_lib gallery_files) "images" gallery None
           "monet" (JObj [("title", JStr "Impression"); ("image", JStr "monet.png")])).
  - exact gallery_is_dict.
  - intros i m [H | [H | [H | [H | []]]]];
      injection H as _ <-; vm_compute; discriminate.
  - left. reflexivity.
  - vm_compute. reflexivity.
  - vm_compute. reflexivity.
Defined.

(** ** The canonical image *)

Lemma float_of_int_returns (n : Z) (x : Q) :
  float_of_int n = Return x -> x = fl (inject_Z n) /\ (Qabs x < 2 ^ 1024)%Q.
Proof.
  unfold float_of_int. cbv zeta.
  destruct (overflows (fl (inject_Z n))) eqn:O; [discriminate |].
  intros [= <-]. split; [reflexivity |].
  apply Qnot_le_lt. intros H. apply Qle_bool_iff in H.
  unfold overflows in O. congruence.
Qed.

Lemma int_of_float_returns (x : Q) (n : Z) :
  int_of_float x = Return n -> n = int_of_Q x.
Proof.
  unfold int_of_float. destruct (overflows x); [discriminate |].
  intros [= <-]. reflexivity.
Qed.

(** The rounding error in numbers: a factor of 1 + 2^-53 and 2^-1075. *)
Lemma fl_upper_bound (q : Q) :
  (0 <= q)%Q ->
  (fl q <= q * (9007199254740993 # 9007199254740992) + 2 ^ (-1075))%Q.
Proof.
  intros Hq. pose proof (fl_upper q Hq) as H.
  assert (E : (1 + 2 ^ (-53) == 9007199254740993 # 9007199254740992)%Q) by reflexivity.
  rewrite E in H. exact H.
Qed.

(** A side of the image, scaled by floats, stays within a cap of at
    most 2^50: the roundings together add less than 1. *)
Lemma scaled_side_le (side max_dim max_size : Z) (max_dim_f max_size_f side_f : Q)
  (new_side : Z) :
  side <= max_dim -> 0 <= max_size < max_dim -> max_size <= 2 ^ 50 ->
  float_of_int max_dim = Return max_dim_f ->
  float_of_int max_size = Return max_size_f ->
  float_of_int side = Return side_f ->
  int_of_float (fl (side_f * fl (max_size_f / max_dim_f))) = Return new_side ->
  new_side <= max_size.
Proof.
  intros Hside [Hcap Hlt] Hbound Hmd Hms Hsf Hnew.
  apply float_of_int_returns in Hmd, Hms, Hsf.
  destruct Hmd as [-> Hfinite]. destruct Hms as [-> _]. destruct Hsf as [-> _].
  apply int_of_float_returns in Hnew. subst new_side.
  set (M := inject_Z max_size). set (md := fl (inject_Z max_dim)) in *.
  set (ms := fl M). set (s := fl (ms / md)).
  assert (HM : (0 <= M)%Q)
    by (unfold M; change 0%Q with (inject_Z 0); rewrite <- Zle_Qle; exact Hcap).
  assert (HM50 : (M <= 1125899906842624)%Q).
  { unfold M. change 1125899906842624%Q with (inject_Z (2 ^ 50)).
    rewrite <- Zle_Qle. exact Hbound. }
  assert (Hmd1 : (1 <= md)%Q) by (apply fl_positive_int; lia).
  assert (Hms0 : (0 <= ms)%Q) by (apply fl_nonneg, HM).
  assert (Hq0 : (0 <= ms / md)%Q) by (apply Qle_shift_div_l; lra).
  assert (Hs0 : (0 <= s)%Q) by (apply fl_nonneg, Hq0).
  destruct (Z_lt_le_dec side 0) as [Hneg | Hpos].
  - apply int_of_Q_le; [exact Hcap |].
    apply Qle_trans with 0%Q; [| exact HM].
    apply fl_nonpos.
    assert (Hsf : (fl (inject_Z side) <= 0)%Q).
    { apply fl_nonpos. change 0%Q with (inject_Z 0). rewrite <- Zle_Qle. lia. }
    assert (G : (0 <= - fl (inject_Z side) * s)%Q) by (apply Qmult_le_0_compat; lra).
    lra.
  - apply int_of_Q_lt; [exact Hcap |].
    rewrite inject_Z_plus. fold M. change (inject_Z 1) with 1%Q.
    set (sf := fl (inject_Z side)).
    assert (Hsf0 : (0 <= sf)%Q).
    { apply fl_nonneg. change 0%Q with (inject_Z 0). rewrite <- Zle_Qle. exact Hpos. }
    assert (Hsfmd : (sf <= md)%Q).
    { apply fl_mono.
      - change 0%Q with (inject_Z 0). rewrite <- Zle_Qle. exact Hpos.
      - rewrite <- Zle_Qle. exact Hside. }
    assert (HP0 : (0 <= sf * s)%Q) by (apply Qmult_le_0_compat; assumption).
    assert (HP : (sf * s <= md * s)%Q) by (apply Qmult_le_compat_r; assumption).
    pose proof (fl_upper_bound M HM) as Ums. fold ms in Ums.
    pose proof (fl_upper_bound (ms / md) Hq0) as Us. fold s in Us.
    pose proof (fl_upper_bound (sf * s) HP0) as Ux.
    assert (Hmds : (md * s <= ms * (9007199254740993 # 9007199254740992)
                              + md * 2 ^ (-1075))%Q).
    { apply Qle_trans with
        (md * (ms / md * (9007199254740993 # 9007199254740992) + 2 ^ (-1075)))%Q.
      - apply Qmult_le_l; [lra | exact Us].
      - apply Qle_lteq. right. field. lra. }
    assert (Habs : (Qabs md == md)%Q) by (apply Qabs_pos; lra).
    assert (Htiny : (md * 2 ^ (-1075) <= 1 # 2251799813685248)%Q).
    { apply Qle_trans with (2 ^ 1024 * 2 ^ (-1075))%Q.
      - apply Qmult_le_compat_r; [lra |]. apply Qlt_le_weak, pow2_pos.
      - apply Qle_bool_iff. vm_compute. reflexivity. }
    assert (Hd : (2 ^ (-1075) <= 1 # 2251799813685248)%Q)
      by (apply Qle_bool_iff; vm_compute; reflexivity).
    assert (Hd0 : (0 <= 2 ^ (-1075))%Q) by (apply Qlt_le_weak, pow2_pos).
    set (D := (2 ^ (-1075))%Q) in *.
    set (T := (md * D)%Q) in *.
    set (P := (sf * s)%Q) in *.
    set (R := (md * s)%Q) in *.
    lra.
Qed.

(** Beyond the precision of a float the bound is lost: the cap
    2^53 + 3 becomes the float 2^53 + 4, the scale of an image 2^53 + 4
    wide is 1, and its new width is 2^53 + 4. *)
Example scaled_side_beyond_cap :
  (cap_f <- float_of_int (2 ^ 53 + 3) ;;
   side_f <- float_of_int (2 ^ 53 + 4) ;;
   int_of_float (fl (side_f * fl (cap_f / side_f))))
  = Return (2 ^ 53 + 4).
Proof. vm_compute. reflexivity. Qed.

Section Canonical.

Context {image : Type} {lib : Imaging image}.

(** X11: with a library whose [resize] returns an image of the size it
    is asked for, neither side of the canonical image exceeds the cap,
    for every cap from 0 to 2^50; the roundings of the float arithmetic
    that scales the sides never carry a side past the cap. *)
Theorem preprocess_image_within_cap (img canonical : image) (max_size : Z) :
  (forall i wh f r, resize i wh f = Return r -> size r = wh) ->
  0 <= max_size <= 2 ^ 50 ->
  preprocess_image_for_matching img max_size = Return canonical ->
  fst (size canonical) <= max_size /\ snd (size canonical) <= max_size.
Proof.
  intros Hresize [Hcap Hbound]. unfold preprocess_image_for_matching.
  set (oriented := match exif_transpose img with
                   | Return transposed => transposed
                   | Raise _ => img
                   end).
  destruct (convert oriented "RGB") as [rgb_img | e]; [| discriminate].
  cbn [bind]. destruct (size rgb_img) as [w h] eqn:Hsize.
  destruct (Z.max w h >? max_size) eqn:Hbig.
  - apply Z.gtb_lt in Hbig.
    destruct (float_of_int (Z.max w h)) as [max_dim_f | e] eqn:Hmd; [| discriminate].
    cbn [bind].
    destruct (float_of_int max_size) as [max_size_f | e] eqn:Hms; [| discriminate].
    cbn [bind].
    destruct (Qeq_bool max_dim_f 0); [discriminate |].
    destruct (float_of_int w) as [w_f | e] eqn:Hw; [| discriminate]. cbn [bind].
    destruct (int_of_float (fl (w_f * fl (max_size_f / max_dim_f)))) as [new_w | e] eqn:Hnw;
      [| discriminate].
    cbn [bind].
    destruct (float_of_int h) as [h_f | e] eqn:Hh; [| discriminate]. cbn [bind].
    destruct (int_of_float (fl (h_f * fl (max_size_f / max_dim_f)))) as [new_h | e] eqn:Hnh;
      [| discriminate].
    cbn [bind].
    intros Hres. apply Hresize in Hres. rewrite Hres. cbn [fst snd]. split.
    + apply (scaled_side_le w (Z.max w h) max_size max_dim_f max_size_f w_f);
        try assumption; lia.
    + apply (scaled_side_le h (Z.max w h) max_size max_dim_f max_size_f h_f);
        try assumption; lia.
  - intros [= <-]. rewrite Hsize. cbn [fst snd].
    assert (Z.max w h <= max_size) by (destruct (Z.gtb_spec (Z.max w h) max_size); [discriminate | lia]).
    lia.
Qed.

End Canonical.

Lemma raster_resize_size (i : raster) (wh : Z * Z) (f : resampling) (r : raster) :
  resize (Imaging := raster_lib []) i wh f = Return r ->
  size (Imaging := raster_lib []) r = wh.
Proof.
  cbn [resize size raster_lib]. unfold raster_resize. destruct wh as [w h].
  destruct ((w <=? 0) || (h <=? 0))%bool; [discriminate |].
  intros [= <-]. reflexivity.
Qed.

(** The floats at work: 512 / 561.0 is a float just below the quotient,
    the product by 561 is rounded to the float below 512, and the new
    width is 511. *)
Example banner_preprocessed :
  preprocess_image_for_matching (lib := raster_lib []) banner 512 = Return banner_canonical /\
  size (Imaging := raster_lib []) banner_canonical = (511, 2).
Proof. run_all. Qed.

Lemma preprocess_image_within_cap_witness :
  fst (size (Imaging := raster_lib []) banner_canonical) <= 512 /\
  snd (size (Imaging := raster_lib []) banner_canonical) <= 512.
Proof.
  apply (preprocess_image_within_cap (lib := raster_lib []) banner banner_canonical 512).
  - exact raster_resize_size.
  - lia.
  - vm_compute. reflexivity.
Defined.

(** ** Analytics *)

Lemma dict_has_set {V : Type} (d : dict V) (k k' : string) (v : V) :
  dict_has (dict_set d k v) k' = (String.eqb k k' || dict_has d k')%bool.
Proof.
  unfold dict_has. rewrite dict_get_set.
  destruct (String.eqb k k'); [reflexivity |]. destruct (dict_get d k'); reflexivity.
Qed.

Lemma dict_has_keys {V : Type} (d : dict V) (k : string) :
  dict_has d k = false <-> ~ In k (keys d).
Proof.
  unfold dict_has. induction d as [| [k' v] d IH]; cbn; [tauto |].
  destruct (String.eqb_spec k' k) as [-> | Hne].
  - split; [discriminate | intros H; exfalso; apply H; left; reflexivity].
  - rewrite IH. tauto.
Qed.

Lemma dict_get_app {V : Type} (d e : dict V) (k : string) :
  dict_get (d ++ e)%list k = match dict_get d k with
                             | Some v => Some v
                             | None => dict_get e k
                             end.
Proof.
  induction d as [| [k' v'] d IH]; [reflexivity |].
  cbn. destruct (String.eqb k' k); [reflexivity | exact IH].
Qed.

(** What [stamp] makes of the fields of an event. *)
Lemma stamp_fields (fields : dict json) (fresh_id now : string) :
  exists added,
    stamp (JObj fields) fresh_id now = Return (JObj (fields ++ added)%list) /\
    added = ((if dict_has fields "id" then [] else [("id", JStr fresh_id)])
             ++ (if dict_has fields "timestamp" then [] else [("timestamp", JStr now)]))%list.
Proof.
  eexists. split; [| reflexivity].
  unfold stamp, setdefault.
  destruct (dict_has fields "id") eqn:Hid.
  - destruct (dict_has fields "timestamp") eqn:Hts; cbn [negb app].
    + rewrite app_nil_r. reflexivity.
    + rewrite dict_set_fresh by (apply dict_has_keys; exact Hts). reflexivity.
  - rewrite dict_has_set. cbn [String.eqb Ascii.eqb Bool.eqb orb].
    rewrite (dict_set_fresh fields "id") by (apply dict_has_keys; exact Hid).
    destruct (dict_has fields "timestamp") eqn:Hts; cbn [negb app].
    + reflexivity.
    + rewrite dict_set_fresh; [rewrite <- app_assoc; reflexivity |].
      unfold keys. rewrite map_app. intros Hin. apply in_app_or in Hin.
      destruct Hin as [Hin | [H | []]]; [| discriminate H].
      apply dict_has_keys in Hts. exact (Hts Hin).
Qed.

Lemma log_usable_entries (log : log_file) :
  log_usable log = true -> read_log log = JArr (log_entries log).
Proof.
  unfold log_usable, log_entries. destruct (read_log log); try discriminate. reflexivity.
Qed.

Lemma read_log_ensure (log : log_file) :
  read_log (ensure_analytics_log log) = read_log log.
Proof. destruct log; reflexivity. Qed.

(** X12: an event posted to a log that is absent, unreadable or a list
    is appended after the entries there are, which stay as they are; the
    event keeps every field it came with, in order, and gets an id and a
    timestamp only where it has none. *)
Theorem analytics_single_appends (body : option json) (fields : dict json)
  (fresh_id now : string) (log : log_file) :
  body_or_empty body = JObj fields ->
  log_usable log = true ->
  exists added,
    analytics_single body fresh_id now log
    = (Log_json (JArr (log_entries log ++ [JObj (fields ++ added)])%list),
       Return (JObj [("status", JStr "ok")], 200)) /\
    added = ((if dict_has fields "id" then [] else [("id", JStr fresh_id)])
             ++ (if dict_has fields "timestamp" then [] else [("timestamp", JStr now)]))%list /\
    (forall k v, dict_get fields k = Some v -> dict_get (fields ++ added)%list k = Some v) /\
    dict_has (fields ++ added)%list "id" = true /\
    dict_has (fields ++ added)%list "timestamp" = true.
Proof.
  intros Hbody Husable.
  destruct (stamp_fields fields fresh_id now) as (added & Hstamp & Hadded).
  exists added. split; [| split; [exact Hadded | split; [| split]]].
  - unfold analytics_single. rewrite Hbody, Hstamp. unfold log_extend.
    rewrite read_log_ensure, (log_usable_entries log Husable). reflexivity.
  - intros k v Hget. rewrite dict_get_app, Hget. reflexivity.
  - subst added. unfold dict_has. rewrite dict_get_app.
    destruct (dict_get fields "id"); reflexivity.
  - subst added. unfold dict_has. rewrite dict_get_app.
    destruct (dict_get fields "timestamp"); [reflexivity |].
    destruct (dict_get fields "id"); reflexivity.
Qed.

Lemma body_or_empty_object (fields : dict json) :
  body_or_empty (Some (JObj fields)) = JObj fields.
Proof. destruct fields; reflexivity. Qed.

Lemma analytics_single_object (fields : dict json) (fresh_id now : string)
  (entries : list json) (event : json) :
  stamp (JObj fields) fresh_id now = Return event ->
  fst (analytics_single (Some (JObj fields)) fresh_id now (Log_json (JArr entries)))
  = Log_json (JArr (entries ++ [event])).
Proof.
  intros Hstamp. unfold analytics_single.
  rewrite body_or_empty_object, Hstamp. reflexivity.
Qed.

Lemma stamp_all_objects (events : list json) (ids times : nat -> string) (i : nat) :
  forallb is_object events = true ->
  exists stamped,
    stamp_all events ids times i = Return stamped /\
    List.length stamped = List.length events /\
    forall entries,
      analytics_each events ids times i (Log_json (JArr entries))
      = Log_json (JArr (entries ++ stamped)).
Proof.
  revert i. induction events as [| e events IH]; intros i Hobj.
  - exists []. repeat split. intros entries. cbn. rewrite app_nil_r. reflexivity.
  - cbn in Hobj. apply andb_prop in Hobj. destruct Hobj as [He Hrest].
    destruct e as [| | | | | | fields]; try discriminate.
    destruct (stamp_fields fields (ids i) (times i)) as (added & Hstamp & _).
    destruct (IH (S i) Hrest) as (stamped & Hall & Hlen & Heach).
    exists (JObj (fields ++ added) :: stamped).
    split; [| split].
    + cbn [stamp_all]. rewrite Hstamp. cbn [bind]. rewrite Hall. reflexivity.
    + cbn. rewrite Hlen. reflexivity.
    + intros entries. cbn [analytics_each].
      rewrite (analytics_single_object _ _ _ _ _ Hstamp), Heach, <- app_assoc.
      reflexivity.
Qed.

Lemma analytics_each_usable (events : list json) (ids times : nat -> string) (i : nat)
  (log : log_file) :
  events <> [] ->
  forallb is_object events = true ->
  log_usable log = true ->
  analytics_each events ids times i log
  = analytics_each events ids times i (Log_json (JArr (log_entries log))).
Proof.
  destruct events as [| e rest]; [congruence |]. intros _ Hobj Husable.
  cbn in Hobj. apply andb_prop in Hobj. destruct Hobj as [He _].
  destruct e as [| | | | | | fields]; try discriminate.
  cbn [analytics_each]. f_equal.
  destruct (stamp_fields fields (ids i) (times i)) as (added & Hstamp & _).
  rewrite (analytics_single_object _ _ _ _ _ Hstamp).
  unfold analytics_single. rewrite body_or_empty_object, Hstamp. unfold log_extend.
  rewrite read_log_ensure, (log_usable_entries log Husable). reflexivity.
Qed.

(** X13: a batch of events, all objects, posted to a log that is absent,
    unreadable or a list, is answered with their number and leaves the
    log that posting them one by one would leave: the entries that were
    there, then the events in order, each with its id and timestamp. *)
Theorem analytics_batch_as_singles (body : option json) (payload : dict json)
  (events : list json) (ids times : nat -> string) (log : log_file) :
  body_or_empty body = JObj payload ->
  dict_get payload "events" = Some (JArr events) ->
  events <> [] ->
  forallb is_object events = true ->
  log_usable log = true ->
  exists stamped,
    stamp_all events ids times 0 = Return stamped /\
    List.length stamped = List.length events /\
    analytics_batch body ids times log
    = (Log_json (JArr (log_entries log ++ stamped)),
       Return (JObj [("status", JStr "ok");
                     ("received", JInt (Z.of_nat (List.length events)))], 200)) /\
    analytics_each events ids times 0 log
    = Log_json (JArr (log_entries log ++ stamped)).
Proof.
  intros Hbody Hget Hne Hobj Husable.
  destruct (stamp_all_objects events ids times 0 Hobj) as (stamped & Hall & Hlen & Heach).
  exists stamped. split; [exact Hall |]. split; [exact Hlen |]. split.
  - unfold analytics_batch, batch_events. rewrite Hbody. cbn [meta_get bind].
    rewrite Hget. destruct events as [| e rest]; [congruence |].
    cbn [truthy bind]. rewrite Hall. unfold log_extend.
    rewrite read_log_ensure, (log_usable_entries log Husable), Hlen. reflexivity.
  - rewrite (analytics_each_usable _ _ _ _ _ Hne Hobj Husable). apply Heach.
Qed.

(** X14: an analytics request that fails (an event that is no object, a
    log that holds JSON other than a list) leaves the log as it found
    it, apart from creating the empty log where there was none. *)
Theorem analytics_failure_keeps_log (body : option json) (log : log_file) :
  (forall fresh_id now e,
      snd (analytics_single body fresh_id now log) = Raise e ->
      fst (analytics_single body fresh_id now log) = ensure_analytics_log log) /\
  (forall ids times e,
      snd (analytics_batch body ids times log) = Raise e ->
      fst (analytics_batch body ids times log) = ensure_analytics_log log).
Proof.
  split.
  - intros fresh_id now e. unfold analytics_single, log_extend.
    destruct (stamp (body_or_empty body) fresh_id now); [| reflexivity].
    destruct (read_log (ensure_analytics_log log)); cbn; try reflexivity. discriminate.
  - intros ids times e. unfold analytics_batch, log_extend.
    destruct (bind (batch_events (body_or_empty body)) _); [| reflexivity].
    destruct (read_log (ensure_analytics_log log)); cbn; try reflexivity. discriminate.
Qed.

Lemma analytics_single_appends_witness :
  exists added,
    analytics_single (Some (JObj [("type", JStr "view"); ("id", JStr "e1")])) "u1" "t1"
      Log_unreadable
    = (Log_json (JArr (log_entries Log_unreadable
                       ++ [JObj ([("type", JStr "view"); ("id", JStr "e1")] ++ added)])%list),
       Return (JObj [("status", JStr "ok")], 200)) /\
    added = ((if dict_has [("type", JStr "view"); ("id", JStr "e1")] "id"
              then [] else [("id", JStr "u1")])
             ++ (if dict_has [("type", JStr "view"); ("id", JStr "e1")] "timestamp"
                 then [] else [("timestamp", JStr "t1")]))%list /\
    (forall k v, dict_get [("type", JStr "view"); ("id", JStr "e1")] k = Some v ->
                 dict_get ([("type", JStr "view"); ("id", JStr "e1")] ++ added)%list k
                 = Some v) /\
    dict_has ([("type", JStr "view"); ("id", JStr "e1")] ++ added)%list "id" = true /\
    dict_has ([("type", JStr "view"); ("id", JStr "e1")] ++ added)%list "timestamp" = true.
Proof.
  apply (analytics_single_appends
           (Some (JObj [("type", JStr "view"); ("id", JStr "e1")]))
           [("type", JStr "view"); ("id", JStr "e1")] "u1" "t1" Log_unreadable);
    reflexivity.
Defined.

Lemma analytics_batch_as_singles_witness :
  let events := [JObj [("type", JStr "view")]; JObj []] in
  let ids := fun i => match i with O => "u0" | _ => "u1" end in
  let times := fun _ : nat => "t" in
  exists stamped,
    stamp_all events ids times 0 = Return stamped /\
    List.length stamped = List.length events /\
    analytics_batch (Some (JObj [("events", JArr events)])) ids times Log_missing
    = (Log_json (JArr (log_entries Log_missing ++ stamped)),
       Return (JObj [("status", JStr "ok");
                     ("received", JInt (Z.of_nat (List.length events)))], 200)) /\
    analytics_each events ids times 0 Log_missing
    = Log_json (JArr (log_entries Log_missing ++ stamped)).
Proof.
  intros events ids times.
  apply (analytics_batch_as_singles (Some (JObj [("events", JArr events)]))
           [("events", JArr events)] events ids times Log_missing);
    try reflexivity.
  discriminate.
Defined.

Lemma analytics_failure_keeps_log_witness :
  fst (analytics_single (Some (JStr "view")) "u1" "t1" Log_missing)
  = ensure_analytics_log Log_missing /\
  fst (analytics_batch (Some (JObj [("events", JInt 5)])) (fun _ => "u") (fun _ => "t")
         (Log_json (JArr [JNull])))
  = ensure_analytics_log (Log_json (JArr [JNull])).
Proof.
  split.
  - apply (proj1 (analytics_failure_keeps_log (Some (JStr "view")) Log_missing)
             "u1" "t1" "AttributeError").
    reflexivity.
  - apply (proj2 (analytics_failure_keeps_log (Some (JObj [("events", JInt 5)]))
                    (Log_json (JArr [JNull])))
             (fun _ => "u") (fun _ => "t") "TypeError").
    reflexivity.
Defined.

(** ** Admin authentication *)

Lemma prefix_has_char (pat s : string) (c : ascii) :
  String.prefix pat s = true -> has_char c pat = true -> has_char c s = true.
Proof.
  revert s. induction pat as [| a pat IH]; intros s Hp Hc; [discriminate |].
  destruct s as [| b s]; [discriminate |]. cbn in Hp.
  destruct (ascii_dec a b) as [<- | _]; [| discriminate].
  cbn in *. destruct (Ascii.eqb a c); [reflexivity |]. cbn in *. apply IH; assumption.
Qed.

Lemma remove_all_absent (pat s : string) (c : ascii) :
  has_char c pat = true -> has_char c s = false -> remove_all pat 0 s = s.
Proof.
  intros Hpat. induction s as [| a s IH]; intros Hs; [reflexivity |].
  cbn [remove_all].
  destruct (String.prefix pat (String a s)) eqn:Hp.
  - rewrite (prefix_has_char _ _ c Hp Hpat) in Hs. discriminate.
  - cbn in Hs. apply orb_false_iff in Hs. rewrite (IH (proj2 Hs)). reflexivity.
Qed.

Lemma bearer_token_header (token : string) :
  has_char " " token = false -> bearer_token (Some ("Bearer " ++ token)) = token.
Proof.
  intros Hs. unfold bearer_token.
  destruct token as [| c t]; [reflexivity |]. cbn.
  apply (remove_all_absent "Bearer " (String c t) " "); [reflexivity | exact Hs].
Qed.

(** X15: posting the admin password stores the new token and returns
    it; from then on the header [Bearer <token>] passes [require_admin]
    (for a token that is not empty and holds no space), and every header
    that passed before still does. *)
Theorem admin_login_authorizes (ADMIN_PASSWORD : string) (body : option json)
  (data : dict json) (token now : string) (ADMIN_TOKENS : dict string) :
  body_or_empty body = JObj data ->
  dict_get data "password" = Some (JStr ADMIN_PASSWORD) ->
  token <> "" ->
  has_char " " token = false ->
  exists tokens',
    admin_login ADMIN_PASSWORD body token now ADMIN_TOKENS
    = (tokens', Return (JObj [("token", JStr token); ("status", JStr "ok")], 200)) /\
    authorized tokens' (Some ("Bearer " ++ token)) = true /\
    (forall header, authorized ADMIN_TOKENS header = true ->
                    authorized tokens' header = true).
Proof.
  intros Hbody Hpw Hne Hspace.
  exists (dict_set ADMIN_TOKENS token now). split; [| split].
  - unfold admin_login, dict_get_default. rewrite Hbody, Hpw, String.eqb_refl.
    reflexivity.
  - unfold authorized. rewrite (bearer_token_header token Hspace).
    rewrite dict_has_set, String.eqb_refl.
    destruct (String.eqb_spec token ""); [contradiction | reflexivity].
  - intros header. unfold authorized. rewrite dict_has_set.
    destruct (String.eqb (bearer_token header) ""); [discriminate |].
    cbn [orb negb]. intros H. apply negb_true_iff, negb_false_iff in H.
    rewrite H, orb_true_r. reflexivity.
Qed.

(** X16: a login changes the token store only when the posted password
    (the empty string when none is posted) is the admin password; any
    other request leaves it as it is, and while no token has been issued
    no header passes [require_admin]: the guarded handler is not run and
    the answer is 401. *)
Theorem admin_login_rejects (ADMIN_PASSWORD : string) (body : option json)
  (token now : string) (ADMIN_TOKENS : dict string) :
  (fst (admin_login ADMIN_PASSWORD body token now ADMIN_TOKENS) <> ADMIN_TOKENS ->
   exists data, body_or_empty body = JObj data /\
                dict_get_default data "password" (JStr "") = JStr ADMIN_PASSWORD) /\
  (forall (S : Type) (f : S -> S * exc http_reply) (st : S) header,
      require_admin [] header f st
      = (st, Return (JObj [("error", JStr "Unauthorized")], 401))).
Proof.
  split.
  - unfold admin_login.
    destruct (body_or_empty body) as [| | | | | | data];
      try (intros H; exfalso; apply H; reflexivity).
    intros H. exists data. split; [reflexivity |].
    destruct (dict_get_default data "password" (JStr "")) as [| b | z | f | p | l | o];
      try (exfalso; apply H; reflexivity).
    destruct (String.eqb p ADMIN_PASSWORD) eqn:E;
      [| exfalso; apply H; reflexivity].
    apply String.eqb_eq in E. rewrite E. reflexivity.
  - intros S f st header. unfold require_admin, authorized.
    cbn [dict_has dict_get]. rewrite orb_true_r. reflexivity.
Qed.

Lemma admin_login_authorizes_witness :
  exists tokens',
    admin_login "admin123" (Some (JObj [("password", JStr "admin123")])) "tok-1" "t0" []
    = (tokens', Return (JObj [("token", JStr "tok-1"); ("status", JStr "ok")], 200)) /\
    authorized tokens' (Some ("Bearer " ++ "tok-1")) = true /\
    (forall header, authorized [] header = true -> authorized tokens' header = true).
Proof.
  apply (admin_login_authorizes "admin123" (Some (JObj [("password", JStr "admin123")]))
           [("password", JStr "admin123")] "tok-1" "t0" []);
    try reflexivity.
  discriminate.
Defined.

Lemma admin_login_rejects_witness :
  exists data,
    body_or_empty (Some (JObj [("password", JStr "admin123")])) = JObj data /\
    dict_get_default data "password" (JStr "") = JStr "admin123".
Proof.
  apply (proj1 (admin_login_rejects "admin123"
                  (Some (JObj [("password", JStr "admin123")])) "tok-1" "t0" [])).
  discriminate.
Defined.

(** ** The catalog routes *)

Lemma dict_del_fresh {V : Type} (d : dict V) (k : string) :
  ~ In k (keys d) -> dict_del d k = d.
Proof.
  induction d as [| [k' v] d IH]; cbn; intros Hk; [reflexivity |].
  destruct (String.eqb_spec k' k) as [-> | Hne]; [tauto |].
  rewrite IH by tauto. reflexivity.
Qed.

Lemma dict_del_last {V : Type} (d : dict V) (k : string) (v : V) :
  ~ In k (keys d) -> dict_del (d ++ [(k, v)])%list k = d.
Proof.
  induction d as [| [k' v'] d IH]; cbn; intros Hk.
  - rewrite String.eqb_refl. reflexivity.
  - destruct (String.eqb_spec k' k) as [-> | Hne]; [tauto |].
    rewrite IH by tauto. reflexivity.
Qed.

Lemma dict_del_keys_incl {V : Type} (d : dict V) (k x : string) :
  In x (keys (dict_del d k)) -> In x (keys d).
Proof.
  induction d as [| [k' v] d IH]; cbn; [tauto |].
  destruct (String.eqb k' k); cbn; [tauto |]. intros [H | H]; [left | right; apply IH]; assumption.
Qed.

Lemma dict_del_is_dict {V : Type} (d : dict V) (k : string) :
  is_dict d -> is_dict (dict_del d k).
Proof.
  unfold is_dict. induction d as [| [k' v] d IH]; cbn; intros Hd; [constructor |].
  inversion Hd as [| ? ? Hk' Hd']; subst.
  destruct (String.eqb k' k); [exact Hd' |]. cbn. constructor; [| apply IH, Hd'].
  intros Hin. apply Hk'. eapply dict_del_keys_incl. exact Hin.
Qed.

Lemma dict_get_del {V : Type} (d : dict V) (k k' : string) :
  is_dict d ->
  dict_get (dict_del d k) k' = if String.eqb k k' then None else dict_get d k'.
Proof.
  unfold is_dict. induction d as [| [k0 v] d IH]; cbn; intros Hd.
  - destruct (String.eqb k k'); reflexivity.
  - inversion Hd as [| ? ? Hk0 Hd']; subst.
    destruct (String.eqb k0 k) eqn:E0.
    + apply String.eqb_eq in E0. subst k0.
      destruct (String.eqb k k') eqn:E1; [| reflexivity].
      apply String.eqb_eq in E1. subst k'. apply dict_get_absent. exact Hk0.
    + cbn. rewrite (IH Hd').
      destruct (String.eqb k0 k') eqn:E2; [| reflexivity].
      apply String.eqb_eq in E2. subst k'. rewrite String.eqb_sym, E0. reflexivity.
Qed.

Lemma filter_keys_absent (l : list string) (k : string) :
  ~ In k l -> filter (fun x => negb (String.eqb x k)) l = l.
Proof.
  induction l as [| x l IH]; cbn; intros Hk; [reflexivity |].
  destruct (String.eqb_spec x k); [tauto |]. cbn. rewrite IH by tauto. reflexivity.
Qed.

Lemma new_artwork_truthy (art_id : json) (data : dict json) :
  truthy (new_artwork art_id data) = true.
Proof. reflexivity. Qed.

(** X17: creating an artwork under a new id (a non-empty string) adds
    it at the end of the catalog, mirrors the catalog to the file and
    leaves the other entries as they are; the artwork is then returned by
    the admin route and by [/artwork/<id>], and creating the same id
    again is refused with status 400 and changes nothing. *)
Theorem admin_create_then_get (body : option json) (data : dict json) (id : string)
  (st : catalog) :
  body_or_empty body = JObj data ->
  dict_get data "id" = Some (JStr id) ->
  id <> "" ->
  dict_has (artworks st) id = false ->
  exists st',
    let artwork := new_artwork (JStr id) data in
    admin_create_artwork body st
    = Some (st', Return (JObj [("status", JStr "ok"); ("artwork", artwork)], 200)) /\
    artworks st' = (artworks st ++ [(id, artwork)])%list /\
    artworks_json st' = Some (artworks st') /\
    (forall other, other <> id ->
                   dict_get (artworks st') other = dict_get (artworks st) other) /\
    admin_get_artwork id st' = (st', Return (JObj [("artwork", artwork)], 200)) /\
    artwork_meta id (artworks st') = (artwork, 200) /\
    admin_create_artwork body st'
    = Some (st', Return (JObj [("error", JStr "Artwork ID already exists")], 400)).
Proof.
  intros Hbody Hid Hne Hnew.
  pose proof (proj1 (dict_has_keys _ _) Hnew) as Hfresh.
  exists (store_artwork st id (new_artwork (JStr id) data)).
  cbv zeta.
  assert (Hart : artworks (store_artwork st id (new_artwork (JStr id) data))
                 = (artworks st ++ [(id, new_artwork (JStr id) data)])%list).
  { cbn [store_artwork artworks]. apply dict_set_fresh, Hfresh. }
  assert (Htruthy : truthy (JStr id) = true).
  { cbn. destruct (String.eqb_spec id ""); [contradiction | reflexivity]. }
  assert (Hget : dict_get (artworks (store_artwork st id (new_artwork (JStr id) data))) id
                 = Some (new_artwork (JStr id) data)).
  { cbn [store_artwork artworks]. rewrite dict_get_set, String.eqb_refl. reflexivity. }
  split; [| split; [exact Hart | split; [reflexivity | split; [| split; [| split]]]]].
  - unfold admin_create_artwork, dict_get_default.
    rewrite Hbody, Hid, Htruthy, Hnew. reflexivity.
  - intros other Hother. cbn [store_artwork artworks]. rewrite dict_get_set.
    destruct (String.eqb_spec id other); [congruence | reflexivity].
  - unfold admin_get_artwork. rewrite Hget. reflexivity.
  - unfold artwork_meta. rewrite Hget. reflexivity.
  - unfold admin_create_artwork, dict_get_default.
    rewrite Hbody, Hid, Htruthy. cbn [negb].
    unfold dict_has at 1. rewrite Hget. reflexivity.
Qed.

(** X18: deleting an artwork that was just created under a new id
    gives back the catalog as it was before the creation, entry for
    entry and in the same order. *)
Theorem admin_create_then_delete (body : option json) (data : dict json) (id : string)
  (st st' : catalog) (r : exc http_reply) :
  body_or_empty body = JObj data ->
  dict_get data "id" = Some (JStr id) ->
  id <> "" ->
  dict_has (artworks st) id = false ->
  admin_create_artwork body st = Some (st', r) ->
  admin_delete_artwork id st'
  = ({| artworks := artworks st; artworks_json := Some (artworks st) |},
     Return (JObj [("status", JStr "ok")], 200)).
Proof.
  intros Hbody Hid Hne Hnew Hcreate.
  pose proof (proj1 (dict_has_keys _ _) Hnew) as Hfresh.
  assert (Htruthy : truthy (JStr id) = true).
  { cbn. destruct (String.eqb_spec id ""); [contradiction | reflexivity]. }
  unfold admin_create_artwork, dict_get_default in Hcreate.
  rewrite Hbody, Hid, Htruthy, Hnew in Hcreate. cbn [negb] in Hcreate.
  injection Hcreate as <- _.
  unfold admin_delete_artwork, dict_has. cbn [store_artwork artworks].
  rewrite dict_get_set, String.eqb_refl. cbn [negb].
  rewrite dict_set_fresh by exact Hfresh.
  rewrite dict_del_last by exact Hfresh. reflexivity.
Qed.

(** X19: deleting an artwork of the catalog removes that entry and no
    other, keeps the order of the rest and mirrors the catalog to the
    file; the id is then not found by the admin route nor by
    [/artwork/<id>], and a second deletion is answered with 404 and
    changes nothing. *)
Theorem admin_delete_removes (id : string) (st : catalog) :
  is_dict (artworks st) ->
  dict_has (artworks st) id = true ->
  exists st',
    admin_delete_artwork id st = (st', Return (JObj [("status", JStr "ok")], 200)) /\
    artworks_json st' = Some (artworks st') /\
    dict_get (artworks st') id = None /\
    (forall other, other <> id ->
                   dict_get (artworks st') other = dict_get (artworks st) other) /\
    keys (artworks st') = filter (fun k => negb (String.eqb k id)) (keys (artworks st)) /\
    admin_get_artwork id st' = (st', Return (JObj [("error", JStr "Not found")], 404)) /\
    artwork_meta id (artworks st') = (JObj [("error", JStr "not found")], 404) /\
    admin_delete_artwork id st' = (st', Return (JObj [("error", JStr "Not found")], 404)).
Proof.
  intros Hd Hhas.
  exists {| artworks := dict_del (artworks st) id;
            artworks_json := Some (dict_del (artworks st) id) |}.
  assert (Hgone : dict_get (dict_del (artworks st) id) id = None)
    by (rewrite dict_get_del by exact Hd; rewrite String.eqb_refl; reflexivity).
  split; [unfold admin_delete_artwork; rewrite Hhas; reflexivity |].
  split; [reflexivity |]. split; [exact Hgone |].
  split.
  { intros other Hother. cbn [artworks]. rewrite dict_get_del by exact Hd.
    destruct (String.eqb_spec id other); [congruence | reflexivity]. }
  split.
  { cbn [artworks]. clear Hgone Hhas. unfold is_dict in Hd.
    induction (artworks st) as [| [k v] d IH]; [reflexivity |].
    inversion Hd as [| ? ? Hk Hd']; subst. cbn [dict_del keys map fst filter].
    destruct (String.eqb_spec k id) as [-> | Hne]; cbn [negb].
    - symmetry. apply filter_keys_absent. exact Hk.
    - cbn [keys map fst]. f_equal. apply IH, Hd'. }
  split; [unfold admin_get_artwork; cbn [artworks]; rewrite Hgone; reflexivity |].
  split; [unfold artwork_meta; cbn [artworks]; rewrite Hgone; reflexivity |].
  unfold admin_delete_artwork, dict_has. cbn [artworks]. rewrite Hgone. reflexivity.
Qed.

Lemma update_fields_object (data fields : dict json) (keys : list string) :
  exists fields',
    update_fields (JObj fields) (JObj data) keys = Return (JObj fields') /\
    forall k,
      dict_get fields' k
      = if existsb (String.eqb k) keys
        then match dict_get data k with
             | Some v => Some v
             | None => dict_get fields k
             end
        else dict_get fields k.
Proof.
  revert fields. induction keys as [| key keys IH]; intros fields.
  - exists fields. split; reflexivity.
  - cbn [update_fields request_field bind].
    destruct (dict_get data key) as [value |] eqn:Hd.
    + cbn [set_field bind].
      destruct (IH (dict_set fields key value)) as (fields' & Hrun & Hget).
      exists fields'. split; [exact Hrun |].
      intros k. rewrite Hget, dict_get_set. cbn [existsb].
      destruct (String.eqb k key) eqn:E.
      * apply String.eqb_eq in E. subst k. rewrite Hd, String.eqb_refl. cbn [orb].
        destruct (existsb (String.eqb key) keys); reflexivity.
      * rewrite String.eqb_sym, E. reflexivity.
    + destruct (IH fields) as (fields' & Hrun & Hget).
      exists fields'. split; [exact Hrun |].
      intros k. rewrite Hget. cbn [existsb].
      destruct (String.eqb k key) eqn:E; [| reflexivity].
      apply String.eqb_eq in E. subst k. rewrite Hd. cbn [orb].
      destruct (existsb (String.eqb key) keys); reflexivity.
Qed.

(** X20: updating an artwork that is an object from a request body
    that is an object gives each of the thirteen updatable fields the
    value the body has for it and leaves every other field, the id among
    them, and every other artwork as it was; keys of the body outside
    the thirteen are ignored.  An id that is not in the catalog is
    answered with 404 and changes nothing. *)
Theorem admin_update_fields (id : string) (body : option json) (data fields : dict json)
  (st : catalog) :
  body_or_empty body = JObj data ->
  dict_get (artworks st) id = Some (JObj fields) ->
  exists fields',
    admin_update_artwork id body st
    = (store_artwork st id (JObj fields'),
       Return (JObj [("status", JStr "ok"); ("artwork", JObj fields')], 200)) /\
    (forall k,
        dict_get fields' k
        = if existsb (String.eqb k) updatable
          then match dict_get data k with
               | Some v => Some v
               | None => dict_get fields k
               end
          else dict_get fields k) /\
    dict_get fields' "id" = dict_get fields "id" /\
    dict_get (artworks (store_artwork st id (JObj fields'))) id = Some (JObj fields') /\
    (forall other, other <> id ->
                   dict_get (artworks (store_artwork st id (JObj fields'))) other
                   = dict_get (artworks st) other) /\
    keys (artworks (store_artwork st id (JObj fields'))) = keys (artworks st) /\
    (forall missing, dict_get (artworks st) missing = None ->
                     admin_update_artwork missing body st
                     = (st, Return (JObj [("error", JStr "Not found")], 404))).
Proof.
  intros Hbody Hget.
  destruct (update_fields_object data fields updatable) as (fields' & Hrun & Hfields).
  exists fields'. split; [| split; [exact Hfields | split; [| split; [| split; [| split]]]]].
  - unfold admin_update_artwork. rewrite Hget, Hbody, Hrun. reflexivity.
  - rewrite Hfields. reflexivity.
  - cbn [store_artwork artworks]. rewrite dict_get_set, String.eqb_refl. reflexivity.
  - intros other Hother. cbn [store_artwork artworks]. rewrite dict_get_set.
    destruct (String.eqb_spec id other); [congruence | reflexivity].
  - cbn [store_artwork artworks]. apply dict_set_keys_present.
    destruct (in_dec string_dec id (keys (artworks st))) as [Hin | Hout]; [exact Hin |].
    rewrite (dict_get_absent _ _ Hout) in Hget. discriminate.
  - intros missing Hmiss. unfold admin_update_artwork. rewrite Hmiss. reflexivity.
Qed.

Section CatalogAndRebuild.

Context {image : Type} {lib : Imaging image}.

Variable IMAGES_DIR : string.

Lemma valid_entries_app (l l' : dict json) :
  valid_entries IMAGES_DIR (l ++ l')%list
  = (valid_entries IMAGES_DIR l ++ valid_entries IMAGES_DIR l')%list.
Proof. unfold valid_entries. apply flat_map_app. Qed.

(** X21: an artwork created without an image reference (or with a
    falsy one) is a broken entry for the rebuild: it is skipped, and the
    index of the catalog is the one from before the creation. *)
Theorem admin_create_without_image (body : option json) (data : dict json) (id : string)
  (st st' : catalog) (r : exc http_reply) :
  body_or_empty body = JObj data ->
  dict_get data "id" = Some (JStr id) ->
  id <> "" ->
  dict_has (artworks st) id = false ->
  truthy (dict_get_default data "image" (JStr "")) = false ->
  admin_create_artwork body st = Some (st', r) ->
  classify IMAGES_DIR (new_artwork (JStr id) data) = Broken /\
  valid_entries IMAGES_DIR (artworks st') = valid_entries IMAGES_DIR (artworks st).
Proof.
  intros Hbody Hid Hne Hnew Himg Hcreate.
  assert (Hclass : classify IMAGES_DIR (new_artwork (JStr id) data) = Broken).
  { unfold classify, new_artwork.
    set (v := dict_get_default data "image" (JStr "")) in *.
    change (dict_get _ "image") with (Some v).
    destruct v as [| b | z | f | s | l | o]; cbn [truthy] in Himg.
    - reflexivity.
    - cbn [truthy]. rewrite Himg. reflexivity.
    - cbn [truthy]. rewrite Himg. reflexivity.
    - cbn [truthy]. rewrite Himg. reflexivity.
    - apply negb_false_iff in Himg. rewrite Himg. reflexivity.
    - cbn [truthy]. rewrite Himg. reflexivity.
    - cbn [truthy]. rewrite Himg. reflexivity. }
  split; [exact Hclass |].
  pose proof (proj1 (dict_has_keys _ _) Hnew) as Hfresh.
  assert (Htruthy : truthy (JStr id) = true).
  { cbn. destruct (String.eqb_spec id ""); [contradiction | reflexivity]. }
  unfold admin_create_artwork, dict_get_default in Hcreate.
  rewrite Hbody, Hid, Htruthy, Hnew in Hcreate. cbn [negb] in Hcreate.
  injection Hcreate as <- _. cbn [store_artwork artworks].
  rewrite dict_set_fresh by exact Hfresh. rewrite valid_entries_app.
  cbn [valid_entries flat_map snd]. rewrite Hclass. cbn [app].
  apply app_nil_r.
Qed.

End CatalogAndRebuild.

(** The catalog stays a dictionary, every id once, under
    creation, update and deletion. *)
Theorem admin_routes_keep_dict (st : catalog) :
  is_dict (artworks st) ->
  (forall body st' r, admin_create_artwork body st = Some (st', r) ->
                      is_dict (artworks st')) /\
  (forall id body, is_dict (artworks (fst (admin_update_artwork id body st)))) /\
  (forall id, is_dict (artworks (fst (admin_delete_artwork id st)))).
Proof.
  intros Hd. split; [| split].
  - intros body st' r. unfold admin_create_artwork.
    destruct (body_or_empty body) as [| | | | | | data]; try (intros [= <- _]; exact Hd).
    destruct (negb (truthy (dict_get_default data "id" JNull)));
      [intros [= <- _]; exact Hd |].
    destruct (dict_get_default data "id" JNull) as [| b | z | f | id | l | o];
      try discriminate; try (intros [= <- _]; exact Hd).
    destruct (dict_has (artworks st) id); intros [= <- _]; [exact Hd |].
    cbn [store_artwork artworks]. apply dict_set_is_dict, Hd.
  - intros id body. unfold admin_update_artwork.
    destruct (dict_get (artworks st) id) as [artwork |]; [| exact Hd].
    destruct (update_fields artwork (body_or_empty body) updatable); [| exact Hd].
    cbn [fst store_artwork artworks]. apply dict_set_is_dict, Hd.
  - intros id. unfold admin_delete_artwork.
    destruct (negb (dict_has (artworks st) id)); [exact Hd |].
    cbn [fst artworks]. apply dict_del_is_dict, Hd.
Qed.

Lemma admin_create_then_get_witness :
  exists st',
    let artwork := new_artwork (JStr "rodin") [("id", JStr "rodin"); ("title", JStr "Le Penseur")] in
    admin_create_artwork (Some (JObj [("id", JStr "rodin"); ("title", JStr "Le Penseur")])) museum
    = Some (st', Return (JObj [("status", JStr "ok"); ("artwork", artwork)], 200)) /\
    artworks st' = (artworks museum ++ [("rodin", artwork)])%list /\
    artworks_json st' = Some (artworks st') /\
    (forall other, other <> "rodin" ->
                   dict_get (artworks st') other = dict_get (artworks museum) other) /\
    admin_get_artwork "rodin" st' = (st', Return (JObj [("artwork", artwork)], 200)) /\
    artwork_meta "rodin" (artworks st') = (artwork, 200) /\
    admin_create_artwork (Some (JObj [("id", JStr "rodin"); ("title", JStr "Le Penseur")])) st'
    = Some (st', Return (JObj [("error", JStr "Artwork ID already exists")], 400)).
Proof.
  apply (admin_create_then_get
           (Some (JObj [("id", JStr "rodin"); ("title", JStr "Le Penseur")]))
           [("id", JStr "rodin"); ("title", JStr "Le Penseur")] "rodin" museum);
    try reflexivity.
  discriminate.
Defined.

Lemma admin_create_then_delete_witness :
  admin_delete_artwork "rodin"
    (store_artwork museum "rodin" (new_artwork (JStr "rodin") [("id", JStr "rodin")]))
  = ({| artworks := artworks museum; artworks_json := Some (artworks museum) |},
     Return (JObj [("status", JStr "ok")], 200)).
Proof.
  apply (admin_create_then_delete (Some (JObj [("id", JStr "rodin")]))
           [("id", JStr "rodin")] "rodin" museum _
           (Return (JObj [("status", JStr "ok");
                          ("artwork", new_artwork (JStr "rodin") [("id", JStr "rodin")])],
                    200)));
    try reflexivity.
  discriminate.
Defined.

Lemma admin_delete_removes_witness :
  exists st',
    admin_delete_artwork "degas" museum
    = (st', Return (JObj [("status", JStr "ok")], 200)) /\
    artworks_json st' = Some (artworks st') /\
    dict_get (artworks st') "degas" = None /\
    (forall other, other <> "degas" ->
                   dict_get (artworks st') other = dict_get (artworks museum) other) /\
    keys (artworks st')
    = filter (fun k => negb (String.eqb k "degas")) (keys (artworks museum)) /\
    admin_get_artwork "degas" st'
    = (st', Return (JObj [("error", JStr "Not found")], 404)) /\
    artwork_meta "degas" (artworks st') = (JObj [("error", JStr "not found")], 404) /\
    admin_delete_artwork "degas" st'
    = (st', Return (JObj [("error", JStr "Not found")], 404)).
Proof.
  apply (admin_delete_removes "degas" museum).
  - exact gallery_is_dict.
  - reflexivity.
Defined.

Lemma admin_update_fields_witness :
  exists fields',
    dict_get fields' "title" = Some (JStr "Impression, soleil levant") /\
    dict_get fields' "image" = Some (JStr "monet.png") /\
    dict_get fields' "id" = None.
Proof.
  destruct (admin_update_fields "monet"
              (Some (JObj [("title", JStr "Impression, soleil levant"); ("id", JStr "x")]))
              [("title", JStr "Impression, soleil levant"); ("id", JStr "x")]
              [("title", JStr "Impression"); ("image", JStr "monet.png")]
              museum eq_refl eq_refl)
    as (fields' & _ & Hfields & Hid & _).
  exists fields'. split; [| split].
  - rewrite Hfields. reflexivity.
  - rewrite Hfields. reflexivity.
  - rewrite Hid. reflexivity.
Defined.

Lemma admin_create_without_image_witness :
  classify (lib := raster_lib gallery_files) "images"
    (new_artwork (JStr "rodin") [("id", JStr "rodin")]) = Broken /\
  valid_entries (lib := raster_lib gallery_files) "images"
    (artworks (store_artwork museum "rodin" (new_artwork (JStr "rodin") [("id", JStr "rodin")])))
  = valid_entries (lib := raster_lib gallery_files) "images" (artworks museum).
Proof.
  apply (admin_create_without_image (lib := raster_lib gallery_files) "images"
           (Some (JObj [("id", JStr "rodin")])) [("id", JStr "rodin")] "rodin" museum _
           (Return (JObj [("status", JStr "ok");
                          ("artwork", new_artwork (JStr "rodin") [("id", JStr "rodin")])],
                    200)));
    try reflexivity.
  discriminate.
Defined.


(** ** Uploaded images *)

Lemma ends_with_append (suffix a : string) : ends_with suffix (a ++ suffix) = true.
Proof.
  induction a as [| c a IH]; cbn [String.append ends_with].
  - destruct suffix; cbn [ends_with]; rewrite String.eqb_refl; reflexivity.
  - destruct (String.eqb (String c (a ++ suffix)) suffix); [reflexivity | exact IH].
Qed.

Lemma lower_append (a b : string) : lower (a ++ b) = lower a ++ lower b.
Proof.
  induction a as [| c a IH]; cbn [String.append lower]; [reflexivity |].
  rewrite IH. reflexivity.
Qed.

Lemma has_image_extension_jpg (f : string) : has_image_extension (f ++ ".jpg") = true.
Proof.
  unfold has_image_extension, image_extensions. cbn [existsb].
  rewrite lower_append.
  change (lower ".jpg") with ".jpg".
  rewrite ends_with_append. reflexivity.
Qed.

Lemma has_image_extension_checked (f : string) :
  has_image_extension (if negb (has_image_extension f) then f ++ ".jpg" else f) = true.
Proof.
  destruct (has_image_extension f) eqn:E; cbn [negb].
  - exact E.
  - apply has_image_extension_jpg.
Qed.

Lemma has_image_extension_nonempty (f : string) :
  has_image_extension f = true -> String.eqb f "" = false.
Proof. destruct f; [discriminate | reflexivity]. Qed.

Lemma path_join_returns (dir f : string) : exists path, path_join dir (JStr f) = Return path.
Proof.
  unfold path_join.
  destruct f as [| c f].
  - destruct (String.eqb dir "" || ends_with_slash dir)%bool; eexists; reflexivity.
  - destruct c as [[] [] [] [] [] [] [] []];
      destruct (String.eqb dir "" || ends_with_slash dir)%bool; eexists; reflexivity.
Qed.

Section UploadAndRebuild.

Context {image : Type} {lib : Imaging image} {up : Uploads image}.

Variable IMAGES_DIR : string.

(** X22: an image uploaded for a catalogued artwork is saved under the
    artwork's recorded image name, or under that name with .jpg appended
    when it has none of the four image extensions (for an artwork with
    no image field, under <id>.jpg).  The name is written back to the
    artwork and the catalog is persisted, the other fields are kept, and
    the file lands on the path where the rebuild looks for the artwork's
    image: from then on the rebuild classifies the artwork by the saved
    file alone. *)
Theorem admin_upload_image_recorded (art_id name content : string) (fields : dict json)
  (f : string) (st : catalog) :
  name <> "" ->
  dict_get (artworks st) art_id = Some (JObj fields) ->
  fields <> [] ->
  dict_get_default fields "image" (JStr (art_id ++ ".jpg")) = JStr f ->
  (forall path, file_save path content = Return tt) ->
  let filename := if has_image_extension f then f else f ++ ".jpg" in
  let artwork := JObj (dict_set fields "image" (JStr filename)) in
  exists filepath,
    path_join IMAGES_DIR (JStr filename) = Return filepath /\
    admin_upload_image IMAGES_DIR art_id (Some (name, content)) st
    = (store_artwork st art_id artwork, Some filepath,
       Return (JObj [("status", JStr "ok"); ("filename", JStr filename)], 200)) /\
    has_image_extension filename = true /\
    (forall key, key <> "image" ->
                 dict_get (dict_set fields "image" (JStr filename)) key = dict_get fields key) /\
    classify IMAGES_DIR artwork
    = (if path_exists filepath
       then match fingerprint_file filepath with
            | Return ph => Valid ph
            | Raise _ => Broken
            end
       else Broken).
Proof.
  intros Hname Hart Hfields Himage Hsave filename artwork.
  assert (Hext : has_image_extension filename = true).
  { subst filename. destruct (has_image_extension f) eqn:E;
      [exact E | apply has_image_extension_jpg]. }
  destruct (path_join_returns IMAGES_DIR filename) as [filepath Hpath].
  exists filepath. split; [exact Hpath |]. split; [| split; [exact Hext | split]].
  - unfold admin_upload_image.
    destruct (String.eqb_spec name "") as [E | _]; [contradiction |].
    rewrite Hart.
    assert (Ht : truthy (JObj fields) = true) by (destruct fields; [contradiction | reflexivity]).
    rewrite Ht, Himage.
    replace (if negb (has_image_extension f) then f ++ ".jpg" else f) with filename
      by (subst filename; destruct (has_image_extension f); reflexivity).
    rewrite Hpath, Hsave. reflexivity.
  - intros key Hkey. rewrite dict_get_set.
    destruct (String.eqb_spec "image" key) as [E | _]; [| reflexivity].
    contradiction Hkey. symmetry. exact E.
  - unfold artwork, classify.
    rewrite dict_get_set. cbn [String.eqb Ascii.eqb Bool.eqb].
    rewrite (has_image_extension_nonempty _ Hext), Hpath. reflexivity.
Qed.

(** X23: an upload for an id that is not in the catalog is not refused:
    the route answers 200, the file is written as <id>.jpg in the images
    directory, and the catalog is neither changed nor persisted. *)
Theorem admin_upload_image_unknown (art_id name content : string) (st : catalog) :
  name <> "" ->
  dict_get (artworks st) art_id = None ->
  (forall path, file_save path content = Return tt) ->
  exists filepath,
    path_join IMAGES_DIR (JStr (art_id ++ ".jpg")) = Return filepath /\
    admin_upload_image IMAGES_DIR art_id (Some (name, content)) st
    = (st, Some filepath,
       Return (JObj [("status", JStr "ok"); ("filename", JStr (art_id ++ ".jpg"))], 200)).
Proof.
  intros Hname Hart Hsave.
  destruct (path_join_returns IMAGES_DIR (art_id ++ ".jpg")) as [filepath Hpath].
  exists filepath. split; [exact Hpath |].
  unfold admin_upload_image.
  destruct (String.eqb_spec name "") as [E | _]; [contradiction |].
  rewrite Hart. cbn [truthy].
  rewrite has_image_extension_jpg. cbn [negb].
  rewrite Hpath, Hsave. reflexivity.
Qed.

End UploadAndRebuild.

Lemma admin_upload_image_recorded_witness :
  exists filepath,
    path_join "images" (JStr "monet.png") = Return filepath /\
    admin_upload_image (up := raster_uploads) "images" "monet" (Some ("photo.PNG", "top_row"))
      museum
    = (store_artwork museum "monet"
         (JObj (dict_set [("title", JStr "Impression"); ("image", JStr "monet.png")]
                  "image" (JStr "monet.png"))),
       Some filepath,
       Return (JObj [("status", JStr "ok"); ("filename", JStr "monet.png")], 200)) /\
    has_image_extension "monet.png" = true /\
    (forall key, key <> "image" ->
                 dict_get (dict_set [("title", JStr "Impression"); ("image", JStr "monet.png")]
                             "image" (JStr "monet.png")) key
                 = dict_get [("title", JStr "Impression"); ("image", JStr "monet.png")] key) /\
    classify (lib := raster_lib gallery_files) "images"
      (JObj (dict_set [("title", JStr "Impression"); ("image", JStr "monet.png")]
               "image" (JStr "monet.png")))
    = (if path_exists (Imaging := raster_lib gallery_files) filepath
       then match fingerprint_file (lib := raster_lib gallery_files) filepath with
            | Return ph => Valid ph
            | Raise _ => Broken
            end
       else Broken).
Proof.
  apply (admin_upload_image_recorded (lib := raster_lib gallery_files) (up := raster_uploads)
           "images" "monet" "photo.PNG" "top_row"
           [("title", JStr "Impression"); ("image", JStr "monet.png")] "monet.png" museum);
    try reflexivity; discriminate.
Defined.

Lemma admin_upload_image_unknown_witness :
  exists filepath,
    path_join "images" (JStr ("rodin" ++ ".jpg")) = Return filepath /\
    admin_upload_image (up := raster_uploads) "images" "rodin" (Some ("photo.PNG", "top_row"))
      museum
    = (museum, Some filepath,
       Return (JObj [("status", JStr "ok"); ("filename", JStr ("rodin" ++ ".jpg"))], 200)).
Proof.
  apply (admin_upload_image_unknown (up := raster_uploads)
           "images" "rodin" "photo.PNG" "top_row" museum);
    try reflexivity; discriminate.
Defined.

(** ** Decoding an upload *)

Lemma after_comma_first (prefix payload : string) :
  has_char "," prefix = false -> after_comma (prefix ++ "," ++ payload) = Some payload.
Proof.
  induction prefix as [| c prefix IH]; cbn [String.append after_comma has_char].
  - reflexivity.
  - intros H. apply Bool.orb_false_iff in H. destruct H as [Hc Hrest].
    rewrite Hc. apply IH. exact Hrest.
Qed.

Lemma after_comma_none (text : string) :
  has_char "," text = false -> after_comma text = None.
Proof.
  induction text as [| c text IH]; cbn [after_comma has_char].
  - reflexivity.
  - intros H. apply Bool.orb_false_iff in H. destruct H as [Hc Hrest].
    rewrite Hc. apply IH. exact Hrest.
Qed.

Lemma append_comma_nonempty (prefix payload : string) :
  String.eqb (prefix ++ "," ++ payload) "" = false.
Proof. destruct prefix; reflexivity. Qed.

Section DecodeUpload.

Context {image : Type} {lib : Imaging image} {up : Uploads image}.

(** X24: a JSON upload may carry its base64 text bare or as a data URL.
    Of a text with a comma, everything up to and including the first
    comma is dropped and the rest is decoded, whatever the prefix says
    and whatever follows (later commas included); a non-empty text
    without a comma is decoded as it is.  In both cases the outcome is
    that of base64-decoding, opening and converting to RGB, and a failure
    of any of the three is reported as an invalid base64 image. *)
Theorem decode_upload_data_url (data : dict json) (prefix payload text : string) :
  data <> [] ->
  let decoded (b64 : string) : option image * string :=
    match (binary <- b64decode b64 ;; img <- open_bytes binary ;; convert img "RGB") with
    | Return img => (Some img, "")
    | Raise e => (None, "Invalid base64 image: " ++ e)
    end in
  (has_char "," prefix = false ->
   dict_get data "image_base64" = Some (JStr (prefix ++ "," ++ payload)) ->
   decode_upload_to_image {| upload_file := None; upload_json := Some (JObj data) |}
   = decoded payload) /\
  (has_char "," text = false -> text <> "" ->
   dict_get data "image_base64" = Some (JStr text) ->
   decode_upload_to_image {| upload_file := None; upload_json := Some (JObj data) |}
   = decoded text).
Proof.
  intros Hdata decoded.
  assert (Hbody : body_or_empty (Some (JObj data)) = JObj data).
  { destruct data; [contradiction | reflexivity]. }
  split.
  - intros Hprefix Hget.
    unfold decode_upload_to_image, decode_json_upload.
    cbn [upload_file upload_json]. rewrite Hbody.
    unfold meta_get. rewrite Hget. cbn [bind truthy].
    rewrite append_comma_nonempty. cbn [negb].
    rewrite (after_comma_first _ _ Hprefix).
    unfold decoded.
    destruct (b64decode payload) as [binary | e]; cbn [bind]; [| reflexivity].
    destruct (open_bytes binary) as [img | e]; cbn [bind]; [| reflexivity].
    destruct (convert img "RGB") as [img' | e]; cbn [bind]; reflexivity.
  - intros Htext Hne Hget.
    unfold decode_upload_to_image, decode_json_upload.
    cbn [upload_file upload_json]. rewrite Hbody.
    unfold meta_get. rewrite Hget. cbn [bind truthy].
    destruct (String.eqb_spec text "") as [E | _]; [contradiction |]. cbn [negb].
    rewrite (after_comma_none _ Htext).
    unfold decoded.
    destruct (b64decode text) as [binary | e]; cbn [bind]; [| reflexivity].
    destruct (open_bytes binary) as [img | e]; cbn [bind]; [| reflexivity].
    destruct (convert img "RGB") as [img' | e]; cbn [bind]; reflexivity.
Qed.

(** X25: whatever the request holds, decoding gives either an image and
    the empty error text, or no image and an error text that is not
    empty; in the second case the analyze route answers 400 with that
    text, whatever the catalog and the fingerprint store are, so that no
    library failure while decoding escapes as an exception. *)
Theorem decode_upload_image_or_error (req : upload) :
  (exists img, decode_upload_to_image req = (Some img, "")) \/
  (exists err, err <> "" /\
               decode_upload_to_image req = (None, err) /\
               forall ARTWORKS store, analyze_route req ARTWORKS store = Error_reply 400 err).
Proof.
  assert (Hcase : (exists img, decode_upload_to_image req = (Some img, "")) \/
                  (exists err, err <> "" /\ decode_upload_to_image req = (None, err))).
  { unfold decode_upload_to_image.
    destruct (upload_file req) as [stream |].
    - destruct (open_bytes stream) as [img | e]; cbn [bind].
      + destruct (convert img "RGB") as [img' | e].
        * left. exists img'. reflexivity.
        * right. eexists. split; [| reflexivity]. discriminate.
      + right. eexists. split; [| reflexivity]. discriminate.
    - unfold decode_json_upload.
      destruct (meta_get (body_or_empty (upload_json req)) "image_base64") as [b64data | e];
        cbn [bind]; [| right; eexists; split; [| reflexivity]; discriminate].
      destruct (truthy b64data); cbn [negb];
        [| right; eexists; split; [| reflexivity]; discriminate].
      destruct b64data as [| b | z | q | text | items | fields];
        try (right; eexists; split; [| reflexivity]; discriminate).
      + destruct (b64decode _) as [binary | e]; cbn [bind];
          [| right; eexists; split; [| reflexivity]; discriminate].
        destruct (open_bytes binary) as [img | e]; cbn [bind];
          [| right; eexists; split; [| reflexivity]; discriminate].
        destruct (convert img "RGB") as [img' | e]; cbn [bind];
          [| right; eexists; split; [| reflexivity]; discriminate].
        left. exists img'. reflexivity.
      + destruct (existsb _ items); right; eexists; (split; [| reflexivity]); discriminate.
      + destruct (dict_has fields ","); right; eexists; (split; [| reflexivity]); discriminate. }
  destruct Hcase as [Himg | [err [Hne Hdec]]]; [left; exact Himg | right].
  exists err. split; [exact Hne | split; [exact Hdec |]].
  intros ARTWORKS store. unfold analyze_route. rewrite Hdec. reflexivity.
Qed.

End DecodeUpload.

Lemma decode_upload_data_url_witness :
  decode_upload_to_image (lib := raster_lib []) (up := raster_uploads)
    {| upload_file := None;
       upload_json := Some (JObj [("image_base64",
                                   JStr ("data:image/png;base64" ++ "," ++ "dG9wX3Jvdw=="))]) |}
  = (Some top_row, "") /\
  decode_upload_to_image (lib := raster_lib []) (up := raster_uploads)
    {| upload_file := None;
       upload_json := Some (JObj [("image_base64", JStr "dG9wX3Jvdw==")]) |}
  = (Some top_row, "").
Proof.
  split.
  - refine (proj1 (decode_upload_data_url (lib := raster_lib []) (up := raster_uploads)
                     [("image_base64", JStr ("data:image/png;base64" ++ "," ++ "dG9wX3Jvdw=="))]
                     "data:image/png;base64" "dG9wX3Jvdw==" "x" _) _ _);
      [discriminate | reflexivity | reflexivity].
  - refine (proj2 (decode_upload_data_url (lib := raster_lib []) (up := raster_uploads)
                     [("image_base64", JStr "dG9wX3Jvdw==")]
                     "" "" "dG9wX3Jvdw==" _) _ _ _);
      [discriminate | reflexivity | discriminate | reflexivity].
Defined.
